(** * The Transformer notebook ([transformer.ipynb]) in Rocq

    A shallow embedding of the forward computation of the encoder-decoder
    Transformer: scaled dot-product attention, multi-head attention, layer
    normalisation, the pre-norm residual wrapper, the encoder and decoder
    stacks, embeddings, positional encoding and the generator.

    Conventions.
    - A floating-point scalar is a mathematical real ([R]): arithmetic is
      exact, there is no rounding, no NaN and no infinity.
    - A tensor of rank [n] is an [n]-fold nested list.  Its shape is read off
      the nesting, so along an axis of length zero the inner extents are not
      represented; statements that depend on an extent assume it is positive.
    - A Python exception is an [Err] result; every operation that can raise is
      written in the [result] monad.
    - A Python [int] argument is a [Z]; a size read back from a tensor is a
      [nat].
    - [copy.deepcopy] is the identity on values: modules are records without
      sharing.
    - Where a statement is about what a forward pass writes, the modules are
      objects on a heap of attributes instead (module [Heap]): reading an
      attribute is [getattr], an assignment [self.a = v] is [setattr], and
      the arithmetic is that of the records. *)

From Stdlib Require Import List ZArith Bool Arith Lia Reals Lra.
From Stdlib Require String.
Import ListNotations String.StringSyntax.
Delimit Scope string_scope with string.

(** ** Exceptions and the error monad *)

Inductive exn : Type :=
| AssertionError
| ZeroDivisionError
| RuntimeError
| IndexError
| ValueError
| AttributeError
| TypeError.

Inductive result (A : Type) : Type :=
| Ok (a : A)
| Err (e : exn).

Arguments Ok {A} a.
Arguments Err {A} e.

Definition bind {A B : Type} (m : result A) (k : A -> result B) : result B :=
  match m with
  | Ok a => k a
  | Err e => Err e
  end.

Declare Scope result_scope.
Delimit Scope result_scope with result.
Notation "x <- m ;; k" := (bind m (fun x => k))
  (at level 61, m at next level, right associativity) : result_scope.
Notation "' p <- m ;; k" := (bind m (fun p => k))
  (at level 61, p pattern, m at next level, right associativity) : result_scope.
Open Scope result_scope.

(** [mapM f l] runs [f] on the elements of [l] from left to right and stops
    at the first exception. *)
Fixpoint mapM {A B : Type} (f : A -> result B) (l : list A) : result (list B) :=
  match l with
  | [] => Ok []
  | x :: l' => y <- f x ;; ys <- mapM f l' ;; Ok (y :: ys)
  end.

(** ** Tensors *)

Fixpoint tensor (A : Type) (n : nat) : Type :=
  match n with
  | O => A
  | S m => list (tensor A m)
  end.

(** Elementwise application. *)
Fixpoint tmap {A B : Type} (f : A -> B) (n : nat) : tensor A n -> tensor B n :=
  match n return tensor A n -> tensor B n with
  | O => f
  | S m => map (tmap f m)
  end.

(** Application along the last axis. *)
Fixpoint tmap_rows {A B : Type} (f : list A -> list B) (n : nat)
  : tensor A (S n) -> tensor B (S n) :=
  match n return tensor A (S n) -> tensor B (S n) with
  | O => f
  | S m => map (tmap_rows f m)
  end.

(** Application on the last two axes. *)
Fixpoint tmap_mats {A B : Type} (f : list (list A) -> list (list B)) (n : nat)
  : tensor A (S (S n)) -> tensor B (S (S n)) :=
  match n return tensor A (S (S n)) -> tensor B (S (S n)) with
  | O => f
  | S m => map (tmap_mats f m)
  end.

(** [t.size(-1)]. *)
Fixpoint size_last {A : Type} (n : nat) : tensor A (S n) -> nat :=
  match n return tensor A (S n) -> nat with
  | O => fun t => length t
  | S m => fun t => match t with
                    | [] => O
                    | x :: _ => size_last m x
                    end
  end.

(** The rows (vectors along the last axis) of a tensor, in storage order. *)
Fixpoint rows {A : Type} (n : nat) : tensor A (S n) -> list (list A) :=
  match n return tensor A (S n) -> list (list A) with
  | O => fun t => [t]
  | S m => fun t => flat_map (rows m) t
  end.

(** *** Broadcasting

    Two axes are compatible when they have the same length or one of them
    has length one; the axis of length one is repeated. *)
Definition bzip {A B C : Type} (f : A -> B -> result C)
    (xs : list A) (ys : list B) : result (list C) :=
  if length xs =? length ys then mapM (fun p => f (fst p) (snd p)) (combine xs ys)
  else match xs, ys with
       | [x], _ => mapM (f x) ys
       | _, [y] => mapM (fun x => f x y) xs
       | _, _ => Err RuntimeError
       end.

Fixpoint broadcast2 {A B C : Type} (f : A -> B -> C) (n : nat)
  : tensor A n -> tensor B n -> result (tensor C n) :=
  match n return tensor A n -> tensor B n -> result (tensor C n) with
  | O => fun a b => Ok (f a b)
  | S m => bzip (broadcast2 f m)
  end.

Open Scope R_scope.

Abbreviation vec := (list R) (only parsing).
Abbreviation mat := (list (list R)) (only parsing).

Definition Rsum (l : list R) : R := fold_right Rplus 0 l.

Definition dot (u v : vec) : R := Rsum (map (fun p => fst p * snd p) (combine u v)).

(** Transposition of a matrix given by its rows. *)
Definition transpose {A : Type} (m : list (list A)) : list (list A) :=
  fold_right (fun r acc => map (fun p => fst p :: snd p) (combine r acc))
             (repeat [] (length (hd [] m))) m.

(** [torch.matmul] on two matrices: the row length of [a] must be the number
    of rows of [b]. *)
Definition mm (a b : mat) : result mat :=
  if forallb (fun r => length r =? length b)%nat a
  then Ok (map (fun r => map (dot r) (transpose b)) a)
  else Err RuntimeError.

(** [torch.matmul] on tensors of equal rank at least two: the leading axes
    are broadcast, the last two are multiplied as matrices. *)
Fixpoint matmul (n : nat)
  : tensor R (S (S n)) -> tensor R (S (S n)) -> result (tensor R (S (S n))) :=
  match n return tensor R (S (S n)) -> tensor R (S (S n))
                 -> result (tensor R (S (S n))) with
  | O => mm
  | S m => bzip (matmul m)
  end.

(** [t.masked_fill(mask, value)], out of place: [t] and [mask] are broadcast
    against each other. *)
Definition masked_fill (n : nat) (t : tensor R n) (mask : tensor bool n) (value : R)
  : result (tensor R n) :=
  broadcast2 (fun x (b : bool) => if b then value else x) n t mask.

(** [row.softmax(dim=-1)] on one row. *)
Definition softmax_row (r : vec) : vec :=
  let e := map exp r in map (fun x => x / Rsum e) e.

Definition softmax (n : nat) : tensor R (S n) -> tensor R (S n) :=
  tmap_rows softmax_row n.

(** [torch.log_softmax(t, dim=-1)] on one row. *)
Definition log_softmax_row (r : vec) : vec :=
  map (fun x => x - ln (Rsum (map exp r))) r.

(** [t.mean(-1, keepdim=True)] and [t.std(-1, keepdim=True)] on one row;
    the standard deviation is the sample one (Bessel's correction).  On a
    row of fewer than two entries torch returns NaN for the deviation; here
    the quotient by zero is a real number. *)
Definition Rmean (r : vec) : R := Rsum r / INR (length r).

Definition Rstd (r : vec) : R :=
  sqrt (Rsum (map (fun x => (x - Rmean r) * (x - Rmean r)) r) / (INR (length r) - 1)).

(** Broadcasting a vector against a tensor of rank at least one: the vector
    is aligned with the last axis. *)
Fixpoint broadcast_vec_l {A B C : Type} (f : A -> B -> C) (n : nat)
  : list A -> tensor B (S n) -> result (tensor C (S n)) :=
  match n return list A -> tensor B (S n) -> result (tensor C (S n)) with
  | O => broadcast2 f 1
  | S m => fun v t => mapM (broadcast_vec_l f m v) t
  end.

Fixpoint broadcast_vec_r {A B C : Type} (f : A -> B -> C) (n : nat)
  : tensor A (S n) -> list B -> result (tensor C (S n)) :=
  match n return tensor A (S n) -> list B -> result (tensor C (S n)) with
  | O => broadcast2 f 1
  | S m => fun t v => mapM (fun c => broadcast_vec_r f m c v) t
  end.

(** Application along the last axis of a function that can raise. *)
Fixpoint tmapM_rows {A B : Type} (f : list A -> result (list B)) (n : nat)
  : tensor A (S n) -> result (tensor B (S n)) :=
  match n return tensor A (S n) -> result (tensor B (S n)) with
  | O => f
  | S m => mapM (tmapM_rows f m)
  end.

(** Replacing every element by a row: the rank grows by one. *)
Fixpoint tembed {A B : Type} (f : A -> result (list B)) (n : nat)
  : tensor A n -> result (tensor B (S n)) :=
  match n return tensor A n -> result (tensor B (S n)) with
  | O => f
  | S m => mapM (tembed f m)
  end.

(** Elementwise application of a function that also sees the position. *)
Fixpoint tmapi {A B : Type} (f : list nat -> A -> B) (n : nat) (path : list nat)
  : tensor A n -> tensor B n :=
  match n return tensor A n -> tensor B n with
  | O => f path
  | S m => fun t =>
      map (fun ic => tmapi f m (path ++ [fst ic]) (snd ic))
          (combine (seq 0 (length t)) t)
  end.

(** The elements in storage (row-major) order. *)
Fixpoint flatten {A : Type} (n : nat) : tensor A n -> list A :=
  match n return tensor A n -> list A with
  | O => fun x => [x]
  | S m => fun t => flat_map (flatten m) t
  end.

Fixpoint chunks {A : Type} (count size : nat) (data : list A) : list (list A) :=
  match count with
  | O => []
  | S c => firstn size data :: chunks c size (skipn size data)
  end.

Definition nat_prod (l : list nat) : nat := fold_right Nat.mul 1%nat l.

Fixpoint unflatten {A : Type} (n : nat) (shape : list nat) (data : list A)
  : tensor A (S n) :=
  match n return tensor A (S n) with
  | O => data
  | S m => match shape with
           | d :: ds => map (unflatten m ds) (chunks d (nat_prod ds) data)
           | [] => []
           end
  end.

(** The sizes requested of [view], with at most one [-1] to be inferred from
    the number of elements. *)
Definition infer_shape (numel : nat) (shape : list Z) : result (list nat) :=
  let known := map Z.to_nat (filter (fun d => negb (d =? -1)%Z) shape) in
  let p := nat_prod known in
  if existsb (fun d => d <? -1)%Z shape then Err RuntimeError
  else match (length shape - length known)%nat with
       | O => if (p =? numel)%nat then Ok (map Z.to_nat shape) else Err RuntimeError
       | S O => if (p =? 0)%nat then Err RuntimeError
                else if (numel mod p =? 0)%nat
                     then Ok (map (fun d => if (d =? -1)%Z then (numel / p)%nat
                                            else Z.to_nat d) shape)
                     else Err RuntimeError
       | _ => Err RuntimeError
       end.

(** [t.view(shape)] of a contiguous tensor to a tensor of rank [S m]. *)
Definition view {A : Type} (m : nat) (shape : list Z) (n : nat) (t : tensor A n)
  : result (tensor A (S m)) :=
  if (length shape =? S m)%nat
  then dims <- infer_shape (length (flatten n t)) shape ;;
       Ok (unflatten m dims (flatten n t))
  else Err RuntimeError.

(** [t.transpose(1, 2)] on a tensor of rank four. *)
Definition transpose_1_2 {A : Type} (t : tensor A 4) : tensor A 4 :=
  map (@transpose (list A)) t.

(** [t.unsqueeze(1)] on a tensor of rank three. *)
Definition unsqueeze_1 {A : Type} (t : tensor A 3) : tensor A 4 :=
  map (fun m => [m]) t.

(** [torch.ones], [torch.zeros]: a negative size raises. *)
Fixpoint tfull {A : Type} (x : A) (n : nat) (shape : list nat) : tensor A n :=
  match n return tensor A n with
  | O => x
  | S m => match shape with
           | d :: ds => repeat (tfull x m ds) d
           | [] => []
           end
  end.

Definition torch_full (x : R) (n : nat) (shape : list Z) : result (tensor R n) :=
  if forallb (fun d => 0 <=? d)%Z shape && (length shape =? n)%nat
  then Ok (tfull x n (map Z.to_nat shape))
  else Err RuntimeError.

Definition torch_ones := torch_full 1.
Definition torch_zeros := torch_full 0.

(** [torch.triu(t, diagonal)] on a matrix: entry [(i, j)] is kept when
    [j - i >= diagonal] and zeroed otherwise. *)
Definition triu_mat (diagonal : Z) (m : mat) : mat :=
  map (fun ir =>
         map (fun jx => if (diagonal <=? Z.of_nat (fst jx) - Z.of_nat (fst ir))%Z
                        then snd jx else 0)
             (combine (seq 0 (length (snd ir))) (snd ir)))
      (combine (seq 0 (length m)) m).

Definition triu (n : nat) (t : tensor R (S (S n))) (diagonal : Z) : tensor R (S (S n)) :=
  tmap_mats (triu_mat diagonal) n t.

(** Conversion of a float to [torch.uint8]: truncation towards zero, then
    reduction modulo 256. *)
Definition Rtrunc (x : R) : Z :=
  if Rle_dec 0 x then Int_part x else (- Int_part (- x))%Z.

Definition to_uint8 (x : R) : Z := (Rtrunc x mod 256)%Z.

(** ** Python integers and lists *)

Definition py_mod (a b : Z) : result Z :=
  if (b =? 0)%Z then Err ZeroDivisionError else Ok (a mod b)%Z.

Definition py_floordiv (a b : Z) : result Z :=
  if (b =? 0)%Z then Err ZeroDivisionError else Ok (a / b)%Z.

Definition py_assert (c : bool) : result unit :=
  if c then Ok tt else Err AssertionError.

(** [l[i]], a negative [i] counting from the end. *)
Definition getitem {A : Type} (l : list A) (i : Z) : result A :=
  let j := (if i <? 0 then i + Z.of_nat (length l) else i)%Z in
  if (j <? 0)%Z then Err IndexError
  else match nth_error l (Z.to_nat j) with
       | Some x => Ok x
       | None => Err IndexError
       end.

(** [math.sqrt] of an integer. *)
Definition math_sqrt (z : Z) : result R :=
  if (z <? 0)%Z then Err ValueError else Ok (sqrt (IZR z)).

(** ** Cloning

    [clones(module, N)] is the list of [N] deep copies of [module]; an [N]
    that is not positive gives the empty list. *)

Definition clones {A : Type} (module : A) (N : Z) : list A :=
  repeat module (Z.to_nat N).

(** ** Scaled dot-product attention *)

Definition attention (n : nat) (query key value : tensor R (S (S n)))
    (mask : option (tensor bool (S (S n))))
    (dropout : option (tensor R (S (S n)) -> tensor R (S (S n))))
  : result (tensor R (S (S n)) * tensor R (S (S n))) :=
  let d_k := size_last (S n) query in
  scores <- matmul n query (tmap_mats (@transpose R) n key) ;;
  let scores := tmap (fun s => s / sqrt (INR d_k)) (S (S n)) scores in
  scores <- match mask with
            | Some mask => masked_fill (S (S n)) scores (tmap negb (S (S n)) mask) (-1e9)
            | None => Ok scores
            end ;;
  let p_attn := softmax (S n) scores in
  let p_attn := match dropout with
                | Some dropout => dropout p_attn
                | None => p_attn
                end in
  out <- matmul n p_attn value ;;
  Ok (out, p_attn).


(** ** The causal mask *)

Definition subsequent_mask (size : Z) : result (tensor bool 3) :=
  let attn_shape := [1; size; size]%Z in
  ones <- torch_ones 3 attn_shape ;;
  let subsequent_mask := tmap to_uint8 3 (triu 1 ones 1) in
  Ok (tmap (fun u => (u =? 0)%Z) 3 subsequent_mask).

(** ** Library modules: [torch.nn]

    The random draws of a module (initial weights, dropout masks) are given
    by oracles passed at construction. *)

Module nn.

Module Linear.
(** [weight] has [out_features] rows of length [in_features]. *)
Record t : Type := mk
  { in_features : nat; out_features : nat; weight : mat; bias : vec }.

Definition __init__ (in_features out_features : Z)
    (w0 : nat -> nat -> R) (b0 : nat -> R) : result t :=
  if ((in_features <? 0) || (out_features <? 0))%Z then Err RuntimeError
  else
    let i := Z.to_nat in_features in
    let o := Z.to_nat out_features in
    Ok {| in_features := i; out_features := o;
          weight := map (fun r => map (w0 r) (seq 0 i)) (seq 0 o);
          bias := map b0 (seq 0 o) |}.

(** One row [r] is sent to [r * weight^T + bias]. *)
Definition forward_row (self : t) (r : vec) : result vec :=
  if (length r =? in_features self)%nat
  then Ok (map (fun wb => dot r (fst wb) + snd wb) (combine (weight self) (bias self)))
  else Err RuntimeError.

Definition forward (n : nat) (self : t) (x : tensor R (S n)) : result (tensor R (S n)) :=
  tmapM_rows (forward_row self) n x.
End Linear.

Module Dropout.
Record t : Type := mk { p : R; training : bool; keep : list nat -> bool }.

Definition __init__ (p : R) (keep : list nat -> bool) : result t :=
  if Rlt_dec p 0 then Err ValueError
  else if Rlt_dec 1 p then Err ValueError
  else Ok {| p := p; training := true; keep := keep |}.

(** In training mode the element at position [i] survives when [keep i]
    and is then scaled by [1 / (1 - p)]; otherwise it becomes zero.  In
    evaluation mode, and for [p = 0], the input is returned. *)
Definition forward (n : nat) (self : t) (x : tensor R n) : tensor R n :=
  if negb (training self) then x
  else if Req_dec_T (p self) 0 then x
  else if Req_dec_T (p self) 1 then tmap (fun _ => 0) n x
  else tmapi (fun i v => if keep self i then v / (1 - p self) else 0) n [] x.
End Dropout.

Module Embedding.
(** [weight] has [num_embeddings] rows of length [embedding_dim].  The
    lookup is that of a table of at least one row; what torch does with a
    table of no row is not represented, and statements about a token that
    is refused assume a row. *)
Record t : Type := mk { weight : mat }.

Definition __init__ (num_embeddings embedding_dim : Z) (e0 : nat -> nat -> R)
  : result t :=
  if ((num_embeddings <? 0) || (embedding_dim <? 0))%Z then Err RuntimeError
  else Ok {| weight := map (fun r => map (e0 r) (seq 0 (Z.to_nat embedding_dim)))
                           (seq 0 (Z.to_nat num_embeddings)) |}.

Definition lookup (self : t) (token : Z) : result vec :=
  if (token <? 0)%Z then Err IndexError
  else match nth_error (weight self) (Z.to_nat token) with
       | Some row => Ok row
       | None => Err IndexError
       end.

Definition forward (n : nat) (self : t) (x : tensor Z n) : result (tensor R (S n)) :=
  tembed (lookup self) n x.
End Embedding.

End nn.

(** The parameters of a module, as [Module.parameters()] lists them. *)
Inductive parameter : Type :=
| Param1 (v : vec)
| Param2 (m : mat).

Definition Linear_parameters (l : nn.Linear.t) : list parameter :=
  [Param2 (nn.Linear.weight l); Param1 (nn.Linear.bias l)].

(** ** Layer normalisation *)

Module LayerNorm.
Record t : Type := mk { a_2 : vec; b_2 : vec; eps : R }.

Definition __init__ (features : Z) (eps : option R) : result t :=
  let eps := match eps with Some e => e | None => 1e-6 end in
  ones <- torch_ones 1 [features] ;;
  zeros <- torch_zeros 1 [features] ;;
  Ok {| a_2 := ones; b_2 := zeros; eps := eps |}.

Definition forward (n : nat) (self : t) (x : tensor R (S n)) : result (tensor R (S n)) :=
  let mean := tmap_rows (fun r => [Rmean r]) n x in
  let std := tmap_rows (fun r => [Rstd r]) n x in
  centred <- broadcast2 Rminus (S n) x mean ;;
  scaled <- broadcast_vec_l Rmult n (a_2 self) centred ;;
  normed <- broadcast2 Rdiv (S n) scaled (tmap (fun s => s + eps self) (S n) std) ;;
  broadcast_vec_r Rplus n normed (b_2 self).

Definition parameters (self : t) : list parameter :=
  [Param1 (a_2 self); Param1 (b_2 self)].
End LayerNorm.

(** ** The residual wrapper *)

Module SublayerConnection.
Record t : Type := mk { norm : LayerNorm.t; dropout : nn.Dropout.t }.

Definition __init__ (size : Z) (dropout : R) (keep : list nat -> bool) : result t :=
  norm <- LayerNorm.__init__ size None ;;
  dropout <- nn.Dropout.__init__ dropout keep ;;
  Ok {| norm := norm; dropout := dropout |}.

(** The sublayer is a callable that may update the state [St] of the
    object it closes over. *)
Definition forward {St : Type} (n : nat) (self : t) (x : tensor R (S n))
    (sublayer : tensor R (S n) -> St -> result (tensor R (S n) * St)) (st : St)
  : result (tensor R (S n) * St) :=
  normed <- LayerNorm.forward n (norm self) x ;;
  '(y, st) <- sublayer normed st ;;
  out <- broadcast2 Rplus (S n) x (nn.Dropout.forward (S n) (dropout self) y) ;;
  Ok (out, st).

Definition parameters (self : t) : list parameter :=
  LayerNorm.parameters (norm self).
End SublayerConnection.

(** ** Multi-head attention *)

Module MultiHeadedAttention.
Record t : Type := mk
  { d_k : Z;
    h : Z;
    linears : list nn.Linear.t;
    attn : option (tensor R 4);
    dropout : nn.Dropout.t }.

Definition __init__ (h d_model : Z) (dropout : option R)
    (w0 : nat -> nat -> R) (b0 : nat -> R) (keep : list nat -> bool) : result t :=
  let dropout := match dropout with Some p => p | None => 0.1 end in
  r <- py_mod d_model h ;;
  _ <- py_assert (r =? 0)%Z ;;
  d_k <- py_floordiv d_model h ;;
  lin <- nn.Linear.__init__ d_model d_model w0 b0 ;;
  drop <- nn.Dropout.__init__ dropout keep ;;
  Ok {| d_k := d_k; h := h; linears := clones lin 4; attn := None; dropout := drop |}.

Definition set_attn (self : t) (a : tensor R 4) : t :=
  {| d_k := d_k self; h := h self; linears := linears self;
     attn := Some a; dropout := dropout self |}.

Definition forward (self : t) (query key value : tensor R 3)
    (mask : option (tensor bool 3)) : result (tensor R 3 * t) :=
  let mask := option_map unsqueeze_1 mask in
  let nbatches := Z.of_nat (length query) in
  projected <-
    mapM (fun lx =>
            y <- nn.Linear.forward 2 (fst lx) (snd lx) ;;
            y <- view 3 [nbatches; -1; h self; d_k self]%Z 3 y ;;
            Ok (transpose_1_2 y))
         (combine (linears self) [query; key; value]) ;;
  match projected with
  | [query; key; value] =>
      '(x, p_attn) <- attention 2 query key value mask
                        (Some (nn.Dropout.forward 4 (dropout self))) ;;
      let self := set_attn self p_attn in
      x <- view 2 [nbatches; -1; h self * d_k self]%Z 4 (transpose_1_2 x) ;;
      last <- getitem (linears self) (-1) ;;
      out <- nn.Linear.forward 2 last x ;;
      Ok (out, self)
  | _ => Err ValueError
  end.

Definition parameters (self : t) : list parameter :=
  flat_map Linear_parameters (linears self).
End MultiHeadedAttention.

(** ** The feed-forward network *)

Module PositionwiseFeedForward.
Record t : Type := mk
  { w_1 : nn.Linear.t; w_2 : nn.Linear.t; dropout : nn.Dropout.t }.

Definition __init__ (d_model d_ff : Z) (dropout : option R)
    (w0 : nat -> nat -> R) (b0 : nat -> R) (keep : list nat -> bool) : result t :=
  let dropout := match dropout with Some p => p | None => 0.1 end in
  w_1 <- nn.Linear.__init__ d_model d_ff w0 b0 ;;
  w_2 <- nn.Linear.__init__ d_ff d_model w0 b0 ;;
  drop <- nn.Dropout.__init__ dropout keep ;;
  Ok {| w_1 := w_1; w_2 := w_2; dropout := drop |}.

Definition relu (x : R) : R := Rmax 0 x.

Definition forward (n : nat) (self : t) (x : tensor R (S n)) : result (tensor R (S n)) :=
  hidden <- nn.Linear.forward n (w_1 self) x ;;
  nn.Linear.forward n (w_2 self)
    (nn.Dropout.forward (S n) (dropout self) (tmap relu (S n) hidden)).

Definition parameters (self : t) : list parameter :=
  Linear_parameters (w_1 self) ++ Linear_parameters (w_2 self).
End PositionwiseFeedForward.

(** ** Encoder *)

Module EncoderLayer.
Record t : Type := mk
  { self_attn : MultiHeadedAttention.t;
    feed_forward : PositionwiseFeedForward.t;
    sublayer : list SublayerConnection.t;
    size : Z }.

Definition __init__ (size : Z) (self_attn : MultiHeadedAttention.t)
    (feed_forward : PositionwiseFeedForward.t) (dropout : R)
    (keep : list nat -> bool) : result t :=
  sl <- SublayerConnection.__init__ size dropout keep ;;
  Ok {| self_attn := self_attn; feed_forward := feed_forward;
        sublayer := clones sl 2; size := size |}.

Definition set_self_attn (self : t) (a : MultiHeadedAttention.t) : t :=
  {| self_attn := a; feed_forward := feed_forward self;
     sublayer := sublayer self; size := size self |}.

Definition forward (self : t) (x : tensor R 3) (mask : option (tensor bool 3))
  : result (tensor R 3 * t) :=
  s0 <- getitem (sublayer self) 0 ;;
  '(x, self) <- SublayerConnection.forward 2 s0 x
                  (fun x self =>
                     '(y, a) <- MultiHeadedAttention.forward (self_attn self) x x x mask ;;
                     Ok (y, set_self_attn self a))
                  self ;;
  s1 <- getitem (sublayer self) 1 ;;
  SublayerConnection.forward 2 s1 x
    (fun x self =>
       y <- PositionwiseFeedForward.forward 2 (feed_forward self) x ;;
       Ok (y, self))
    self.

Definition parameters (self : t) : list parameter :=
  MultiHeadedAttention.parameters (self_attn self)
  ++ PositionwiseFeedForward.parameters (feed_forward self)
  ++ flat_map SublayerConnection.parameters (sublayer self).
End EncoderLayer.

Module Encoder.
Record t : Type := mk { layers : list EncoderLayer.t; norm : LayerNorm.t }.

Definition __init__ (layer : EncoderLayer.t) (N : Z) : result t :=
  norm <- LayerNorm.__init__ (EncoderLayer.size layer) None ;;
  Ok {| layers := clones layer N; norm := norm |}.

(** The loop [for layer in self.layers: x = layer(x, mask)]. *)
Fixpoint forward_layers (layers : list EncoderLayer.t) (x : tensor R 3)
    (mask : option (tensor bool 3)) : result (tensor R 3 * list EncoderLayer.t) :=
  match layers with
  | [] => Ok (x, [])
  | layer :: rest =>
      '(x, layer) <- EncoderLayer.forward layer x mask ;;
      '(x, rest) <- forward_layers rest x mask ;;
      Ok (x, layer :: rest)
  end.

Definition forward (self : t) (x : tensor R 3) (mask : option (tensor bool 3))
  : result (tensor R 3 * t) :=
  '(x, layers) <- forward_layers (layers self) x mask ;;
  out <- LayerNorm.forward 2 (norm self) x ;;
  Ok (out, {| layers := layers; norm := norm self |}).

Definition parameters (self : t) : list parameter :=
  flat_map EncoderLayer.parameters (layers self) ++ LayerNorm.parameters (norm self).
End Encoder.

(** ** Decoder *)

Module DecoderLayer.
Record t : Type := mk
  { size : Z;
    self_attn : MultiHeadedAttention.t;
    src_attn : MultiHeadedAttention.t;
    feed_forward : PositionwiseFeedForward.t;
    sublayer : list SublayerConnection.t }.

Definition __init__ (size : Z) (self_attn src_attn : MultiHeadedAttention.t)
    (feed_forward : PositionwiseFeedForward.t) (dropout : R)
    (keep : list nat -> bool) : result t :=
  sl <- SublayerConnection.__init__ size dropout keep ;;
  Ok {| size := size; self_attn := self_attn; src_attn := src_attn;
        feed_forward := feed_forward; sublayer := clones sl 3 |}.

Definition set_self_attn (self : t) (a : MultiHeadedAttention.t) : t :=
  {| size := size self; self_attn := a; src_attn := src_attn self;
     feed_forward := feed_forward self; sublayer := sublayer self |}.

Definition set_src_attn (self : t) (a : MultiHeadedAttention.t) : t :=
  {| size := size self; self_attn := self_attn self; src_attn := a;
     feed_forward := feed_forward self; sublayer := sublayer self |}.

Definition forward (self : t) (x memory : tensor R 3)
    (src_mask tgt_mask : option (tensor bool 3)) : result (tensor R 3 * t) :=
  let m := memory in
  s0 <- getitem (sublayer self) 0 ;;
  '(x, self) <- SublayerConnection.forward 2 s0 x
                  (fun x self =>
                     '(y, a) <- MultiHeadedAttention.forward (self_attn self)
                                  x x x tgt_mask ;;
                     Ok (y, set_self_attn self a))
                  self ;;
  s1 <- getitem (sublayer self) 1 ;;
  '(x, self) <- SublayerConnection.forward 2 s1 x
                  (fun x self =>
                     '(y, a) <- MultiHeadedAttention.forward (src_attn self)
                                  x m m src_mask ;;
                     Ok (y, set_src_attn self a))
                  self ;;
  s2 <- getitem (sublayer self) 2 ;;
  SublayerConnection.forward 2 s2 x
    (fun x self =>
       y <- PositionwiseFeedForward.forward 2 (feed_forward self) x ;;
       Ok (y, self))
    self.

Definition parameters (self : t) : list parameter :=
  MultiHeadedAttention.parameters (self_attn self)
  ++ MultiHeadedAttention.parameters (src_attn self)
  ++ PositionwiseFeedForward.parameters (feed_forward self)
  ++ flat_map SublayerConnection.parameters (sublayer self).
End DecoderLayer.

Module Decoder.
Record t : Type := mk { layers : list DecoderLayer.t; norm : LayerNorm.t }.

Definition __init__ (layer : DecoderLayer.t) (N : Z) : result t :=
  norm <- LayerNorm.__init__ (DecoderLayer.size layer) None ;;
  Ok {| layers := clones layer N; norm := norm |}.

(** The loop [for layer in self.layers: x = layer(x, memory, src_mask, tgt_mask)]. *)
Fixpoint forward_layers (layers : list DecoderLayer.t) (x memory : tensor R 3)
    (src_mask tgt_mask : option (tensor bool 3))
  : result (tensor R 3 * list DecoderLayer.t) :=
  match layers with
  | [] => Ok (x, [])
  | layer :: rest =>
      '(x, layer) <- DecoderLayer.forward layer x memory src_mask tgt_mask ;;
      '(x, rest) <- forward_layers rest x memory src_mask tgt_mask ;;
      Ok (x, layer :: rest)
  end.

Definition forward (self : t) (x memory : tensor R 3)
    (src_mask tgt_mask : option (tensor bool 3)) : result (tensor R 3 * t) :=
  '(x, layers) <- forward_layers (layers self) x memory src_mask tgt_mask ;;
  out <- LayerNorm.forward 2 (norm self) x ;;
  Ok (out, {| layers := layers; norm := norm self |}).

Definition parameters (self : t) : list parameter :=
  flat_map DecoderLayer.parameters (layers self) ++ LayerNorm.parameters (norm self).
End Decoder.

(** ** Embeddings and positional encoding *)

Module Embeddings.
Record t : Type := mk { lut : nn.Embedding.t; d_model : Z }.

Definition __init__ (d_model vocab : Z) (e0 : nat -> nat -> R) : result t :=
  lut <- nn.Embedding.__init__ vocab d_model e0 ;;
  Ok {| lut := lut; d_model := d_model |}.

Definition forward (self : t) (x : tensor Z 2) : result (tensor R 3) :=
  e <- nn.Embedding.forward 2 (lut self) x ;;
  s <- math_sqrt (d_model self) ;;
  Ok (tmap (fun v => v * s) 3 e).

Definition parameters (self : t) : list parameter :=
  [Param2 (nn.Embedding.weight (lut self))].
End Embeddings.

Module PositionalEncoding.
(** [pe] is a buffer of shape [(1, max_len, d_model)], not a parameter. *)
Record t : Type := mk { dropout : nn.Dropout.t; pe : tensor R 3 }.

(** [torch.arange(0, d_model, 2)]. *)
Definition arange_step2 (d_model : Z) : list R :=
  map (fun i => INR (2 * i)) (seq 0 ((Z.to_nat d_model + 1) / 2)).

(** [row[start::2] = rhs] on one row: [rhs] must have as many entries as
    the slice, or exactly one. *)
Definition assign_row (start : nat) (row rhs : vec) : result vec :=
  let count := ((length row - start + 1) / 2)%nat in
  let put (pick : nat -> R) :=
    map (fun jx => if (start <=? fst jx)%nat && Nat.even (fst jx - start)
                   then pick ((fst jx - start) / 2)%nat else snd jx)
        (combine (seq 0 (length row)) row) in
  if (length rhs =? count)%nat then Ok (put (fun i => nth i rhs 0))
  else if (length rhs =? 1)%nat then Ok (put (fun _ => nth 0 rhs 0))
  else Err RuntimeError.

(** [pe[:, start::2] = rhs]. *)
Definition assign_cols (start : nat) (pe rhs : mat) : result mat :=
  mapM (fun rr => assign_row start (fst rr) (snd rr)) (combine pe rhs).

Definition __init__ (d_model : Z) (dropout : R) (max_len : option Z)
    (keep : list nat -> bool) : result t :=
  let max_len := match max_len with Some l => l | None => 5000%Z end in
  drop <- nn.Dropout.__init__ dropout keep ;;
  pe <- torch_zeros 2 [max_len; d_model] ;;
  let position := map INR (seq 0 (Z.to_nat max_len)) in
  scale <- (if (d_model =? 0)%Z then Err ZeroDivisionError
            else Ok (- (ln 10000 / IZR d_model))) ;;
  let div_term := map (fun i => exp (i * scale)) (arange_step2 d_model) in
  let angle := map (fun p => map (fun d => p * d) div_term) position in
  pe <- assign_cols 0 pe (map (map sin) angle) ;;
  pe <- assign_cols 1 pe (map (map cos) angle) ;;
  Ok {| dropout := drop; pe := [pe] |}.

(** [x.size(1)]. *)
Definition size_1 (x : tensor R 3) : nat :=
  match x with
  | [] => O
  | b :: _ => length b
  end.

Definition forward (self : t) (x : tensor R 3) : result (tensor R 3) :=
  x <- broadcast2 Rplus 3 x (map (firstn (size_1 x)) (pe self)) ;;
  Ok (nn.Dropout.forward 3 (dropout self) x).
End PositionalEncoding.

(** ** Generator and the top-level model *)

Module Generator.
Record t : Type := mk { proj : nn.Linear.t }.

Definition __init__ (d_model vocab : Z) (w0 : nat -> nat -> R) (b0 : nat -> R)
  : result t :=
  proj <- nn.Linear.__init__ d_model vocab w0 b0 ;;
  Ok {| proj := proj |}.

Definition forward (n : nat) (self : t) (x : tensor R (S n)) : result (tensor R (S n)) :=
  y <- nn.Linear.forward n (proj self) x ;;
  Ok (tmap_rows log_softmax_row n y).

Definition parameters (self : t) : list parameter := Linear_parameters (proj self).
End Generator.

Module EncoderDecoder.
(** [src_embed] and [tgt_embed] are [nn.Sequential(Embeddings, PositionalEncoding)]. *)
Record t : Type := mk
  { encoder : Encoder.t;
    decoder : Decoder.t;
    src_embed : Embeddings.t * PositionalEncoding.t;
    tgt_embed : Embeddings.t * PositionalEncoding.t;
    generator : Generator.t }.

Definition embed (e : Embeddings.t * PositionalEncoding.t) (x : tensor Z 2)
  : result (tensor R 3) :=
  y <- Embeddings.forward (fst e) x ;;
  PositionalEncoding.forward (snd e) y.

Definition set_encoder (self : t) (e : Encoder.t) : t :=
  {| encoder := e; decoder := decoder self; src_embed := src_embed self;
     tgt_embed := tgt_embed self; generator := generator self |}.

Definition set_decoder (self : t) (d : Decoder.t) : t :=
  {| encoder := encoder self; decoder := d; src_embed := src_embed self;
     tgt_embed := tgt_embed self; generator := generator self |}.

Definition encode (self : t) (src : tensor Z 2) (src_mask : option (tensor bool 3))
  : result (tensor R 3 * t) :=
  e <- embed (src_embed self) src ;;
  '(memory, enc) <- Encoder.forward (encoder self) e src_mask ;;
  Ok (memory, set_encoder self enc).

Definition decode (self : t) (memory : tensor R 3) (src_mask : option (tensor bool 3))
    (tgt : tensor Z 2) (tgt_mask : option (tensor bool 3)) : result (tensor R 3 * t) :=
  e <- embed (tgt_embed self) tgt ;;
  '(out, dec) <- Decoder.forward (decoder self) e memory src_mask tgt_mask ;;
  Ok (out, set_decoder self dec).

Definition forward (self : t) (src tgt : tensor Z 2)
    (src_mask tgt_mask : option (tensor bool 3)) : result (tensor R 3 * t) :=
  '(memory, self) <- encode self src src_mask ;;
  decode self memory src_mask tgt tgt_mask.

Definition parameters (self : t) : list parameter :=
  Encoder.parameters (encoder self)
  ++ Decoder.parameters (decoder self)
  ++ Embeddings.parameters (fst (src_embed self))
  ++ Embeddings.parameters (fst (tgt_embed self))
  ++ Generator.parameters (generator self).
End EncoderDecoder.


(** * Specification-level definitions *)

(** The lower-triangular pattern: entry [(i, j)] is [j <=? i]. *)
Definition lower_triangle (n : nat) : list (list bool) :=
  map (fun i => map (fun j => (j <=? i)%nat) (seq 0 n)) (seq 0 n).

(** ** Positions in a tensor

    [tmat n idx t] is the matrix of [t] at the leading indices [idx];
    [bmat n idx t] is the matrix that broadcasting aligns with the leading
    indices [idx] of a result: along an axis of length one the only element
    is taken whatever the index. *)

Definition bget {A : Type} (l : list A) (i : nat) : option A :=
  match l with
  | [x] => Some x
  | _ => nth_error l i
  end.

Fixpoint tmat {A : Type} (n : nat) (idx : list nat)
  : tensor A (S (S n)) -> option (list (list A)) :=
  match n return tensor A (S (S n)) -> option (list (list A)) with
  | O => fun t => match idx with
                  | [] => Some t
                  | _ :: _ => None
                  end
  | S m => fun t => match idx with
                    | [] => None
                    | i :: idx' => match nth_error t i with
                                   | Some c => tmat m idx' c
                                   | None => None
                                   end
                    end
  end.

Fixpoint bmat {A : Type} (n : nat) (idx : list nat)
  : tensor A (S (S n)) -> option (list (list A)) :=
  match n return tensor A (S (S n)) -> option (list (list A)) with
  | O => fun t => match idx with
                  | [] => Some t
                  | _ :: _ => None
                  end
  | S m => fun t => match idx with
                    | [] => None
                    | i :: idx' => match bget t i with
                                   | Some c => bmat m idx' c
                                   | None => None
                                   end
                    end
  end.

(** Whether an optional dropout callable leaves every tensor unchanged. *)
Definition dropout_inactive {T : Type} (dropout : option (T -> T)) : Prop :=
  match dropout with
  | Some f => forall t, f t = t
  | None => True
  end.

(** The scores on which the softmax is taken. *)
Definition attention_scores (n : nat) (query key : tensor R (S (S n)))
    (mask : option (tensor bool (S (S n)))) : result (tensor R (S (S n))) :=
  scores <- matmul n query (tmap_mats (@transpose R) n key) ;;
  let scaled := tmap (fun s => s / sqrt (INR (size_last (S n) query))) (S (S n)) scores in
  match mask with
  | Some mask => masked_fill (S (S n)) scaled (tmap negb (S (S n)) mask) (-1e9)
  | None => Ok scaled
  end.

(** Every non-empty row sums to one. *)
Definition rows_sum_to_one (n : nat) (w : tensor R (S n)) : Prop :=
  Forall (fun r => r <> [] -> Rsum r = 1) (rows n w).

(** ** Reference formulation of attention on matrices

    [spec_score] is one entry of the masked, scaled score matrix,
    [spec_scores] the whole matrix, [spec_weights] the softmax of each of
    its rows; [weighted_sum w v] the
    sum of the rows of [v] weighted by the entries of [w]. *)

Definition spec_score (d_k : nat) (qi kj : vec) (allowed : bool) : R :=
  if allowed then dot qi kj / sqrt (INR d_k) else -1e9.

Definition spec_scores (d_k : nat) (q k : mat) (mask : list (list bool)) : mat :=
  map (fun qm => map (fun kb => spec_score d_k (fst qm) (fst kb) (snd kb))
                     (combine k (snd qm)))
      (combine q mask).

Definition spec_scores_unmasked (d_k : nat) (q k : mat) : mat :=
  map (fun qi => map (fun kj => spec_score d_k qi kj true) k) q.

Definition spec_weights (d_k : nat) (q k : mat) (mask : list (list bool)) : mat :=
  map softmax_row (spec_scores d_k q k mask).

Definition spec_weights_unmasked (d_k : nat) (q k : mat) : mat :=
  map softmax_row (spec_scores_unmasked d_k q k).

Definition weighted_sum (width : nat) (w : vec) (v : mat) : vec :=
  fold_right
    (fun wv acc =>
       map (fun ab => fst ab + snd ab) (combine (map (Rmult (fst wv)) (snd wv)) acc))
    (repeat 0 width) (combine w v).

(** The scores of one matrix of queries against one matrix of keys, for a
    given scaling dimension. *)
Definition matrix_scores (d_k : nat) (q k : mat) (mask : option (list (list bool)))
  : result mat :=
  raw <- mm q (transpose k) ;;
  let scaled := map (map (fun s => s / sqrt (INR d_k))) raw in
  match mask with
  | Some mask => masked_fill 2 scaled (map (map negb) mask) (-1e9)
  | None => Ok scaled
  end.

(** The matrix of an optional mask that broadcasting aligns with the
    leading indices [idx]. *)
Definition mask_at (n : nat) (idx : list nat) (mask : option (tensor bool (S (S n))))
    (m : option (list (list bool))) : Prop :=
  match mask, m with
  | None, None => True
  | Some t, Some mm => bmat n idx t = Some mm
  | _, _ => False
  end.

Definition apply_dropout {T : Type} (dropout : option (T -> T)) (t : T) : T :=
  match dropout with
  | Some f => f t
  | None => t
  end.

(** Prepending one entry to each column. *)
Definition zip_cons {A : Type} (r : list A) (acc : list (list A)) : list (list A) :=
  map (fun p => fst p :: snd p) (combine r acc).


(** ** Reference formulation of layer normalisation on one row *)

Definition layer_norm_row (a_2 b_2 : vec) (eps : R) (r : vec) : vec :=
  map (fun axb => fst (fst axb) * (snd (fst axb) - Rmean r) / (Rstd r + eps) + snd axb)
      (combine (combine a_2 r) b_2).


(** ** Tensors of the same shape, combined entry by entry *)

Fixpoint same_shape {A B : Type} (n : nat) : tensor A n -> tensor B n -> Prop :=
  match n return tensor A n -> tensor B n -> Prop with
  | O => fun _ _ => True
  | S m => fun x y => Forall2 (same_shape m) x y
  end.

Fixpoint tzip {A B C : Type} (f : A -> B -> C) (n : nat)
  : tensor A n -> tensor B n -> tensor C n :=
  match n return tensor A n -> tensor B n -> tensor C n with
  | O => f
  | S m => fun x y => map (fun p => tzip f m (fst p) (snd p)) (combine x y)
  end.


(** ** The default length of the positional-encoding table *)

Definition default_max_len (max_len : option Z) : Z :=
  match max_len with
  | Some l => l
  | None => 5000%Z
  end.


(** ** Reference formulation of a linear layer on one row *)

Definition linear_row (self : nn.Linear.t) (r : vec) : vec :=
  map (fun wb => dot r (fst wb) + snd wb)
      (combine (nn.Linear.weight self) (nn.Linear.bias self)).

(** ** Reference formulation of the sinusoidal table *)

(** Entry [j] of the encoding of position [pos]: a sine in the even
    columns, a cosine in the odd ones, of
    [pos * exp (2 * (j / 2) * - (ln 10000 / d_model))]. *)
Definition pe_entry (d_model : Z) (pos j : nat) : R :=
  let angle := INR pos * exp (INR (2 * (j / 2)) * - (ln 10000 / IZR d_model)) in
  if Nat.even j then sin angle else cos angle.

Definition pe_table (d_model : Z) (max_len : nat) : mat :=
  map (fun pos => map (pe_entry d_model pos) (seq 0 (Z.to_nat d_model))) (seq 0 max_len).

(** ** Reference formulation of multi-head attention *)

(** Head [t] of a matrix of projected rows: the columns
    [t * d_k .. (t + 1) * d_k - 1]. *)
Definition head (d_k t : nat) (m : mat) : mat :=
  map (fun r => firstn d_k (skipn (t * d_k) r)) m.

(** Row [i] of the result is the concatenation of the rows [i] of the
    heads. *)
Definition concat_heads (L : nat) (heads : list mat) : mat :=
  map (fun i => concat (map (fun hm => nth i hm []) heads)) (seq 0 L).

(** The attention weights of the [h] heads for one batch element, for a
    function [weights] from the queries and keys of a head to its
    weights. *)
Definition mha_weights (weights : mat -> mat -> mat) (h d_k : nat)
    (lq lk : nn.Linear.t) (qb kb : mat) : list mat :=
  map (fun t => weights (head d_k t (map (linear_row lq) qb))
                        (head d_k t (map (linear_row lk) kb)))
      (seq 0 h).

(** Multi-head attention on one batch element: every head attends with its
    own columns of the projected query, key and value; the outputs of the
    heads are concatenated position by position and projected. *)
Definition mha_batch (weights : mat -> mat -> mat) (h d_k : nat)
    (lq lk lv lo : nn.Linear.t) (qb kb vb : mat) : mat :=
  map (linear_row lo)
      (concat_heads (length qb)
         (map (fun t => map (fun wi => weighted_sum d_k wi
                                         (head d_k t (map (linear_row lv) vb)))
                            (weights (head d_k t (map (linear_row lq) qb))
                                     (head d_k t (map (linear_row lk) kb))))
              (seq 0 h))).

(** * The model constructor

    [copy.deepcopy] is the identity on values.  Every constructor call
    receives its own oracles for the initial weights and the dropout
    masks. *)

Record make_model_oracles : Type := mk_oracles
  { attn_w : nat -> nat -> R; attn_b : nat -> R; attn_keep : list nat -> bool;
    ff_w : nat -> nat -> R; ff_b : nat -> R; ff_keep : list nat -> bool;
    position_keep : list nat -> bool;
    encoder_keep : list nat -> bool;
    decoder_keep : list nat -> bool;
    src_e : nat -> nat -> R;
    tgt_e : nat -> nat -> R;
    generator_w : nat -> nat -> R; generator_b : nat -> R;
    (** the uniform draws in [[0, 1)] of [xavier_uniform_], by parameter *)
    xavier_u : list nat -> nat -> nat -> R }.

(** [nn.init.xavier_uniform_(p)] on a parameter of two dimensions: every
    entry is redrawn uniformly in [[-a, a]] for
    [a = sqrt 3 * sqrt (2 / (fan_in + fan_out))].  Where [make_model] calls
    it the model size is positive, so the sum of the fans is not zero. *)
Definition xavier_uniform_ (u : nat -> nat -> R) (w : mat) : mat :=
  let fan_in := length (hd [] w) in
  let fan_out := length w in
  let a := sqrt 3 * sqrt (2 / INR (fan_in + fan_out)) in
  map (fun ir =>
         map (fun jx => - a + (a - - a) * u (fst ir) (fst jx))
             (combine (seq 0 (length (snd ir))) (snd ir)))
      (combine (seq 0 (length w)) w).

(** The loop [for p in model.parameters(): if p.dim() > 1: xavier_uniform_(p)],
    module by module; [path] names the parameter.  Biases, gains and the
    other parameters of one dimension are left as they are. *)
Definition mapi {A B : Type} (f : nat -> A -> B) (l : list A) : list B :=
  map (fun ix => f (fst ix) (snd ix)) (combine (seq 0 (length l)) l).

Definition xavier_Linear (u : list nat -> nat -> nat -> R) (path : list nat)
    (l : nn.Linear.t) : nn.Linear.t :=
  nn.Linear.mk (nn.Linear.in_features l) (nn.Linear.out_features l)
               (xavier_uniform_ (u path) (nn.Linear.weight l)) (nn.Linear.bias l).

Definition xavier_MultiHeadedAttention (u : list nat -> nat -> nat -> R)
    (path : list nat) (a : MultiHeadedAttention.t) : MultiHeadedAttention.t :=
  MultiHeadedAttention.mk
    (MultiHeadedAttention.d_k a) (MultiHeadedAttention.h a)
    (mapi (fun i l => xavier_Linear u (path ++ [i]) l) (MultiHeadedAttention.linears a))
    (MultiHeadedAttention.attn a) (MultiHeadedAttention.dropout a).

Definition xavier_PositionwiseFeedForward (u : list nat -> nat -> nat -> R)
    (path : list nat) (f : PositionwiseFeedForward.t) : PositionwiseFeedForward.t :=
  PositionwiseFeedForward.mk
    (xavier_Linear u (path ++ [0%nat]) (PositionwiseFeedForward.w_1 f))
    (xavier_Linear u (path ++ [1%nat]) (PositionwiseFeedForward.w_2 f))
    (PositionwiseFeedForward.dropout f).

Definition xavier_EncoderLayer (u : list nat -> nat -> nat -> R)
    (path : list nat) (l : EncoderLayer.t) : EncoderLayer.t :=
  EncoderLayer.mk
    (xavier_MultiHeadedAttention u (path ++ [0%nat]) (EncoderLayer.self_attn l))
    (xavier_PositionwiseFeedForward u (path ++ [1%nat]) (EncoderLayer.feed_forward l))
    (EncoderLayer.sublayer l) (EncoderLayer.size l).

Definition xavier_Encoder (u : list nat -> nat -> nat -> R)
    (path : list nat) (e : Encoder.t) : Encoder.t :=
  Encoder.mk (mapi (fun i l => xavier_EncoderLayer u (path ++ [i]) l) (Encoder.layers e))
             (Encoder.norm e).

Definition xavier_DecoderLayer (u : list nat -> nat -> nat -> R)
    (path : list nat) (l : DecoderLayer.t) : DecoderLayer.t :=
  DecoderLayer.mk
    (DecoderLayer.size l)
    (xavier_MultiHeadedAttention u (path ++ [0%nat]) (DecoderLayer.self_attn l))
    (xavier_MultiHeadedAttention u (path ++ [1%nat]) (DecoderLayer.src_attn l))
    (xavier_PositionwiseFeedForward u (path ++ [2%nat]) (DecoderLayer.feed_forward l))
    (DecoderLayer.sublayer l).

Definition xavier_Decoder (u : list nat -> nat -> nat -> R)
    (path : list nat) (d : Decoder.t) : Decoder.t :=
  Decoder.mk (mapi (fun i l => xavier_DecoderLayer u (path ++ [i]) l) (Decoder.layers d))
             (Decoder.norm d).

Definition xavier_Embeddings (u : list nat -> nat -> nat -> R)
    (path : list nat) (e : Embeddings.t) : Embeddings.t :=
  Embeddings.mk
    (nn.Embedding.mk (xavier_uniform_ (u path) (nn.Embedding.weight (Embeddings.lut e))))
    (Embeddings.d_model e).

Definition xavier_Generator (u : list nat -> nat -> nat -> R)
    (path : list nat) (g : Generator.t) : Generator.t :=
  Generator.mk (xavier_Linear u path (Generator.proj g)).

Definition xavier_EncoderDecoder (u : list nat -> nat -> nat -> R)
    (m : EncoderDecoder.t) : EncoderDecoder.t :=
  EncoderDecoder.mk
    (xavier_Encoder u [0%nat] (EncoderDecoder.encoder m))
    (xavier_Decoder u [1%nat] (EncoderDecoder.decoder m))
    (xavier_Embeddings u [2%nat] (fst (EncoderDecoder.src_embed m)),
     snd (EncoderDecoder.src_embed m))
    (xavier_Embeddings u [3%nat] (fst (EncoderDecoder.tgt_embed m)),
     snd (EncoderDecoder.tgt_embed m))
    (xavier_Generator u [4%nat] (EncoderDecoder.generator m)).

Definition make_model (src_vocab tgt_vocab : Z) (N d_model d_ff h : option Z)
    (dropout : option R) (o : make_model_oracles) : result EncoderDecoder.t :=
  let N := match N with Some n => n | None => 6%Z end in
  let d_model := match d_model with Some d => d | None => 512%Z end in
  let d_ff := match d_ff with Some d => d | None => 2048%Z end in
  let h := match h with Some x => x | None => 8%Z end in
  let dropout := match dropout with Some p => p | None => 0.1 end in
  attn <- MultiHeadedAttention.__init__ h d_model None
            (attn_w o) (attn_b o) (attn_keep o) ;;
  ff <- PositionwiseFeedForward.__init__ d_model d_ff (Some dropout)
          (ff_w o) (ff_b o) (ff_keep o) ;;
  position <- PositionalEncoding.__init__ d_model dropout None (position_keep o) ;;
  encoder_layer <- EncoderLayer.__init__ d_model attn ff dropout (encoder_keep o) ;;
  encoder <- Encoder.__init__ encoder_layer N ;;
  decoder_layer <- DecoderLayer.__init__ d_model attn attn ff dropout (decoder_keep o) ;;
  decoder <- Decoder.__init__ decoder_layer N ;;
  src_embed <- Embeddings.__init__ d_model src_vocab (src_e o) ;;
  tgt_embed <- Embeddings.__init__ d_model tgt_vocab (tgt_e o) ;;
  generator <- Generator.__init__ d_model tgt_vocab (generator_w o) (generator_b o) ;;
  let model := EncoderDecoder.mk encoder decoder (src_embed, position)
                                 (tgt_embed, position) generator in
  Ok (xavier_EncoderDecoder (xavier_u o) model).


(** * Modules as objects on a heap

    For the statements about what a forward pass writes, a module is an
    object: a number, with its attributes held in a heap.  An attribute is a
    Python value: a number, a tensor, another module or a list of modules.
    A method is a computation on the heap: [getattr] reads an attribute,
    [setattr] is the assignment [self.a = v], and a tensor operation that is
    not in place returns a new value and leaves the heap alone.  The
    arithmetic of a method is the one of the records above, applied to the
    attributes it has read. *)

Module Heap.

Inductive value : Type :=
| VNone
| VBool (b : bool)
| VInt (z : Z)
| VFloat (r : R)
| VTensor (n : nat) (t : tensor R n)
| VModule (o : nat)
| VModuleList (l : list nat).

(** The latest binding of an attribute comes first. *)
Definition heap : Type := list (nat * String.string * value).

Definition lookup (s : heap) (o : nat) (a : String.string) : option value :=
  match find (fun e => Nat.eqb (fst (fst e)) o && String.eqb (snd (fst e)) a) s with
  | Some e => Some (snd e)
  | None => None
  end.

(** Computations that read and write the heap and can raise: an exception
    ends the computation and leaves the heap as it is at that point. *)
Definition M (A : Type) : Type := heap -> result A * heap.

Definition ret {A : Type} (a : A) : M A := fun s => (Ok a, s).

Definition bindM {A B : Type} (m : M A) (k : A -> M B) : M B :=
  fun s => match m s with
           | (Ok a, s') => k a s'
           | (Err e, s') => (Err e, s')
           end.

Definition lift {A : Type} (r : result A) : M A := fun s => (r, s).

Notation "x <~ m ;; k" := (bindM m (fun x => k))
  (at level 61, m at next level, right associativity).
Notation "' p <~ m ;; k" := (bindM m (fun p => k))
  (at level 61, p pattern, m at next level, right associativity).

Definition getattr (o : nat) (a : String.string) : M value :=
  fun s => match lookup s o a with
           | Some v => (Ok v, s)
           | None => (Err AttributeError, s)
           end.

Definition setattr (o : nat) (a : String.string) (v : value) : M unit :=
  fun s => (Ok tt, (o, a, v) :: s).

Definition get_bool (o : nat) (a : String.string) : M bool :=
  v <~ getattr o a ;;
  match v with VBool b => ret b | _ => lift (Err TypeError) end.

Definition get_int (o : nat) (a : String.string) : M Z :=
  v <~ getattr o a ;;
  match v with VInt z => ret z | _ => lift (Err TypeError) end.

Definition get_float (o : nat) (a : String.string) : M R :=
  v <~ getattr o a ;;
  match v with VFloat r => ret r | _ => lift (Err TypeError) end.

Definition get_tensor (n : nat) (o : nat) (a : String.string) : M (tensor R n) :=
  v <~ getattr o a ;;
  match v with
  | VTensor m t => match Nat.eq_dec m n with
                   | left e => ret (eq_rect m (tensor R) t n e)
                   | right _ => lift (Err TypeError)
                   end
  | _ => lift (Err TypeError)
  end.

Definition get_module (o : nat) (a : String.string) : M nat :=
  v <~ getattr o a ;;
  match v with VModule c => ret c | _ => lift (Err TypeError) end.

Definition get_modules (o : nat) (a : String.string) : M (list nat) :=
  v <~ getattr o a ;;
  match v with VModuleList l => ret l | _ => lift (Err TypeError) end.

(** A list comprehension whose body is a computation. *)
Fixpoint for_each {A B : Type} (f : A -> M B) (l : list A) : M (list B) :=
  match l with
  | [] => ret []
  | x :: l' => y <~ f x ;; ys <~ for_each f l' ;; ret (y :: ys)
  end.

(** The loop [for layer in layers: x = layer(x)]. *)
Fixpoint for_layers {A : Type} (f : nat -> A -> M A) (layers : list nat) (x : A) : M A :=
  match layers with
  | [] => ret x
  | layer :: rest => x <~ f layer x ;; for_layers f rest x
  end.

Section Forward.

(** The random draws of the dropout modules, by module. *)
Variable rng : nat -> list nat -> bool.

(** *** The library modules *)

Definition Linear_forward (n : nat) (self : nat) (x : tensor R (S n))
  : M (tensor R (S n)) :=
  i <~ get_int self "in_features"%string ;;
  o <~ get_int self "out_features"%string ;;
  weight <~ get_tensor 2 self "weight"%string ;;
  bias <~ get_tensor 1 self "bias"%string ;;
  lift (nn.Linear.forward n (nn.Linear.mk (Z.to_nat i) (Z.to_nat o) weight bias) x).

Definition Dropout_forward (n : nat) (self : nat) (x : tensor R n) : M (tensor R n) :=
  p <~ get_float self "p"%string ;;
  training <~ get_bool self "training"%string ;;
  ret (nn.Dropout.forward n (nn.Dropout.mk p training (rng self)) x).

Definition Embedding_forward (n : nat) (self : nat) (x : tensor Z n)
  : M (tensor R (S n)) :=
  weight <~ get_tensor 2 self "weight"%string ;;
  lift (nn.Embedding.forward n (nn.Embedding.mk weight) x).

(** *** The modules of the notebook *)

Definition LayerNorm_forward (n : nat) (self : nat) (x : tensor R (S n))
  : M (tensor R (S n)) :=
  a_2 <~ get_tensor 1 self "a_2"%string ;;
  b_2 <~ get_tensor 1 self "b_2"%string ;;
  eps <~ get_float self "eps"%string ;;
  lift (LayerNorm.forward n (LayerNorm.mk a_2 b_2 eps) x).

Definition attention (n : nat) (query key value : tensor R (S (S n)))
    (mask : option (tensor bool (S (S n)))) (dropout : option nat)
  : M (tensor R (S (S n)) * tensor R (S (S n))) :=
  let d_k := size_last (S n) query in
  scores <~ lift (matmul n query (tmap_mats (@transpose R) n key)) ;;
  let scores := tmap (fun s => s / sqrt (INR d_k)) (S (S n)) scores in
  scores <~ lift (match mask with
                  | Some mask =>
                      masked_fill (S (S n)) scores (tmap negb (S (S n)) mask) (-1e9)
                  | None => Ok scores
                  end) ;;
  let p_attn := softmax (S n) scores in
  p_attn <~ match dropout with
            | Some dropout => Dropout_forward (S (S n)) dropout p_attn
            | None => ret p_attn
            end ;;
  out <~ lift (matmul n p_attn value) ;;
  ret (out, p_attn).

Definition SublayerConnection_forward (n : nat) (self : nat) (x : tensor R (S n))
    (sublayer : tensor R (S n) -> M (tensor R (S n))) : M (tensor R (S n)) :=
  dropout <~ get_module self "dropout"%string ;;
  norm <~ get_module self "norm"%string ;;
  normed <~ LayerNorm_forward n norm x ;;
  y <~ sublayer normed ;;
  y <~ Dropout_forward (S n) dropout y ;;
  lift (broadcast2 Rplus (S n) x y).

Definition MultiHeadedAttention_forward (self : nat) (query key value : tensor R 3)
    (mask : option (tensor bool 3)) : M (tensor R 3) :=
  let mask := option_map unsqueeze_1 mask in
  let nbatches := Z.of_nat (length query) in
  linears <~ get_modules self "linears"%string ;;
  projected <~
    for_each (fun lx =>
                y <~ Linear_forward 2 (fst lx) (snd lx) ;;
                h <~ get_int self "h"%string ;;
                d_k <~ get_int self "d_k"%string ;;
                y <~ lift (view 3 [nbatches; -1; h; d_k]%Z 3 y) ;;
                ret (transpose_1_2 y))
             (combine linears [query; key; value]) ;;
  match projected with
  | [query; key; value] =>
      dropout <~ get_module self "dropout"%string ;;
      '(x, p_attn) <~ attention 2 query key value mask (Some dropout) ;;
      _ <~ setattr self "attn"%string (VTensor 4 p_attn) ;;
      h <~ get_int self "h"%string ;;
      d_k <~ get_int self "d_k"%string ;;
      x <~ lift (view 2 [nbatches; -1; h * d_k]%Z 4 (transpose_1_2 x)) ;;
      linears <~ get_modules self "linears"%string ;;
      last <~ lift (getitem linears (-1)) ;;
      Linear_forward 2 last x
  | _ => lift (Err ValueError)
  end.

Definition PositionwiseFeedForward_forward (n : nat) (self : nat) (x : tensor R (S n))
  : M (tensor R (S n)) :=
  w_2 <~ get_module self "w_2"%string ;;
  dropout <~ get_module self "dropout"%string ;;
  w_1 <~ get_module self "w_1"%string ;;
  hidden <~ Linear_forward n w_1 x ;;
  y <~ Dropout_forward (S n) dropout (tmap PositionwiseFeedForward.relu (S n) hidden) ;;
  Linear_forward n w_2 y.

Definition EncoderLayer_forward (self : nat) (x : tensor R 3)
    (mask : option (tensor bool 3)) : M (tensor R 3) :=
  sublayer <~ get_modules self "sublayer"%string ;;
  s0 <~ lift (getitem sublayer 0) ;;
  x <~ SublayerConnection_forward 2 s0 x
         (fun x => self_attn <~ get_module self "self_attn"%string ;;
                   MultiHeadedAttention_forward self_attn x x x mask) ;;
  sublayer <~ get_modules self "sublayer"%string ;;
  s1 <~ lift (getitem sublayer 1) ;;
  feed_forward <~ get_module self "feed_forward"%string ;;
  SublayerConnection_forward 2 s1 x (PositionwiseFeedForward_forward 2 feed_forward).

Definition Encoder_forward (self : nat) (x : tensor R 3)
    (mask : option (tensor bool 3)) : M (tensor R 3) :=
  layers <~ get_modules self "layers"%string ;;
  x <~ for_layers (fun layer x => EncoderLayer_forward layer x mask) layers x ;;
  norm <~ get_module self "norm"%string ;;
  LayerNorm_forward 2 norm x.

Definition DecoderLayer_forward (self : nat) (x memory : tensor R 3)
    (src_mask tgt_mask : option (tensor bool 3)) : M (tensor R 3) :=
  let m := memory in
  sublayer <~ get_modules self "sublayer"%string ;;
  s0 <~ lift (getitem sublayer 0) ;;
  x <~ SublayerConnection_forward 2 s0 x
         (fun x => self_attn <~ get_module self "self_attn"%string ;;
                   MultiHeadedAttention_forward self_attn x x x tgt_mask) ;;
  sublayer <~ get_modules self "sublayer"%string ;;
  s1 <~ lift (getitem sublayer 1) ;;
  x <~ SublayerConnection_forward 2 s1 x
         (fun x => src_attn <~ get_module self "src_attn"%string ;;
                   MultiHeadedAttention_forward src_attn x m m src_mask) ;;
  sublayer <~ get_modules self "sublayer"%string ;;
  s2 <~ lift (getitem sublayer 2) ;;
  feed_forward <~ get_module self "feed_forward"%string ;;
  SublayerConnection_forward 2 s2 x (PositionwiseFeedForward_forward 2 feed_forward).

Definition Decoder_forward (self : nat) (x memory : tensor R 3)
    (src_mask tgt_mask : option (tensor bool 3)) : M (tensor R 3) :=
  layers <~ get_modules self "layers"%string ;;
  x <~ for_layers (fun layer x => DecoderLayer_forward layer x memory src_mask tgt_mask)
         layers x ;;
  norm <~ get_module self "norm"%string ;;
  LayerNorm_forward 2 norm x.

Definition Embeddings_forward (self : nat) (x : tensor Z 2) : M (tensor R 3) :=
  lut <~ get_module self "lut"%string ;;
  e <~ Embedding_forward 2 lut x ;;
  d_model <~ get_int self "d_model"%string ;;
  s <~ lift (math_sqrt d_model) ;;
  ret (tmap (fun v => v * s) 3 e).

Definition PositionalEncoding_forward (self : nat) (x : tensor R 3) : M (tensor R 3) :=
  pe <~ get_tensor 3 self "pe"%string ;;
  x <~ lift (broadcast2 Rplus 3 x (map (firstn (PositionalEncoding.size_1 x)) pe)) ;;
  dropout <~ get_module self "dropout"%string ;;
  Dropout_forward 3 dropout x.

(** [nn.Sequential(Embeddings(...), PositionalEncoding(...))]: the children
    are the attributes ["0"] and ["1"]. *)
Definition Sequential_forward (self : nat) (x : tensor Z 2) : M (tensor R 3) :=
  embeddings <~ get_module self "0"%string ;;
  y <~ Embeddings_forward embeddings x ;;
  position <~ get_module self "1"%string ;;
  PositionalEncoding_forward position y.

Definition Generator_forward (n : nat) (self : nat) (x : tensor R (S n))
  : M (tensor R (S n)) :=
  proj <~ get_module self "proj"%string ;;
  y <~ Linear_forward n proj x ;;
  ret (tmap_rows log_softmax_row n y).

Definition EncoderDecoder_encode (self : nat) (src : tensor Z 2)
    (src_mask : option (tensor bool 3)) : M (tensor R 3) :=
  encoder <~ get_module self "encoder"%string ;;
  src_embed <~ get_module self "src_embed"%string ;;
  e <~ Sequential_forward src_embed src ;;
  Encoder_forward encoder e src_mask.

Definition EncoderDecoder_decode (self : nat) (memory : tensor R 3)
    (src_mask : option (tensor bool 3)) (tgt : tensor Z 2)
    (tgt_mask : option (tensor bool 3)) : M (tensor R 3) :=
  decoder <~ get_module self "decoder"%string ;;
  tgt_embed <~ get_module self "tgt_embed"%string ;;
  e <~ Sequential_forward tgt_embed tgt ;;
  Decoder_forward decoder e memory src_mask tgt_mask.

Definition EncoderDecoder_forward (self : nat) (src tgt : tensor Z 2)
    (src_mask tgt_mask : option (tensor bool 3)) : M (tensor R 3) :=
  memory <~ EncoderDecoder_encode self src src_mask ;;
  EncoderDecoder_decode self memory src_mask tgt tgt_mask.

End Forward.

(** *** What a computation leaves unchanged *)

(** Every attribute other than the cache [attn] has the value it had. *)
Definition unchanged_but_attn (s s' : heap) : Prop :=
  forall (o : nat) (a : String.string), a <> "attn"%string -> lookup s' o a = lookup s o a.

(** [m] writes no attribute other than [attn], whatever the heap it starts
    from, whether it returns or raises. *)
Definition preserves {A : Type} (m : M A) : Prop :=
  forall s : heap, unchanged_but_attn s (snd (m s)).

(** A linear layer, and a layer normalisation, written to the heap. *)
Definition store_Linear (o : nat) (l : nn.Linear.t) (s : heap) : heap :=
  (o, "in_features"%string, VInt (Z.of_nat (nn.Linear.in_features l)))
  :: (o, "out_features"%string, VInt (Z.of_nat (nn.Linear.out_features l)))
  :: (o, "weight"%string, VTensor 2 (nn.Linear.weight l))
  :: (o, "bias"%string, VTensor 1 (nn.Linear.bias l)) :: s.

Definition store_LayerNorm (o : nat) (l : LayerNorm.t) (s : heap) : heap :=
  (o, "a_2"%string, VTensor 1 (LayerNorm.a_2 l))
  :: (o, "b_2"%string, VTensor 1 (LayerNorm.b_2 l))
  :: (o, "eps"%string, VFloat (LayerNorm.eps l)) :: s.

Definition store_Dropout (o : nat) (d : nn.Dropout.t) (s : heap) : heap :=
  (o, "p"%string, VFloat (nn.Dropout.p d))
  :: (o, "training"%string, VBool (nn.Dropout.training d)) :: s.

End Heap.

(** * Properties *)

(** ** The tensor primitives on small inputs *)

Example view_splits_heads :
  view 3 [1; -1; 2; 2]%Z 3 [[[1; 2; 3; 4]; [5; 6; 7; 8]; [9; 10; 11; 12]]]%nat
  = Ok [[[[1; 2]; [3; 4]]; [[5; 6]; [7; 8]]; [[9; 10]; [11; 12]]]]%nat.
Proof. reflexivity. Qed.

Example transpose_1_2_swaps_heads_and_positions :
  transpose_1_2 [[[[1; 2]; [3; 4]]; [[5; 6]; [7; 8]]; [[9; 10]; [11; 12]]]]%nat
  = [[[[1; 2]; [5; 6]; [9; 10]]; [[3; 4]; [7; 8]; [11; 12]]]]%nat.
Proof. reflexivity. Qed.

Example view_merges_heads :
  view 2 [1; -1; 4]%Z 4 [[[[1; 2]; [3; 4]]; [[5; 6]; [7; 8]]; [[9; 10]; [11; 12]]]]%nat
  = Ok [[[1; 2; 3; 4]; [5; 6; 7; 8]; [9; 10; 11; 12]]]%nat.
Proof. reflexivity. Qed.

Example view_rejects_wrong_size :
  view 3 [1; -1; 5; 2]%Z 3 [[[1; 2; 3; 4]; [5; 6; 7; 8]; [9; 10; 11; 12]]]%nat
  = Err RuntimeError.
Proof. reflexivity. Qed.

Example transpose_matrix :
  transpose [[1; 2; 3]; [4; 5; 6]]%nat = [[1; 4]; [2; 5]; [3; 6]]%nat.
Proof. reflexivity. Qed.

Example bzip_broadcasts_length_one :
  bzip (fun a b => Ok (a + b)%nat) [10]%nat [1; 2; 3]%nat = Ok [11; 12; 13]%nat
  /\ bzip (fun a b => Ok (a + b)%nat) [1; 2]%nat [1; 2; 3]%nat = Err RuntimeError.
Proof. split; reflexivity. Qed.

Example getitem_negative_index :
  getitem [1; 2; 3]%nat (-1) = Ok 3%nat /\ getitem [1; 2; 3]%nat 3 = Err IndexError.
Proof. split; reflexivity. Qed.

Example triu_above_diagonal :
  triu_mat 1 [[1; 1; 1]; [1; 1; 1]; [1; 1; 1]] = [[0; 1; 1]; [0; 0; 1]; [0; 0; 0]].
Proof. reflexivity. Qed.

Example assign_row_strided :
  PositionalEncoding.assign_row 1 [0; 0; 0; 0; 0] [1; 2] = Ok [0; 1; 0; 2; 0]
  /\ PositionalEncoding.assign_row 1 [0; 0; 0; 0; 0] [1; 2; 3] = Err RuntimeError.
Proof. split; reflexivity. Qed.


(** ** Lists *)

Lemma combine_repeat_r {A B : Type} (l : list A) (x : B) :
  combine l (repeat x (length l)) = map (fun a => (a, x)) l.
Proof.
  induction l as [|a l IH]; simpl; [reflexivity|].
  now rewrite IH.
Qed.

Lemma combine_seq_repeat {B : Type} (n : nat) (x : B) :
  combine (seq 0 n) (repeat x n) = map (fun i => (i, x)) (seq 0 n).
Proof.
  rewrite <- (combine_repeat_r (seq 0 n) x) at 1.
  now rewrite length_seq.
Qed.

(** ** The causal mask *)

Lemma Rtrunc_IZR (z : Z) : Rtrunc (IZR z) = z.
Proof.
  unfold Rtrunc.
  destruct (Rle_dec 0 (IZR z)) as [_|_].
  - symmetry. apply Int_part_spec. lra.
  - rewrite <- opp_IZR.
    replace (Int_part (IZR (- z))) with (- z)%Z; [lia|].
    apply Int_part_spec. lra.
Qed.

Lemma to_uint8_1 : to_uint8 1 = 1%Z.
Proof. unfold to_uint8. now rewrite Rtrunc_IZR. Qed.

Lemma to_uint8_0 : to_uint8 0 = 0%Z.
Proof. unfold to_uint8. now rewrite Rtrunc_IZR. Qed.

Lemma subsequent_mask_closed (L : Z) :
  (0 <= L)%Z -> subsequent_mask L = Ok [lower_triangle (Z.to_nat L)].
Proof.
  intros HL. unfold subsequent_mask, torch_ones, torch_full.
  replace (forallb (fun d => (0 <=? d)%Z) [1%Z; L; L]) with true
    by (simpl; destruct (Z.leb_spec 0 L); [reflexivity | lia]).
  simpl. do 2 f_equal. unfold triu_mat, lower_triangle.
  set (n := Z.to_nat L).
  rewrite !repeat_length, combine_seq_repeat, !map_map.
  apply map_ext_in. intros i _. simpl.
  rewrite repeat_length, combine_seq_repeat, !map_map.
  apply map_ext_in. intros j _. simpl.
  destruct (Z.leb_spec 1 (Z.of_nat j - Z.of_nat i)) as [H|H];
    destruct (Nat.leb_spec j i) as [H'|H']; try lia.
  - now rewrite to_uint8_1.
  - now rewrite to_uint8_0.
Qed.

Lemma lower_triangle_nth (n i j : nat) :
  (i < n)%nat -> (j < n)%nat ->
  nth j (nth i (lower_triangle n) []) false = (j <=? i)%nat.
Proof.
  intros Hi Hj. unfold lower_triangle.
  rewrite (nth_indep _ [] (map (fun j => (j <=? 0)%nat) (seq 0 n)))
    by (now rewrite length_map, length_seq).
  rewrite (map_nth (fun i => map (fun j => (j <=? i)%nat) (seq 0 n))).
  rewrite seq_nth by assumption. simpl.
  rewrite (nth_indep _ false ((0 <=? i)%nat))
    by (now rewrite length_map, length_seq).
  rewrite (map_nth (fun j => (j <=? i)%nat)).
  now rewrite seq_nth.
Qed.

(** C2.  For every [L >= 0], [subsequent_mask L] returns a boolean tensor
    of shape [(1, L, L)] whose entry [[0][i][j]] is true exactly when
    [j <= i]; [subsequent_mask 5] is the lower-triangular pattern, with only
    column 0 true in row 0 and every column true in row 4. *)
Theorem subsequent_mask_spec :
  (forall L : Z, (0 <= L)%Z ->
     exists m : list (list bool),
       subsequent_mask L = Ok [m]
       /\ length m = Z.to_nat L
       /\ Forall (fun row => length row = Z.to_nat L) m
       /\ forall i j : nat, (i < Z.to_nat L)%nat -> (j < Z.to_nat L)%nat ->
            nth j (nth i m []) false = (j <=? i)%nat)
  /\ subsequent_mask 5 =
       Ok [[[true; false; false; false; false];
            [true; true; false; false; false];
            [true; true; true; false; false];
            [true; true; true; true; false];
            [true; true; true; true; true]]].
Proof.
  split.
  - intros L HL. exists (lower_triangle (Z.to_nat L)).
    split; [now apply subsequent_mask_closed|].
    split; [unfold lower_triangle; now rewrite length_map, length_seq|].
    split.
    + unfold lower_triangle. apply Forall_forall. intros row Hrow.
      apply in_map_iff in Hrow as [i [<- _]].
      now rewrite length_map, length_seq.
    + intros i j. apply lower_triangle_nth.
  - rewrite subsequent_mask_closed by lia. reflexivity.
Qed.

Lemma subsequent_mask_spec_witness :
  exists m : list (list bool),
    subsequent_mask 3 = Ok [m]
    /\ length m = 3%nat
    /\ Forall (fun row => length row = 3%nat) m
    /\ nth 1 (nth 2 m []) false = true
    /\ nth 2 (nth 1 m []) false = false.
Proof.
  destruct (proj1 subsequent_mask_spec 3%Z) as [m [Hm [Hl [Hr He]]]]; [lia|].
  exists m. split; [exact Hm|]. split; [exact Hl|]. split; [exact Hr|].
  split.
  - apply (He 2%nat 1%nat); simpl; lia.
  - apply (He 1%nat 2%nat); simpl; lia.
Defined.

(** ** The error monad *)

Lemma bind_Ok {A B : Type} (m : result A) (k : A -> result B) (b : B) :
  bind m k = Ok b -> exists a, m = Ok a /\ k a = Ok b.
Proof. destruct m as [a|e]; simpl; [eauto | discriminate]. Qed.

Lemma Ok_inj {A : Type} (a b : A) : Ok a = Ok b -> a = b.
Proof. now inversion 1. Qed.

Tactic Notation "bind_inv" hyp(H) "as" simple_intropattern(p) ident(E) :=
  apply bind_Ok in H; destruct H as [p [E H]].

Lemma mapM_length {A B : Type} (f : A -> result B) (l : list A) (r : list B) :
  mapM f l = Ok r -> length r = length l.
Proof.
  revert r. induction l as [|x l IH]; simpl; intros r H.
  - now inversion H.
  - bind_inv H as y Hy. bind_inv H as ys Hys. inversion H; subst. simpl. f_equal.
    now apply IH.
Qed.

Lemma mapM_nth {A B : Type} {f : A -> result B} {l : list A} {r : list B} {i y} :
  mapM f l = Ok r -> nth_error r i = Some y ->
  exists x, nth_error l i = Some x /\ f x = Ok y.
Proof.
  revert r i. induction l as [|x l IH]; simpl; intros r i H Hi.
  - inversion H; subst. destruct i; discriminate.
  - bind_inv H as y0 Hy0. bind_inv H as ys Hys. inversion H; subst.
    destruct i as [|i]; simpl in *.
    + inversion Hi; subst. eauto.
    + eapply IH; eauto.
Qed.

Lemma mapM_ext {A B : Type} (f g : A -> result B) (l : list A) :
  (forall x, In x l -> f x = g x) -> mapM f l = mapM g l.
Proof.
  induction l as [|x l IH]; simpl; intros H; [reflexivity|].
  rewrite H by now left. rewrite IH; [reflexivity|]. intros; apply H; now right.
Qed.

Lemma mapM_Ok {A B : Type} (f : A -> B) (l : list A) :
  mapM (fun x => Ok (f x)) l = Ok (map f l).
Proof. induction l as [|x l IH]; simpl; [reflexivity|]. now rewrite IH. Qed.

(** ** Broadcasting *)

Lemma bget_nth {A : Type} {l : list A} {i x} :
  nth_error l i = Some x -> bget l i = Some x.
Proof.
  destruct l as [|a [|b l]]; simpl; intros H; try assumption.
  destruct i as [|i]; simpl in H; [assumption|]. destruct i; discriminate.
Qed.

Lemma bzip_nth {A B C : Type} {f : A -> B -> result C} {xs ys zs i z} :
  bzip f xs ys = Ok zs -> nth_error zs i = Some z ->
  exists x y, bget xs i = Some x /\ bget ys i = Some y /\ f x y = Ok z.
Proof.
  unfold bzip. intros H Hi.
  destruct (Nat.eqb_spec (length xs) (length ys)) as [E|E].
  - destruct (mapM_nth H Hi) as [[x y] [Hxy Hf]].
    exists x, y.
    assert (Hx : nth_error xs i = Some x /\ nth_error ys i = Some y).
    { clear - Hxy. revert ys i Hxy.
      induction xs as [|a xs IH]; intros [|b ys] [|i]; simpl; intros H;
        try discriminate.
      - now inversion H.
      - now apply IH. }
    destruct Hx as [Hx Hy]. auto using bget_nth.
  - destruct xs as [|x [|x' xs]].
    + destruct ys as [|y [|y' ys]]; try discriminate.
      inversion H; subst. destruct i; discriminate.
    + destruct (mapM_nth H Hi) as [y [Hy Hf]].
      exists x, y. split; [reflexivity|]. split; [|assumption].
      now apply bget_nth.
    + destruct ys as [|y [|y' ys]]; try discriminate.
      destruct (mapM_nth H Hi) as [a [Ha Hf]].
      exists a, y. split; [|split; [reflexivity | assumption]].
      now apply bget_nth.
Qed.

Lemma tmat_cons {A : Type} n i idx (t : tensor A (S (S (S n)))) :
  tmat (S n) (i :: idx) t
  = match @nth_error (tensor A (S (S n))) t i with
    | Some c => tmat n idx c
    | None => None
    end.
Proof. reflexivity. Qed.

Lemma bmat_cons {A : Type} n i idx (t : tensor A (S (S (S n)))) :
  bmat (S n) (i :: idx) t
  = match @bget (tensor A (S (S n))) t i with
    | Some c => bmat n idx c
    | None => None
    end.
Proof. reflexivity. Qed.

Lemma tmat_bmat {A : Type} n idx (t : tensor A (S (S n))) m :
  tmat n idx t = Some m -> bmat n idx t = Some m.
Proof.
  revert idx t. induction n as [|n IH]; intros idx t; [exact (fun H => H)|].
  destruct idx as [|i idx]; [discriminate|].
  rewrite tmat_cons.
  destruct (@nth_error (tensor A (S (S n))) t i) as [c|] eqn:E; [|discriminate].
  rewrite bmat_cons, (bget_nth E). apply IH.
Qed.

Lemma bzip_length_one {A B C : Type} (f : A -> B -> result C) xs ys z :
  bzip f xs ys = Ok [z] -> length xs = 1%nat /\ length ys = 1%nat.
Proof.
  unfold bzip. intros H.
  destruct (Nat.eqb_spec (length xs) (length ys)) as [E|E].
  - apply mapM_length in H. simpl in H.
    rewrite length_combine, <- E, Nat.min_id in H. lia.
  - destruct xs as [|x [|x' xs]].
    + destruct ys as [|y [|y' ys]]; discriminate.
    + apply mapM_length in H. simpl in *. lia.
    + destruct ys as [|y [|y' ys]]; try discriminate.
      apply mapM_length in H. discriminate.
Qed.

Lemma bzip_bget {A B C : Type} {f : A -> B -> result C} {xs ys zs i z} :
  bzip f xs ys = Ok zs -> bget zs i = Some z ->
  exists x y, bget xs i = Some x /\ bget ys i = Some y /\ f x y = Ok z.
Proof.
  intros H Hi. destruct zs as [|z0 [|z1 zs]].
  - destruct i; discriminate.
  - simpl in Hi. inversion Hi; subst z0.
    destruct (bzip_length_one f xs ys z H) as [Hx Hy].
    destruct xs as [|x [|]]; try discriminate.
    destruct ys as [|y [|]]; try discriminate.
    exists x, y. repeat split. unfold bzip in H. simpl in H.
    destruct (f x y); [|discriminate]. now inversion H.
  - exact (bzip_nth H Hi).
Qed.

(** A binary operation that is lifted through the leading axes by
    broadcasting acts matrix by matrix. *)
Section Lifted.
Context {A B C : Type}.
Variable F : forall n, tensor A (S (S n)) -> tensor B (S (S n)) -> result (tensor C (S (S n))).
Hypothesis F_step : forall n a b, F (S n) a b = bzip (F n) a b.

Lemma lifted_bmat n a b r idx rm :
  F n a b = Ok r -> bmat n idx r = Some rm ->
  exists am bm, bmat n idx a = Some am /\ bmat n idx b = Some bm /\ F 0 am bm = Ok rm.
Proof.
  revert a b r idx. induction n as [|n IH]; intros a b r idx H Hr.
  - simpl in Hr. destruct idx; [|discriminate]. inversion Hr; subst.
    exists a, b. simpl. auto.
  - rewrite F_step in H.
    destruct idx as [|i idx]; [discriminate|].
    rewrite bmat_cons in Hr.
    destruct (@bget (tensor C (S (S n))) r i) as [c|] eqn:E; [|discriminate].
    destruct (bzip_bget H E) as [x [y [Hx [Hy Hf]]]].
    destruct (IH _ _ _ _ Hf Hr) as [am [bm [Ha [Hb Hm]]]].
    exists am, bm. rewrite !bmat_cons, Hx, Hy. auto.
Qed.
End Lifted.

Lemma matmul_tmat n a b r idx rm :
  matmul n a b = Ok r -> tmat n idx r = Some rm ->
  exists am bm, bmat n idx a = Some am /\ bmat n idx b = Some bm /\ mm am bm = Ok rm.
Proof.
  intros H Hr. apply tmat_bmat in Hr.
  exact (lifted_bmat matmul (fun _ _ _ => eq_refl) n a b r idx rm H Hr).
Qed.


(** ** Maps and positions *)

Lemma rows_tmap_rows {A B : Type} (f : list A -> list B) n (t : tensor A (S n)) :
  rows n (tmap_rows f n t) = map f (rows n t).
Proof.
  induction n as [|n IH]; simpl; [reflexivity|].
  induction t as [|c t IHt]; simpl; [reflexivity|].
  now rewrite map_app, IH, IHt.
Qed.

Lemma tmat_tmap_rows {A B : Type} (f : list A -> list B) n idx (t : tensor A (S (S n))) :
  tmat n idx (tmap_rows f (S n) t) = option_map (map f) (tmat n idx t).
Proof.
  revert idx t. induction n as [|n IH]; intros idx t.
  - destruct idx; reflexivity.
  - destruct idx as [|i idx]; [reflexivity|].
    change (tmap_rows f (S (S n)) t) with (map (tmap_rows f (S n)) t).
    rewrite !tmat_cons, nth_error_map.
    destruct (@nth_error (tensor A (S (S n))) t i); [apply IH | reflexivity].
Qed.

Lemma bget_map {A B : Type} (f : A -> B) l i :
  bget (map f l) i = option_map f (bget l i).
Proof.
  destruct l as [|a [|b l]]; try reflexivity.
  - now destruct i.
  - apply (nth_error_map f i (a :: b :: l)).
Qed.

Lemma bmat_tmap {A B : Type} (f : A -> B) n idx (t : tensor A (S (S n))) :
  bmat n idx (tmap f (S (S n)) t) = option_map (map (map f)) (bmat n idx t).
Proof.
  revert idx t. induction n as [|n IH]; intros idx t.
  - destruct idx; reflexivity.
  - destruct idx as [|i idx]; [reflexivity|].
    change (tmap f (S (S (S n))) t) with (map (tmap f (S (S n))) t).
    rewrite !bmat_cons, bget_map.
    destruct (@bget (tensor A (S (S n))) t i); [apply IH | reflexivity].
Qed.

Lemma bmat_tmap_mats {A B : Type} (f : list (list A) -> list (list B)) n idx
    (t : tensor A (S (S n))) :
  bmat n idx (tmap_mats f n t) = option_map f (bmat n idx t).
Proof.
  revert idx t. induction n as [|n IH]; intros idx t.
  - destruct idx; reflexivity.
  - destruct idx as [|i idx]; [reflexivity|].
    change (tmap_mats f (S n) t) with (map (tmap_mats f n) t).
    rewrite !bmat_cons, bget_map.
    destruct (@bget (tensor A (S (S n))) t i); [apply IH | reflexivity].
Qed.

(** ** Sums, softmax *)

Lemma Rsum_map_div (l : list R) (s : R) :
  Rsum (map (fun x => x / s) l) = Rsum l / s.
Proof.
  unfold Rsum. induction l as [|x l IH]; simpl; [lra|].
  rewrite IH. lra.
Qed.

Lemma Rsum_exp_pos (l : list R) : l <> [] -> 0 < Rsum (map exp l).
Proof.
  intros Hl. assert (H : forall l', 0 <= Rsum (map exp l')).
  { induction l' as [|x l' IH]; simpl; [lra|].
    pose proof (exp_pos x). unfold Rsum in *. simpl. lra. }
  destruct l as [|x l]; [contradiction|].
  unfold Rsum in *. simpl. pose proof (exp_pos x). specialize (H l). lra.
Qed.

Lemma softmax_row_sum (r : vec) : r <> [] -> Rsum (softmax_row r) = 1.
Proof.
  intros Hr. unfold softmax_row. rewrite Rsum_map_div.
  pose proof (Rsum_exp_pos r Hr). field. lra.
Qed.






(** ** Dropout *)

Lemma Dropout_forward_eval n (d : nn.Dropout.t) (x : tensor R n) :
  nn.Dropout.training d = false -> nn.Dropout.forward n d x = x.
Proof. intros H. unfold nn.Dropout.forward. now rewrite H. Qed.

(** ** Attention *)

Lemma attention_inv {n q k v mask dropout out w} :
  attention n q k v mask dropout = Ok (out, w) ->
  exists scores,
    attention_scores n q k mask = Ok scores
    /\ w = match dropout with
           | Some f => f (softmax (S n) scores)
           | None => softmax (S n) scores
           end
    /\ matmul n w v = Ok out.
Proof.
  unfold attention, attention_scores. intros H.
  bind_inv H as raw Hraw. rewrite Hraw. cbn [bind].
  bind_inv H as scores Hscores. exists scores. split; [assumption|].
  bind_inv H as o Ho. inversion H; subst. auto.
Qed.

Lemma attention_inv_inactive {n q k v mask dropout out w} :
  attention n q k v mask dropout = Ok (out, w) ->
  dropout_inactive dropout ->
  exists scores,
    attention_scores n q k mask = Ok scores
    /\ w = softmax (S n) scores
    /\ matmul n w v = Ok out.
Proof.
  intros H Hd. destruct (attention_inv H) as [s [Hs [Hw Hout]]].
  exists s. split; [assumption|]. split; [|assumption].
  destruct dropout as [f|]; [|assumption]. now rewrite Hw, Hd.
Qed.

Lemma softmax_rows_sum n (scores : tensor R (S n)) :
  Forall (fun r => r <> [] -> Rsum r = 1) (rows n (softmax n scores)).
Proof.
  unfold softmax. rewrite rows_tmap_rows. apply Forall_forall.
  intros r Hr Hne. apply in_map_iff in Hr as [s [<- _]].
  apply softmax_row_sum. intros ->. now apply Hne.
Qed.

Lemma MultiHeadedAttention_forward_attn {self q k v mask y self'} :
  MultiHeadedAttention.forward self q k v mask = Ok (y, self') ->
  exists q' k' v' out w,
    attention 2 q' k' v' (option_map unsqueeze_1 mask)
      (Some (nn.Dropout.forward 4 (MultiHeadedAttention.dropout self))) = Ok (out, w)
    /\ self' = MultiHeadedAttention.set_attn self w.
Proof.
  unfold MultiHeadedAttention.forward. intros H.
  bind_inv H as projected Hp.
  destruct projected as [|q' [|k' [|v' [|]]]]; try discriminate.
  bind_inv H as [out w] Hatt.
  bind_inv H as merged Hm. bind_inv H as last Hl. bind_inv H as y0 Hy0.
  inversion H; subst.
  exists q', k', v', out, w. auto.
Qed.

(** C6, amended.  When the dropout passed to [attention] is absent or leaves
    its input unchanged, every non-empty row of the returned weights sums to
    one along the key axis; the same holds for the weights that
    [MultiHeadedAttention.forward] retains in [attn] when its dropout module
    is in evaluation mode. *)
Theorem attention_weights_sum_to_one :
  (forall n q k v mask dropout out w,
      attention n q k v mask dropout = Ok (out, w) ->
      dropout_inactive dropout ->
      rows_sum_to_one (S n) w)
  /\ (forall self q k v mask y self',
         MultiHeadedAttention.forward self q k v mask = Ok (y, self') ->
         nn.Dropout.training (MultiHeadedAttention.dropout self) = false ->
         exists w, MultiHeadedAttention.attn self' = Some w /\ rows_sum_to_one 3 w).
Proof.
  assert (Hatt : forall n q k v mask dropout out w,
             attention n q k v mask dropout = Ok (out, w) ->
             dropout_inactive dropout -> rows_sum_to_one (S n) w).
  { intros n q k v mask dropout out w H Hd.
    destruct (attention_inv_inactive H Hd) as [s [_ [-> _]]].
    apply softmax_rows_sum. }
  split; [exact Hatt|].
  intros self q k v mask y self' H Htr.
  destruct (MultiHeadedAttention_forward_attn H)
    as [q' [k' [v' [out [w [Ha ->]]]]]].
  exists w. split; [reflexivity|].
  apply (Hatt _ _ _ _ _ _ _ _ Ha).
  intros t. now apply Dropout_forward_eval.
Qed.

Lemma attention_weights_sum_to_one_witness :
  exists out w,
    attention 0 [[1; 2]] [[1; 0]; [0; 1]] [[5; 6]; [7; 8]] (Some [[true; false]]) None
      = Ok (out, w)
    /\ rows_sum_to_one 1 w.
Proof.
  destruct (attention 0 [[1; 2]] [[1; 0]; [0; 1]] [[5; 6]; [7; 8]]
              (Some [[true; false]]) None) as [[out w]|e] eqn:E.
  - exists out, w. split; [reflexivity|].
    exact (proj1 attention_weights_sum_to_one _ _ _ _ _ _ _ _ E I).
  - cbn in E. discriminate.
Defined.

(** Active dropout breaks the row sums: a dropped weight is zero. *)
Lemma attention_weights_dropout_counterexample :
  ~ (forall n q k v mask dropout out w,
        attention n q k v mask dropout = Ok (out, w) ->
        Forall (fun r => Rsum r = 1) (rows (S n) w)).
Proof.
  intros H.
  pose (d := nn.Dropout.mk (1/2) true (fun _ => false)).
  assert (Hd : forall x, nn.Dropout.forward 2 d [[x]] = [[0]]).
  { intros x. unfold nn.Dropout.forward. simpl.
    destruct (Req_dec_T (1/2) 0); [lra|].
    destruct (Req_dec_T (1/2) 1); [lra|]. reflexivity. }
  assert (E : exists out,
             attention 0 [[1]] [[1]] [[1]] None (Some (nn.Dropout.forward 2 d))
             = Ok (out, [[0]])).
  { eexists. unfold attention. cbn -[nn.Dropout.forward].
    rewrite Hd. cbn. reflexivity. }
  destruct E as [out E]. apply H in E.
  inversion E as [|r l Hr _]; subst.
  unfold Rsum in Hr. simpl in Hr. lra.
Qed.

(** ** Matrix product *)

Lemma mm_inv {a b r} :
  mm a b = Ok r ->
  r = map (fun row => map (dot row) (transpose b)) a
  /\ Forall (fun row => length row = length b) a.
Proof.
  unfold mm. destruct (forallb _ a) eqn:E; [|discriminate].
  intros H. inversion H; subst. split; [reflexivity|].
  rewrite forallb_forall in E. apply Forall_forall. intros row Hrow.
  now apply Nat.eqb_eq, E.
Qed.

Lemma transpose_columns {A : Type} (m : list (list A)) :
  Forall (fun col => length col = length m) (transpose m).
Proof.
  unfold transpose. generalize (length (hd [] m)). intros c.
  induction m as [|r m IH]; simpl.
  - apply Forall_forall. intros col Hc. now apply repeat_spec in Hc; subst.
  - apply Forall_forall. intros col Hc.
    apply in_map_iff in Hc as [[x col'] [<- Hin]]. simpl. f_equal.
    apply in_combine_r in Hin. rewrite Forall_forall in IH. now apply IH.
Qed.


(** ** A fully masked query row *)




(** ** Transposition *)

Lemma transpose_cons {A : Type} (r : list A) (m : list (list A)) :
  transpose (r :: m) = zip_cons r (fold_right zip_cons (repeat [] (length r)) m).
Proof. reflexivity. Qed.

Lemma transpose_fold {A : Type} (m : list (list A)) (d : nat) :
  m <> [] -> Forall (fun r => length r = d) m ->
  fold_right zip_cons (repeat [] d) m = transpose m.
Proof.
  intros Hm Hd. destruct m as [|r m]; [contradiction|].
  inversion Hd; subst. reflexivity.
Qed.

Lemma fold_zip_cons_length {A : Type} (m : list (list A)) (d : nat) :
  Forall (fun r => length r = d) m ->
  length (fold_right zip_cons (repeat [] d) m) = d.
Proof.
  induction m as [|r m IH]; intros H; simpl.
  - apply repeat_length.
  - inversion H; subst. unfold zip_cons at 1.
    rewrite length_map, length_combine, IH by assumption. apply Nat.min_id.
Qed.

Lemma fold_zip_cons_columns {A : Type} (c : list A) (M : list (list A)) (d : nat) :
  length c = length M ->
  fold_right zip_cons (repeat [] (S d)) (zip_cons c M)
  = c :: fold_right zip_cons (repeat [] d) M.
Proof.
  revert M. induction c as [|x c IH]; intros [|r M] H; try discriminate.
  - reflexivity.
  - injection H as H.
    change (zip_cons (x :: c) (r :: M)) with ((x :: r) :: zip_cons c M).
    cbn [fold_right]. rewrite (IH M H). reflexivity.
Qed.

Lemma transpose_repeat_nil {A : Type} (d : nat) :
  transpose (repeat (@nil A) d) = [].
Proof.
  unfold transpose. destruct d as [|d]; [reflexivity|]. simpl.
  generalize (fold_right (fun (r : list A) acc => map (fun p => fst p :: snd p) (combine r acc))
                [] (repeat [] d)).
  reflexivity.
Qed.

Lemma transpose_involutive {A : Type} (m : list (list A)) (d : nat) :
  (0 < d)%nat -> Forall (fun r => length r = d) m ->
  transpose (transpose m) = m.
Proof.
  intros Hd. induction m as [|r m IH]; intros H; [reflexivity|].
  inversion H as [|r' m' Hr Hm]; subst.
  rewrite transpose_cons.
  set (M := fold_right zip_cons (repeat [] (length r)) m).
  assert (HM : length M = length r) by now apply fold_zip_cons_length.
  assert (E : transpose (zip_cons r M) = r :: transpose M).
  { destruct r as [|x r]; [simpl in Hd; lia|].
    destruct M as [|c M]; [discriminate|].
    pose proof (fold_zip_cons_columns (x :: r) (c :: M) (length c) (eq_sym HM)) as F.
    exact F. }
  rewrite E. f_equal.
  destruct m as [|r0 m].
  - subst M. simpl. apply transpose_repeat_nil.
  - subst M. rewrite transpose_fold by (assumption || discriminate).
    now apply IH.
Qed.

Lemma transpose_length {A : Type} (m : list (list A)) (d : nat) :
  m <> [] -> Forall (fun r => length r = d) m -> length (transpose m) = d.
Proof.
  intros Hm H. rewrite <- (transpose_fold m d Hm H). now apply fold_zip_cons_length.
Qed.

(** ** Same-shape operands *)

Lemma bzip_same_length {A B C : Type} (f : A -> B -> result C) xs ys :
  length xs = length ys ->
  bzip f xs ys = mapM (fun p => f (fst p) (snd p)) (combine xs ys).
Proof. intros H. unfold bzip. now rewrite H, Nat.eqb_refl. Qed.

Lemma combine_map_both {A B A' B' : Type} (f : A -> A') (g : B -> B') l l' :
  combine (map f l) (map g l') = map (fun p => (f (fst p), g (snd p))) (combine l l').
Proof.
  revert l'. induction l as [|a l IH]; intros [|b l']; simpl; try reflexivity.
  now rewrite IH.
Qed.

(** Elementwise combination of two matrices of the same shape. *)
Lemma broadcast2_same_shape {A B C : Type} (f : A -> B -> C)
    (a : list (list A)) (b : list (list B)) (cols : nat) :
  length a = length b ->
  Forall (fun r => length r = cols) a -> Forall (fun r => length r = cols) b ->
  broadcast2 f 2 a b
  = Ok (map (fun rr => map (fun xy => f (fst xy) (snd xy)) (combine (fst rr) (snd rr)))
            (combine a b)).
Proof.
  intros Hlen Ha Hb.
  change (broadcast2 f 2 a b) with (bzip (bzip (fun x y => Ok (f x y))) a b).
  rewrite bzip_same_length by assumption.
  rewrite <- mapM_Ok. apply mapM_ext. intros [r r'] Hin. simpl.
  rewrite Forall_forall in Ha, Hb.
  rewrite bzip_same_length
    by (rewrite (Ha r (in_combine_l _ _ _ _ Hin)), (Hb r' (in_combine_r _ _ _ _ Hin));
        reflexivity).
  apply mapM_Ok.
Qed.

(** ** Attention on matrices *)

Lemma mm_rect (a b : list (list R)) :
  Forall (fun r => length r = length b) a ->
  mm a b = Ok (map (fun r => map (dot r) (transpose b)) a).
Proof.
  intros H. unfold mm.
  replace (forallb (fun r => (length r =? length b)%nat) a) with true; [reflexivity|].
  symmetry. apply forallb_forall. intros r Hr. rewrite Forall_forall in H.
  apply Nat.eqb_eq. now apply H.
Qed.

(** The product [q * k^T] has the dot products of the rows of [q] with the
    rows of [k] as entries. *)
Lemma mm_transpose (q k : list (list R)) (d : nat) :
  (0 < d)%nat -> k <> [] ->
  Forall (fun r => length r = d) q -> Forall (fun r => length r = d) k ->
  mm q (transpose k) = Ok (map (fun qi => map (dot qi) k) q).
Proof.
  intros Hd Hk Hq Hkd. rewrite mm_rect.
  - now rewrite (transpose_involutive k d Hd Hkd).
  - now rewrite (transpose_length k d Hk Hkd).
Qed.


Lemma weighted_sum_dot (width : nat) (w : list R) (v : list (list R)) :
  length w = length v ->
  weighted_sum width w v = map (dot w) (fold_right zip_cons (repeat [] width) v).
Proof.
  unfold weighted_sum. revert w.
  induction v as [|r v IH]; intros [|x w] H; try discriminate.
  - simpl. now rewrite map_repeat.
  - injection H as H. simpl. rewrite (IH w H).
    unfold zip_cons at 2. rewrite combine_map_both, !map_map.
    apply map_ext. intros [a col]. reflexivity.
Qed.

Lemma weighted_sum_transpose (width : nat) (w : list R) (v : list (list R)) :
  v <> [] -> Forall (fun r => length r = width) v -> length w = length v ->
  map (dot w) (transpose v) = weighted_sum width w v.
Proof.
  intros Hv Hw Hlen. rewrite weighted_sum_dot by assumption.
  now rewrite (transpose_fold v width Hv Hw).
Qed.

Lemma softmax_row_length (r : list R) : length (softmax_row r) = length r.
Proof. unfold softmax_row. now rewrite !length_map. Qed.

Lemma matrix_scores_masked (q k : list (list R)) (mask : list (list bool)) (d d_k : nat) :
  (0 < d)%nat -> k <> [] ->
  Forall (fun r => length r = d) q -> Forall (fun r => length r = d) k ->
  length mask = length q -> Forall (fun r => length r = length k) mask ->
  matrix_scores d_k q k (Some mask) = Ok (spec_scores d_k q k mask).
Proof.
  intros Hd Hk Hq Hkd Hml Hmr. unfold matrix_scores, masked_fill, spec_scores.
  rewrite (mm_transpose q k d Hd Hk Hq Hkd). cbn [bind].
  rewrite (broadcast2_same_shape _ _ _ (length k)).
  - f_equal. rewrite !map_map, combine_map_both, map_map.
    apply map_ext. intros [qi mi]. simpl.
    rewrite !map_map, combine_map_both, map_map.
    apply map_ext. intros [kj b]. simpl. unfold spec_score. now destruct b.
  - now rewrite !length_map.
  - apply Forall_forall. intros r Hr.
    apply in_map_iff in Hr as [r' [<- Hr']].
    apply in_map_iff in Hr' as [qi [<- _]]. now rewrite !length_map.
  - apply Forall_forall. intros r Hr.
    apply in_map_iff in Hr as [r' [<- Hr']]. rewrite length_map.
    rewrite Forall_forall in Hmr. now apply Hmr.
Qed.

Lemma matrix_scores_unmasked (q k : list (list R)) (d d_k : nat) :
  (0 < d)%nat -> k <> [] ->
  Forall (fun r => length r = d) q -> Forall (fun r => length r = d) k ->
  matrix_scores d_k q k None = Ok (spec_scores_unmasked d_k q k).
Proof.
  intros Hd Hk Hq Hkd. unfold matrix_scores, spec_scores_unmasked.
  rewrite (mm_transpose q k d Hd Hk Hq Hkd). cbn [bind].
  f_equal. rewrite map_map. apply map_ext. intros qi. now rewrite map_map.
Qed.

Lemma attention_scores_matrix (q k : list (list R)) mask :
  attention_scores 0 q k mask = matrix_scores (size_last 1 q) q k mask.
Proof. reflexivity. Qed.


(** ** Attention, matrix by matrix *)

Lemma attention_scores_bmat {n q k mask scores idx sm} :
  attention_scores n q k mask = Ok scores -> bmat n idx scores = Some sm ->
  exists qm km maskm,
    bmat n idx q = Some qm /\ bmat n idx k = Some km /\ mask_at n idx mask maskm
    /\ matrix_scores (size_last (S n) q) qm km maskm = Ok sm.
Proof.
  unfold attention_scores. intros H Hsm. bind_inv H as a Ha.
  assert (Hraw : forall rm, bmat n idx a = Some rm ->
            exists qm km, bmat n idx q = Some qm /\ bmat n idx k = Some km
                          /\ mm qm (transpose km) = Ok rm).
  { intros rm Hrm.
    destruct (lifted_bmat matmul (fun _ _ _ => eq_refl) _ _ _ _ _ _ Ha Hrm)
      as [qm [ktm [Hq [Hk Hmul]]]].
    rewrite bmat_tmap_mats in Hk.
    destruct (bmat n idx k) as [km|]; [|discriminate].
    inversion Hk; subst ktm. exists qm, km. auto. }
  destruct mask as [mask|].
  - unfold masked_fill in H.
    destruct (lifted_bmat (fun n => broadcast2 (fun x (b : bool) => if b then -1e9 else x)
                                      (S (S n)))
                (fun _ _ _ => eq_refl) _ _ _ _ _ _ H Hsm)
      as [am [bm [Ham [Hbm Hfill]]]].
    rewrite bmat_tmap in Ham. rewrite bmat_tmap in Hbm.
    destruct (bmat n idx a) as [rm|] eqn:Hrm; [|discriminate].
    destruct (bmat n idx mask) as [maskm|] eqn:Hmask; [|discriminate].
    inversion Ham; subst am. inversion Hbm; subst bm.
    destruct (Hraw rm eq_refl) as [qm [km [Hq [Hk Hmul]]]].
    exists qm, km, (Some maskm). repeat split; try assumption.
    unfold matrix_scores, masked_fill. rewrite Hmul. exact Hfill.
  - apply Ok_inj in H. rewrite <- H in Hsm. rewrite bmat_tmap in Hsm.
    destruct (bmat n idx a) as [rm|] eqn:Hrm; [|discriminate].
    inversion Hsm; subst sm.
    destruct (Hraw rm eq_refl) as [qm [km [Hq [Hk Hmul]]]].
    exists qm, km, None. repeat split; try assumption.
    unfold matrix_scores. now rewrite Hmul.
Qed.

(** C1.  [attention] computes the scores [query * key^T / sqrt d_k] with
    [d_k] the last extent of [query], overwrites with [-1e9] the scores whose
    mask entry is false, takes the softmax along the last axis (followed by
    the optional dropout) and returns the pair of [weights * value] and the
    weights.  The second part reads this off matrix by matrix for tensors of
    any rank, the last two give every entry for matrices of matching shapes:
    each output row is the sum of the value rows weighted by the attention
    weights of the query. *)
Theorem attention_spec :
  (forall n q k v mask dropout,
      attention n q k v mask dropout
      = (scores <- attention_scores n q k mask ;;
         let weights := apply_dropout dropout (softmax (S n) scores) in
         out <- matmul n weights v ;;
         Ok (out, weights)))
  /\ (forall n q k v mask dropout out w idx wm,
         attention n q k v mask dropout = Ok (out, w) ->
         dropout_inactive dropout ->
         tmat n idx w = Some wm ->
         exists qm km maskm sm,
           bmat n idx q = Some qm /\ bmat n idx k = Some km /\ mask_at n idx mask maskm
           /\ matrix_scores (size_last (S n) q) qm km maskm = Ok sm
           /\ wm = map softmax_row sm
           /\ forall om, tmat n idx out = Some om ->
                exists vm, bmat n idx v = Some vm /\ mm wm vm = Ok om)
  /\ (forall (q k v : list (list R)) (mask : list (list bool)) (d dv : nat),
         (0 < d)%nat -> k <> [] ->
         Forall (fun r => length r = d) q -> Forall (fun r => length r = d) k ->
         length v = length k -> Forall (fun r => length r = dv) v ->
         length mask = length q -> Forall (fun r => length r = length k) mask ->
         attention 0 q k v (Some mask) None
         = Ok (map (fun wi => weighted_sum dv wi v) (spec_weights d q k mask),
               spec_weights d q k mask))
  /\ (forall (q k v : list (list R)) (d dv : nat),
         (0 < d)%nat -> k <> [] ->
         Forall (fun r => length r = d) q -> Forall (fun r => length r = d) k ->
         length v = length k -> Forall (fun r => length r = dv) v ->
         attention 0 q k v None None
         = Ok (map (fun wi => weighted_sum dv wi v) (spec_weights_unmasked d q k),
               spec_weights_unmasked d q k)).
Proof.
  assert (Heq : forall n q k v mask dropout,
             attention n q k v mask dropout
             = (scores <- attention_scores n q k mask ;;
                let weights := apply_dropout dropout (softmax (S n) scores) in
                out <- matmul n weights v ;;
                Ok (out, weights))).
  { intros. unfold attention, attention_scores.
    destruct (matmul n q (tmap_mats (@transpose R) n k)); reflexivity. }
  assert (Hout : forall (w v : list (list R)) (len dv : nat),
             v <> [] -> Forall (fun r => length r = dv) v -> length v = len ->
             Forall (fun r => length r = len) w ->
             mm w v = Ok (map (fun wi => weighted_sum dv wi v) w)).
  { intros w v len dv Hv Hdv Hlen Hw. rewrite mm_rect by now rewrite Hlen.
    f_equal. apply map_ext_in. intros wi Hwi.
    apply weighted_sum_transpose; try assumption.
    rewrite Forall_forall in Hw. rewrite (Hw wi Hwi). now symmetry. }
  split; [exact Heq|]. split; [|split].
  - intros n q k v mask dropout out w idx wm H Hd Hwm.
    destruct (attention_inv_inactive H Hd) as [scores [Hs [-> Hmul]]].
    unfold softmax in Hwm. rewrite tmat_tmap_rows in Hwm.
    destruct (tmat n idx scores) as [sm|] eqn:Hsm; [|discriminate].
    inversion Hwm; subst wm.
    destruct (attention_scores_bmat Hs (tmat_bmat _ _ _ _ Hsm))
      as [qm [km [maskm [Hq [Hk [Hmask Hscores]]]]]].
    exists qm, km, maskm, sm. repeat split; try assumption.
    intros om Hom.
    destruct (matmul_tmat _ _ _ _ _ _ Hmul Hom) as [wm' [vm [Hw' [Hv Hmm]]]].
    exists vm. split; [assumption|].
    pose proof (tmat_bmat n idx (tmap_rows softmax_row (S n) scores)
                  (map softmax_row sm)) as Hb.
    rewrite tmat_tmap_rows, Hsm in Hb. specialize (Hb eq_refl).
    unfold softmax in Hw'. rewrite Hb in Hw'. inversion Hw'; subst wm'. exact Hmm.
  - intros q k v mask d dv Hd Hk Hq Hkd Hvl Hv Hml Hmr.
    rewrite Heq, attention_scores_matrix.
    rewrite (matrix_scores_masked q k mask d _ Hd Hk Hq Hkd Hml Hmr).
    cbn [bind apply_dropout]. unfold softmax. cbn [tmap_rows].
    assert (Hdk : spec_scores (size_last 1 q) q k mask = spec_scores d q k mask).
    { destruct q as [|r q]; [reflexivity|].
      inversion Hq as [|? ? Hr _]. simpl. now rewrite Hr. }
    rewrite Hdk.
    change (map softmax_row (spec_scores d q k mask)) with (spec_weights d q k mask).
    change (matmul 0) with mm.
    rewrite (Hout (spec_weights d q k mask) v (length k) dv); try assumption.
    + reflexivity.
    + destruct v; [|discriminate]. destruct k; [contradiction | discriminate].
    + apply Forall_forall. intros wi Hwi. unfold spec_weights, spec_scores in Hwi.
      rewrite map_map in Hwi.
      apply in_map_iff in Hwi as [[qi mi] [<- Hin]].
      rewrite softmax_row_length, length_map, length_combine. simpl.
      rewrite Forall_forall in Hmr.
      rewrite (Hmr mi (in_combine_r _ _ _ _ Hin)). apply Nat.min_id.
  - intros q k v d dv Hd Hk Hq Hkd Hvl Hv.
    rewrite Heq, attention_scores_matrix.
    rewrite (matrix_scores_unmasked q k d _ Hd Hk Hq Hkd).
    cbn [bind apply_dropout]. unfold softmax. cbn [tmap_rows].
    assert (Hdk : spec_scores_unmasked (size_last 1 q) q k = spec_scores_unmasked d q k).
    { destruct q as [|r q]; [reflexivity|].
      inversion Hq as [|? ? Hr _]. simpl. now rewrite Hr. }
    rewrite Hdk.
    change (map softmax_row (spec_scores_unmasked d q k))
      with (spec_weights_unmasked d q k).
    change (matmul 0) with mm.
    rewrite (Hout (spec_weights_unmasked d q k) v (length k) dv); try assumption.
    + reflexivity.
    + destruct v; [|discriminate]. destruct k; [contradiction | discriminate].
    + apply Forall_forall. intros wi Hwi.
      unfold spec_weights_unmasked, spec_scores_unmasked in Hwi.
      rewrite map_map in Hwi.
      apply in_map_iff in Hwi as [qi [<- Hin]].
      now rewrite softmax_row_length, length_map.
Qed.

Lemma attention_spec_witness :
  attention 0 [[1; 2]] [[1; 0]; [0; 1]] [[5; 6]; [7; 8]] (Some [[true; false]]) None
  = Ok (map (fun wi => weighted_sum 2 wi [[5; 6]; [7; 8]])
            (spec_weights 2 [[1; 2]] [[1; 0]; [0; 1]] [[true; false]]),
        spec_weights 2 [[1; 2]] [[1; 0]; [0; 1]] [[true; false]]).
Proof.
  apply (proj1 (proj2 (proj2 attention_spec))
           [[1; 2]] [[1; 0]; [0; 1]] [[5; 6]; [7; 8]] [[true; false]] 2%nat 2%nat);
    try reflexivity; try (repeat constructor); try discriminate.
Defined.

(** ** Layer normalisation *)

Lemma bzip_scalar_r {A B C : Type} (f : A -> B -> C) (xs : list A) (y : B) :
  bzip (fun a b => Ok (f a b)) xs [y] = Ok (map (fun x => f x y) xs).
Proof.
  destruct xs as [|x [|x' xs]]; try reflexivity.
  unfold bzip. cbn [length Nat.eqb]. apply mapM_Ok.
Qed.

Lemma bzip_pointwise {A B C : Type} (f : A -> B -> C) (xs : list A) (ys : list B) :
  length xs = length ys ->
  bzip (fun a b => Ok (f a b)) xs ys
  = Ok (map (fun p => f (fst p) (snd p)) (combine xs ys)).
Proof. intros H. rewrite bzip_same_length by assumption. apply mapM_Ok. Qed.

Lemma mapM_combine_maps {A B C D : Type} (h : B -> C -> result D)
    (f1 : A -> B) (f2 : A -> C) (l : list A) :
  mapM (fun p => h (fst p) (snd p)) (combine (map f1 l) (map f2 l))
  = mapM (fun c => h (f1 c) (f2 c)) l.
Proof. induction l as [|a l IH]; simpl; [reflexivity|]. now rewrite IH. Qed.

Lemma Forall_rows_cons {A : Type} (P : list A -> Prop) n (x : tensor A (S (S n))) :
  Forall P (rows (S n) x) -> forall c, In c x -> Forall P (rows n c).
Proof.
  intros H c Hc. apply Forall_forall. intros r Hr.
  rewrite Forall_forall in H. apply H.
  change (rows (S n) x) with (flat_map (rows n) x).
  apply in_flat_map. eauto.
Qed.

(** Combining each row with a one-element row computed from the same input. *)
Lemma broadcast2_row_scalar (f : R -> R -> R) (F : list R -> list R) (g : list R -> R)
    n (x : tensor R (S n)) :
  broadcast2 f (S n) (tmap_rows F n x) (tmap_rows (fun r => [g r]) n x)
  = Ok (tmap_rows (fun r => map (fun v => f v (g r)) (F r)) n x).
Proof.
  induction n as [|n IH].
  - apply bzip_scalar_r.
  - change (broadcast2 f (S (S n))) with (bzip (broadcast2 f (S n))).
    change (tmap_rows F (S n) x) with (map (tmap_rows F n) x).
    change (tmap_rows (fun r => [g r]) (S n) x)
      with (map (tmap_rows (fun r => [g r]) n) x).
    rewrite bzip_same_length by now rewrite !length_map.
    rewrite mapM_combine_maps.
    transitivity (mapM (fun c => Ok (tmap_rows (fun r => map (fun v => f v (g r)) (F r)) n c)) x).
    + apply mapM_ext. intros c _. apply IH.
    + apply mapM_Ok.
Qed.

Lemma mapM_map {A B C : Type} (g : B -> result C) (f : A -> B) (l : list A) :
  mapM g (map f l) = mapM (fun a => g (f a)) l.
Proof. induction l as [|a l IH]; simpl; [reflexivity|]. now rewrite IH. Qed.

Lemma tmap_rows_id {A : Type} n (x : tensor A (S n)) :
  tmap_rows (fun r => r) n x = x.
Proof.
  induction n as [|n IH]; [reflexivity|].
  change (tmap_rows (fun r : list A => r) (S n) x)
    with (map (tmap_rows (fun r : list A => r) n) x).
  rewrite <- (map_id x) at 2. apply map_ext. intros c. apply IH.
Qed.

Lemma tmap_rows_ext {A B : Type} (f g : list A -> list B) n (x : tensor A (S n)) :
  (forall r, f r = g r) -> tmap_rows f n x = tmap_rows g n x.
Proof.
  intros H. induction n as [|n IH]; [apply H|].
  change (map (tmap_rows f n) x = map (tmap_rows g n) x).
  apply map_ext. intros c. apply IH.
Qed.

Lemma tmap_tmap_rows {A B C : Type} (f : B -> C) (g : list A -> list B) n
    (x : tensor A (S n)) :
  tmap f (S n) (tmap_rows g n x) = tmap_rows (fun r => map f (g r)) n x.
Proof.
  induction n as [|n IH]; [reflexivity|].
  change (map (tmap f (S n)) (map (tmap_rows g n) x)
          = map (tmap_rows (fun r => map f (g r)) n) x).
  rewrite map_map. apply map_ext. intros c. apply IH.
Qed.

(** Combining a vector with each row. *)
Lemma broadcast_vec_l_rows (f : R -> R -> R) (F : list R -> list R) (a : list R)
    n (x : tensor R (S n)) :
  Forall (fun r => length (F r) = length a) (rows n x) ->
  broadcast_vec_l f n a (tmap_rows F n x)
  = Ok (tmap_rows (fun r => map (fun p => f (fst p) (snd p)) (combine a (F r))) n x).
Proof.
  induction n as [|n IH]; intros H.
  - inversion H; subst. apply bzip_pointwise. now symmetry.
  - change (broadcast_vec_l f (S n) a (tmap_rows F (S n) x))
      with (mapM (broadcast_vec_l f n a) (map (tmap_rows F n) x)).
    rewrite mapM_map.
    transitivity (mapM (fun c => Ok (tmap_rows
                    (fun r => map (fun p => f (fst p) (snd p)) (combine a (F r))) n c)) x).
    + apply mapM_ext. intros c Hc. apply IH.
      exact (Forall_rows_cons _ n x H c Hc).
    + apply mapM_Ok.
Qed.

Lemma broadcast_vec_r_rows (f : R -> R -> R) (F : list R -> list R) (b : list R)
    n (x : tensor R (S n)) :
  Forall (fun r => length (F r) = length b) (rows n x) ->
  broadcast_vec_r f n (tmap_rows F n x) b
  = Ok (tmap_rows (fun r => map (fun p => f (fst p) (snd p)) (combine (F r) b)) n x).
Proof.
  induction n as [|n IH]; intros H.
  - inversion H; subst. now apply bzip_pointwise.
  - change (broadcast_vec_r f (S n) (tmap_rows F (S n) x) b)
      with (mapM (fun c => broadcast_vec_r f n c b) (map (tmap_rows F n) x)).
    rewrite mapM_map.
    transitivity (mapM (fun c => Ok (tmap_rows
                    (fun r => map (fun p => f (fst p) (snd p)) (combine (F r) b)) n c)) x).
    + apply mapM_ext. intros c Hc. apply IH.
      exact (Forall_rows_cons _ n x H c Hc).
    + apply mapM_Ok.
Qed.

Lemma layer_norm_row_stages (a b r : list R) (m s : R) :
  map (fun p => fst p + snd p)
      (combine (map (fun v => v / s)
                    (map (fun p => fst p * snd p)
                         (combine a (map (fun v => v - m) r))))
               b)
  = map (fun axb => fst (fst axb) * (snd (fst axb) - m) / s + snd axb)
        (combine (combine a r) b).
Proof.
  revert r b. induction a as [|x a IH]; intros [|y r] [|z b]; simpl; try reflexivity.
  now rewrite IH.
Qed.

Lemma LayerNorm_forward_rows n (self : LayerNorm.t) (x : tensor R (S n)) :
  length (LayerNorm.b_2 self) = length (LayerNorm.a_2 self) ->
  Forall (fun r => length r = length (LayerNorm.a_2 self)) (rows n x) ->
  LayerNorm.forward n self x
  = Ok (tmap_rows (layer_norm_row (LayerNorm.a_2 self) (LayerNorm.b_2 self)
                                  (LayerNorm.eps self)) n x).
Proof.
  intros Hb Hx. unfold LayerNorm.forward.
  rewrite <- (tmap_rows_id n x) at 1.
  rewrite broadcast2_row_scalar. cbn [bind].
  rewrite broadcast_vec_l_rows
    by (eapply Forall_impl; [|exact Hx]; intros r Hr; now rewrite length_map).
  cbn [bind]. rewrite tmap_tmap_rows. cbn [map].
  rewrite (broadcast2_row_scalar Rdiv _ (fun r => Rstd r + LayerNorm.eps self)).
  cbn [bind].
  rewrite broadcast_vec_r_rows.
  - f_equal. apply tmap_rows_ext. intros r. apply layer_norm_row_stages.
  - eapply Forall_impl; [|exact Hx]. intros r Hr. cbn beta.
    rewrite !length_map, length_combine, length_map, Hr, Hb. apply Nat.min_id.
Qed.



(** ** The residual wrapper *)

Lemma Forall2_combine_In {A B : Type} (P : A -> B -> Prop) (x : list A) (y : list B) p :
  Forall2 P x y -> In p (combine x y) -> P (fst p) (snd p).
Proof.
  induction 1 as [|a b x y Hab _ IH]; simpl; [contradiction|].
  intros [<-|Hin]; [assumption | now apply IH].
Qed.

Lemma broadcast2_same {A B C : Type} (f : A -> B -> C) n (x : tensor A n) (y : tensor B n) :
  @same_shape A B n x y -> broadcast2 f n x y = Ok (tzip f n x y).
Proof.
  revert x y. induction n as [|n IH]; intros x y H; [reflexivity|].
  change (broadcast2 f (S n) x y) with (bzip (broadcast2 f n) x y).
  change (Forall2 (@same_shape A B n) x y) in H.
  rewrite bzip_same_length by exact (Forall2_length H).
  transitivity (mapM (fun p => Ok (tzip f n (fst p) (snd p))) (combine x y)).
  - apply mapM_ext. intros p Hp. apply IH.
    exact (Forall2_combine_In _ _ _ p H Hp).
  - apply mapM_Ok.
Qed.

Lemma same_shape_map_r {A B C : Type} n (g : nat -> tensor B n -> tensor C n)
    (x : list (tensor A n)) (y : list (tensor B n)) (start : nat) :
  Forall2 (@same_shape A B n) x y ->
  (forall i a b, @same_shape A B n a b -> @same_shape A C n a (g i b)) ->
  Forall2 (@same_shape A C n) x
          (map (fun ic => g (fst ic) (snd ic)) (combine (seq start (length y)) y)).
Proof.
  intros H Hg. revert start. induction H as [|a b x y Hab _ IH]; intros start.
  - constructor.
  - simpl. constructor; [now apply Hg | apply IH].
Qed.

Lemma same_shape_tmapi_r {A B C : Type} (f : list nat -> B -> C) n path
    (x : tensor A n) (y : tensor B n) :
  @same_shape A B n x y -> @same_shape A C n x (tmapi f n path y).
Proof.
  revert path x y. induction n as [|n IH]; intros path x y H; [exact I|].
  change (Forall2 (@same_shape A B n) x y) in H.
  change (Forall2 (@same_shape A C n) x
            (map (fun ic => tmapi f n (path ++ [fst ic]) (snd ic))
                 (combine (seq 0 (length y)) y))).
  apply (same_shape_map_r n (fun i c => tmapi f n (path ++ [i]) c) x y 0 H).
  intros i a b Hab. now apply IH.
Qed.

Lemma same_shape_tmap_r {A B C : Type} (f : B -> C) n (x : tensor A n) (y : tensor B n) :
  @same_shape A B n x y -> @same_shape A C n x (tmap f n y).
Proof.
  revert x y. induction n as [|n IH]; intros x y H; [exact I|].
  change (Forall2 (@same_shape A B n) x y) in H.
  change (Forall2 (@same_shape A C n) x (map (tmap f n) y)).
  induction H as [|a b x y Hab _ IHl]; simpl; constructor; auto.
Qed.

Lemma same_shape_Dropout n (d : nn.Dropout.t) {A : Type} (x : tensor A n) (y : tensor R n) :
  @same_shape A R n x y -> @same_shape A R n x (nn.Dropout.forward n d y).
Proof.
  intros H. unfold nn.Dropout.forward.
  destruct (negb (nn.Dropout.training d)); [assumption|].
  destruct (Req_dec_T (nn.Dropout.p d) 0); [assumption|].
  destruct (Req_dec_T (nn.Dropout.p d) 1).
  - now apply same_shape_tmap_r.
  - now apply same_shape_tmapi_r.
Qed.

(** C3.  For every input [x] and sublayer [f], [SublayerConnection.forward]
    returns [x + dropout (f (LayerNorm x))]: the norm is applied before the
    sublayer and the original [x] is the residual addend.  When [f] keeps
    the shape the sum is entry by entry. *)
Theorem SublayerConnection_forward_spec :
  (forall (St : Type) n (self : SublayerConnection.t) (x : tensor R (S n))
          (f : tensor R (S n) -> St -> result (tensor R (S n) * St)) (st : St),
      SublayerConnection.forward n self x f st
      = (normed <- LayerNorm.forward n (SublayerConnection.norm self) x ;;
         '(y, st') <- f normed st ;;
         out <- broadcast2 Rplus (S n) x
                  (nn.Dropout.forward (S n) (SublayerConnection.dropout self) y) ;;
         Ok (out, st')))
  /\ (forall (St : Type) n (self : SublayerConnection.t) (x : tensor R (S n))
             (f : tensor R (S n) -> St -> result (tensor R (S n) * St)) (st st' : St)
             (normed y : tensor R (S n)),
         LayerNorm.forward n (SublayerConnection.norm self) x = Ok normed ->
         f normed st = Ok (y, st') ->
         @same_shape R R (S n) x y ->
         SublayerConnection.forward n self x f st
         = Ok (tzip Rplus (S n) x
                 (nn.Dropout.forward (S n) (SublayerConnection.dropout self) y), st')).
Proof.
  split.
  - reflexivity.
  - intros St n self x f st st' normed y Hn Hf Hs.
    unfold SublayerConnection.forward. rewrite Hn. cbn [bind]. rewrite Hf. cbn [bind].
    rewrite (broadcast2_same Rplus (S n) x _ (same_shape_Dropout (S n) _ x y Hs)).
    reflexivity.
Qed.

Lemma SublayerConnection_forward_spec_witness :
  SublayerConnection.forward 0
    (SublayerConnection.mk (LayerNorm.mk [1; 1] [0; 0] 1e-6)
                           (nn.Dropout.mk (1/10) false (fun _ => true)))
    [3; 5] (fun t (st : unit) => Ok (t, st)) tt
  = Ok (tzip Rplus 1 [3; 5]
          (nn.Dropout.forward 1 (nn.Dropout.mk (1/10) false (fun _ => true))
             (layer_norm_row [1; 1] [0; 0] 1e-6 [3; 5])), tt).
Proof.
  apply (proj2 SublayerConnection_forward_spec unit 0%nat
           (SublayerConnection.mk (LayerNorm.mk [1; 1] [0; 0] 1e-6)
                                  (nn.Dropout.mk (1/10) false (fun _ => true)))
           [3; 5]
           (fun t (st : unit) => Ok (t, st)) tt tt
           (layer_norm_row [1; 1] [0; 0] 1e-6 [3; 5])
           (layer_norm_row [1; 1] [0; 0] 1e-6 [3; 5])).
  - apply (LayerNorm_forward_rows 0); [reflexivity | repeat constructor].
  - reflexivity.
  - repeat constructor.
Defined.

(** ** The decoder *)

Tactic Notation "step_bind" "as" simple_intropattern(p) :=
  match goal with
  | |- context [bind ?m _] => destruct m as [p|?]; cbn [bind]; [|reflexivity]
  end.

Lemma getitem_0 {A : Type} (a : A) (l : list A) : getitem (a :: l) 0 = Ok a.
Proof. reflexivity. Qed.

Lemma getitem_1 {A : Type} (a b : A) (l : list A) : getitem (a :: b :: l) 1 = Ok b.
Proof. reflexivity. Qed.

Lemma getitem_2 {A : Type} (a b c : A) (l : list A) : getitem (a :: b :: c :: l) 2 = Ok c.
Proof. reflexivity. Qed.

Lemma DecoderLayer_forward_unfold (self : DecoderLayer.t) (x memory : tensor R 3)
    (src_mask tgt_mask : option (tensor bool 3)) (s0 s1 s2 : SublayerConnection.t) :
  DecoderLayer.sublayer self = [s0; s1; s2] ->
  DecoderLayer.forward self x memory src_mask tgt_mask
  = (n0 <- LayerNorm.forward 2 (SublayerConnection.norm s0) x ;;
     '(a0, sa) <- MultiHeadedAttention.forward (DecoderLayer.self_attn self)
                    n0 n0 n0 tgt_mask ;;
     x1 <- broadcast2 Rplus 3 x
             (nn.Dropout.forward 3 (SublayerConnection.dropout s0) a0) ;;
     n1 <- LayerNorm.forward 2 (SublayerConnection.norm s1) x1 ;;
     '(a1, ca) <- MultiHeadedAttention.forward (DecoderLayer.src_attn self)
                    n1 memory memory src_mask ;;
     x2 <- broadcast2 Rplus 3 x1
             (nn.Dropout.forward 3 (SublayerConnection.dropout s1) a1) ;;
     n2 <- LayerNorm.forward 2 (SublayerConnection.norm s2) x2 ;;
     ff <- PositionwiseFeedForward.forward 2 (DecoderLayer.feed_forward self) n2 ;;
     x3 <- broadcast2 Rplus 3 x2
             (nn.Dropout.forward 3 (SublayerConnection.dropout s2) ff) ;;
     Ok (x3, DecoderLayer.set_src_attn (DecoderLayer.set_self_attn self sa) ca)).
Proof.
  intros Hsub. unfold DecoderLayer.forward, SublayerConnection.forward.
  rewrite Hsub, getitem_0. cbn [bind].
  step_bind as n0. step_bind as [a0 sa]. step_bind as x1.
  cbn [DecoderLayer.set_self_attn DecoderLayer.sublayer DecoderLayer.src_attn
       DecoderLayer.feed_forward].
  rewrite Hsub, getitem_1. cbn [bind].
  step_bind as n1. step_bind as [a1 ca]. step_bind as x2.
  cbn [DecoderLayer.set_src_attn DecoderLayer.set_self_attn DecoderLayer.sublayer
       DecoderLayer.src_attn DecoderLayer.feed_forward DecoderLayer.self_attn
       DecoderLayer.size].
  rewrite Hsub, getitem_2. cbn [bind].
  step_bind as n2. step_bind as ff. step_bind as x3. reflexivity.
Qed.

Lemma Decoder_forward_layers_app (ls1 ls2 : list DecoderLayer.t) (x memory : tensor R 3)
    (src_mask tgt_mask : option (tensor bool 3)) :
  Decoder.forward_layers (ls1 ++ ls2) x memory src_mask tgt_mask
  = ('(x1, ls1') <- Decoder.forward_layers ls1 x memory src_mask tgt_mask ;;
     '(x2, ls2') <- Decoder.forward_layers ls2 x1 memory src_mask tgt_mask ;;
     Ok (x2, ls1' ++ ls2')).
Proof.
  revert x. induction ls1 as [|l ls1 IH]; intros x.
  - cbn [app Decoder.forward_layers bind].
    destruct (Decoder.forward_layers ls2 x memory src_mask tgt_mask) as [[x2 ls2']|e];
      reflexivity.
  - cbn [app Decoder.forward_layers].
    destruct (DecoderLayer.forward l x memory src_mask tgt_mask) as [[x1 l']|e];
      cbn [bind]; [|reflexivity].
    rewrite IH.
    destruct (Decoder.forward_layers ls1 x1 memory src_mask tgt_mask) as [[x2 ls1']|e];
      cbn [bind]; [|reflexivity].
    destruct (Decoder.forward_layers ls2 x2 memory src_mask tgt_mask) as [[x3 ls2']|e];
      reflexivity.
Qed.

(** C5.  [DecoderLayer.forward] runs its three sublayer connections in
    order: self-attention on the normed running input with [tgt_mask];
    attention with the normed current representation as query and the memory
    as key and value, with [src_mask]; the feed-forward network.
    [Decoder.forward] runs the layers one after the other, each on the
    output of the previous one and the same memory, and applies the final
    norm once to the output of the last. *)
Theorem Decoder_forward_order :
  (forall (self : DecoderLayer.t) (x memory : tensor R 3)
          (src_mask tgt_mask : option (tensor bool 3)) (s0 s1 s2 : SublayerConnection.t),
      DecoderLayer.sublayer self = [s0; s1; s2] ->
      DecoderLayer.forward self x memory src_mask tgt_mask
      = (n0 <- LayerNorm.forward 2 (SublayerConnection.norm s0) x ;;
         '(a0, sa) <- MultiHeadedAttention.forward (DecoderLayer.self_attn self)
                        n0 n0 n0 tgt_mask ;;
         x1 <- broadcast2 Rplus 3 x
                 (nn.Dropout.forward 3 (SublayerConnection.dropout s0) a0) ;;
         n1 <- LayerNorm.forward 2 (SublayerConnection.norm s1) x1 ;;
         '(a1, ca) <- MultiHeadedAttention.forward (DecoderLayer.src_attn self)
                        n1 memory memory src_mask ;;
         x2 <- broadcast2 Rplus 3 x1
                 (nn.Dropout.forward 3 (SublayerConnection.dropout s1) a1) ;;
         n2 <- LayerNorm.forward 2 (SublayerConnection.norm s2) x2 ;;
         ff <- PositionwiseFeedForward.forward 2 (DecoderLayer.feed_forward self) n2 ;;
         x3 <- broadcast2 Rplus 3 x2
                 (nn.Dropout.forward 3 (SublayerConnection.dropout s2) ff) ;;
         Ok (x3, DecoderLayer.set_src_attn (DecoderLayer.set_self_attn self sa) ca)))
  /\ (forall size self_attn src_attn feed_forward dropout keep self,
         DecoderLayer.__init__ size self_attn src_attn feed_forward dropout keep = Ok self ->
         exists s, DecoderLayer.sublayer self = [s; s; s]
                   /\ DecoderLayer.self_attn self = self_attn
                   /\ DecoderLayer.src_attn self = src_attn
                   /\ DecoderLayer.feed_forward self = feed_forward)
  /\ (forall layer N self,
         Decoder.__init__ layer N = Ok self ->
         Decoder.layers self = repeat layer (Z.to_nat N))
  /\ (forall (self : Decoder.t) (x memory : tensor R 3)
             (src_mask tgt_mask : option (tensor bool 3)),
         Decoder.forward self x memory src_mask tgt_mask
         = ('(y, layers) <- Decoder.forward_layers (Decoder.layers self) x memory
                              src_mask tgt_mask ;;
            out <- LayerNorm.forward 2 (Decoder.norm self) y ;;
            Ok (out, Decoder.mk layers (Decoder.norm self))))
  /\ (forall (x memory : tensor R 3) (src_mask tgt_mask : option (tensor bool 3)),
         Decoder.forward_layers [] x memory src_mask tgt_mask = Ok (x, []))
  /\ (forall (layer : DecoderLayer.t) (x memory : tensor R 3)
             (src_mask tgt_mask : option (tensor bool 3)),
         Decoder.forward_layers [layer] x memory src_mask tgt_mask
         = ('(x1, layer') <- DecoderLayer.forward layer x memory src_mask tgt_mask ;;
            Ok (x1, [layer'])))
  /\ (forall (ls1 ls2 : list DecoderLayer.t) (x memory : tensor R 3)
             (src_mask tgt_mask : option (tensor bool 3)),
         Decoder.forward_layers (ls1 ++ ls2) x memory src_mask tgt_mask
         = ('(x1, ls1') <- Decoder.forward_layers ls1 x memory src_mask tgt_mask ;;
            '(x2, ls2') <- Decoder.forward_layers ls2 x1 memory src_mask tgt_mask ;;
            Ok (x2, ls1' ++ ls2'))).
Proof.
  split; [|split; [|split; [|split; [|split; [|split]]]]].
  - intros. now apply DecoderLayer_forward_unfold.
  - intros size sa ca ff p keep self H. unfold DecoderLayer.__init__ in H.
    bind_inv H as s Hs. apply Ok_inj in H. subst self. exists s. repeat split.
  - intros layer N self H. unfold Decoder.__init__ in H.
    bind_inv H as norm Hnorm. apply Ok_inj in H. now subst self.
  - reflexivity.
  - reflexivity.
  - intros layer x memory src_mask tgt_mask. cbn [Decoder.forward_layers].
    destruct (DecoderLayer.forward layer x memory src_mask tgt_mask) as [[x1 l']|e];
      reflexivity.
  - intros. apply Decoder_forward_layers_app.
Qed.

Lemma Decoder_forward_order_witness :
  let drop := nn.Dropout.mk 0 false (fun _ => true) in
  let lin := nn.Linear.mk 1 1 [[1]] [0] in
  let mha := MultiHeadedAttention.mk 1 1 [lin; lin; lin; lin] None drop in
  let ffn := PositionwiseFeedForward.mk lin lin drop in
  let s := SublayerConnection.mk (LayerNorm.mk [1] [0] 1e-6) drop in
  let self := DecoderLayer.mk 1 mha mha ffn [s; s; s] in
  DecoderLayer.forward self [[[1]]] [[[1]]] None None
  = (n0 <- LayerNorm.forward 2 (SublayerConnection.norm s) [[[1]]] ;;
     '(a0, sa) <- MultiHeadedAttention.forward mha n0 n0 n0 None ;;
     x1 <- broadcast2 Rplus 3 [[[1]]] (nn.Dropout.forward 3 drop a0) ;;
     n1 <- LayerNorm.forward 2 (SublayerConnection.norm s) x1 ;;
     '(a1, ca) <- MultiHeadedAttention.forward mha n1 [[[1]]] [[[1]]] None ;;
     x2 <- broadcast2 Rplus 3 x1 (nn.Dropout.forward 3 drop a1) ;;
     n2 <- LayerNorm.forward 2 (SublayerConnection.norm s) x2 ;;
     ff <- PositionwiseFeedForward.forward 2 ffn n2 ;;
     x3 <- broadcast2 Rplus 3 x2 (nn.Dropout.forward 3 drop ff) ;;
     Ok (x3, DecoderLayer.set_src_attn (DecoderLayer.set_self_attn self sa) ca)).
Proof.
  intros drop lin mha ffn s self.
  apply (proj1 Decoder_forward_order self [[[1]]] [[[1]]] None None s s s).
  reflexivity.
Defined.

(** ** Construction of multi-head attention *)

Lemma Dropout_init_valid (p : R) (keep : list nat -> bool) :
  0 <= p <= 1 ->
  nn.Dropout.__init__ p keep = Ok (nn.Dropout.mk p true keep).
Proof.
  intros [H0 H1]. unfold nn.Dropout.__init__.
  destruct (Rlt_dec p 0); [lra|]. destruct (Rlt_dec 1 p); [lra|]. reflexivity.
Qed.

(** C7.  Constructing [MultiHeadedAttention] with [d_model] not divisible by
    [h] raises (the assertion fails, or the modulus by zero does), so that no
    module exists to call; with [d_model mod h = 0], a non-negative [d_model]
    and a dropout rate in [[0, 1]] the construction succeeds with
    [d_k = d_model / h]. *)
Theorem MultiHeadedAttention_init_spec :
  (forall h d_model dropout w0 b0 keep,
      h <> 0%Z -> (d_model mod h)%Z <> 0%Z ->
      MultiHeadedAttention.__init__ h d_model dropout w0 b0 keep = Err AssertionError)
  /\ (forall d_model dropout w0 b0 keep,
         MultiHeadedAttention.__init__ 0 d_model dropout w0 b0 keep = Err ZeroDivisionError)
  /\ (forall h d_model dropout w0 b0 keep,
         h <> 0%Z -> (d_model mod h)%Z = 0%Z -> (0 <= d_model)%Z ->
         0 <= match dropout with Some p => p | None => 0.1 end <= 1 ->
         exists self,
           MultiHeadedAttention.__init__ h d_model dropout w0 b0 keep = Ok self
           /\ MultiHeadedAttention.d_k self = (d_model / h)%Z
           /\ (MultiHeadedAttention.h self * MultiHeadedAttention.d_k self = d_model)%Z
           /\ MultiHeadedAttention.h self = h
           /\ MultiHeadedAttention.attn self = None
           /\ length (MultiHeadedAttention.linears self) = 4%nat).
Proof.
  split; [|split].
  - intros h d_model dropout w0 b0 keep Hh Hmod.
    unfold MultiHeadedAttention.__init__, py_mod.
    destruct (Z.eqb_spec h 0) as [|_]; [contradiction|]. cbn [bind].
    destruct (Z.eqb_spec (d_model mod h) 0) as [|_]; [contradiction|]. reflexivity.
  - reflexivity.
  - intros h d_model dropout w0 b0 keep Hh Hmod Hd Hp.
    unfold MultiHeadedAttention.__init__, py_mod, py_floordiv, nn.Linear.__init__.
    destruct (Z.eqb_spec h 0) as [|_]; [contradiction|]. cbn [bind].
    rewrite Hmod. cbn [Z.eqb py_assert bind].
    destruct (Z.ltb_spec d_model 0) as [|_]; [lia|]. cbn [orb bind].
    rewrite (Dropout_init_valid _ keep Hp). cbn [bind].
    eexists. split; [reflexivity|].
    cbn [MultiHeadedAttention.d_k MultiHeadedAttention.h MultiHeadedAttention.attn
         MultiHeadedAttention.linears].
    split; [reflexivity|]. split; [|repeat split].
    pose proof (Z.div_mod d_model h Hh) as Hdm. rewrite Hmod in Hdm. lia.
Qed.

Lemma MultiHeadedAttention_init_spec_witness :
  MultiHeadedAttention.__init__ 8 511 None (fun _ _ => 0) (fun _ => 0) (fun _ => true)
  = Err AssertionError
  /\ exists self,
       MultiHeadedAttention.__init__ 8 512 None (fun _ _ => 0) (fun _ => 0) (fun _ => true)
       = Ok self
       /\ MultiHeadedAttention.d_k self = 64%Z.
Proof.
  split.
  - apply (proj1 MultiHeadedAttention_init_spec); [discriminate | discriminate].
  - destruct (proj2 (proj2 MultiHeadedAttention_init_spec) 8%Z 512%Z None
                (fun _ _ => 0) (fun _ => 0) (fun _ => true))
      as [self [H [Hdk _]]]; try reflexivity; try discriminate; try lra.
    exists self. split; [exact H|]. rewrite Hdk. reflexivity.
Defined.

(** ** Parameters are not written by a forward pass

    First on the records, where a forward pass returns the module with its
    cache; then on the heap of attributes, where every assignment of a
    method is a write. *)

Lemma SublayerConnection_forward_inv {St : Type} {n self x}
    {f : tensor R (S n) -> St -> result (tensor R (S n) * St)} {st out st'} :
  SublayerConnection.forward n self x f st = Ok (out, st') ->
  exists normed y, f normed st = Ok (y, st').
Proof.
  unfold SublayerConnection.forward. intros H.
  bind_inv H as normed Hn. bind_inv H as [y st1] Hf. bind_inv H as o Ho.
  apply Ok_inj in H. inversion H; subst. eauto.
Qed.

Lemma MultiHeadedAttention_forward_frame {self q k v mask y self'} :
  MultiHeadedAttention.forward self q k v mask = Ok (y, self') ->
  MultiHeadedAttention.parameters self' = MultiHeadedAttention.parameters self.
Proof.
  intros H. destruct (MultiHeadedAttention_forward_attn H)
    as [q' [k' [v' [out [w [_ ->]]]]]].
  reflexivity.
Qed.

Lemma EncoderLayer_forward_frame {self x mask y self'} :
  EncoderLayer.forward self x mask = Ok (y, self') ->
  EncoderLayer.parameters self' = EncoderLayer.parameters self.
Proof.
  unfold EncoderLayer.forward. intros H.
  bind_inv H as s0 Hs0. bind_inv H as [x1 self1] H0. bind_inv H as s1 Hs1.
  destruct (SublayerConnection_forward_inv H0) as [n0 [y0 Hatt]].
  destruct (SublayerConnection_forward_inv H) as [n1 [y1 Hff]].
  bind_inv Hatt as [y0' att] Hmha. apply Ok_inj in Hatt. inversion Hatt; subst.
  bind_inv Hff as f Hf. apply Ok_inj in Hff. inversion Hff; subst.
  unfold EncoderLayer.parameters. cbn [EncoderLayer.set_self_attn
    EncoderLayer.self_attn EncoderLayer.feed_forward EncoderLayer.sublayer].
  now rewrite (MultiHeadedAttention_forward_frame Hmha).
Qed.

Lemma DecoderLayer_forward_frame {self x memory src_mask tgt_mask y self'} :
  DecoderLayer.forward self x memory src_mask tgt_mask = Ok (y, self') ->
  DecoderLayer.parameters self' = DecoderLayer.parameters self.
Proof.
  unfold DecoderLayer.forward. intros H.
  bind_inv H as s0 Hs0. bind_inv H as [x1 self1] H0.
  bind_inv H as s1 Hs1. bind_inv H as [x2 self2] H1.
  bind_inv H as s2 Hs2.
  destruct (SublayerConnection_forward_inv H0) as [n0 [y0 Hself]].
  destruct (SublayerConnection_forward_inv H1) as [n1 [y1 Hsrc]].
  destruct (SublayerConnection_forward_inv H) as [n2 [y2 Hff]].
  bind_inv Hself as [y0' sa] Hsa. apply Ok_inj in Hself. inversion Hself; subst.
  bind_inv Hsrc as [y1' ca] Hca. apply Ok_inj in Hsrc. inversion Hsrc; subst.
  bind_inv Hff as f Hf. apply Ok_inj in Hff. inversion Hff; subst.
  unfold DecoderLayer.parameters.
  cbn [DecoderLayer.set_self_attn DecoderLayer.set_src_attn DecoderLayer.self_attn
       DecoderLayer.src_attn DecoderLayer.feed_forward DecoderLayer.sublayer] in *.
  now rewrite (MultiHeadedAttention_forward_frame Hsa),
              (MultiHeadedAttention_forward_frame Hca).
Qed.

Lemma Encoder_forward_layers_frame (layers : list EncoderLayer.t) :
  forall x mask y layers',
    Encoder.forward_layers layers x mask = Ok (y, layers') ->
    flat_map EncoderLayer.parameters layers' = flat_map EncoderLayer.parameters layers.
Proof.
  induction layers as [|l layers IH]; intros x mask y layers' H.
  - apply Ok_inj in H. now inversion H.
  - cbn [Encoder.forward_layers] in H.
    bind_inv H as [x1 l'] Hl. bind_inv H as [x2 rest] Hrest.
    apply Ok_inj in H. inversion H; subst. cbn [flat_map].
    now rewrite (EncoderLayer_forward_frame Hl), (IH _ _ _ _ Hrest).
Qed.

Lemma Decoder_forward_layers_frame (layers : list DecoderLayer.t) :
  forall x memory src_mask tgt_mask y layers',
    Decoder.forward_layers layers x memory src_mask tgt_mask = Ok (y, layers') ->
    flat_map DecoderLayer.parameters layers' = flat_map DecoderLayer.parameters layers.
Proof.
  induction layers as [|l layers IH]; intros x memory src_mask tgt_mask y layers' H.
  - apply Ok_inj in H. now inversion H.
  - cbn [Decoder.forward_layers] in H.
    bind_inv H as [x1 l'] Hl. bind_inv H as [x2 rest] Hrest.
    apply Ok_inj in H. inversion H; subst. cbn [flat_map].
    now rewrite (DecoderLayer_forward_frame Hl), (IH _ _ _ _ _ _ Hrest).
Qed.

Lemma Encoder_forward_frame {self x mask y self'} :
  Encoder.forward self x mask = Ok (y, self') ->
  Encoder.parameters self' = Encoder.parameters self.
Proof.
  unfold Encoder.forward. intros H.
  bind_inv H as [x1 layers'] Hl. bind_inv H as out Hout.
  apply Ok_inj in H. inversion H; subst.
  unfold Encoder.parameters. cbn [Encoder.layers Encoder.norm].
  now rewrite (Encoder_forward_layers_frame _ _ _ _ _ Hl).
Qed.

Lemma Decoder_forward_frame {self x memory src_mask tgt_mask y self'} :
  Decoder.forward self x memory src_mask tgt_mask = Ok (y, self') ->
  Decoder.parameters self' = Decoder.parameters self.
Proof.
  unfold Decoder.forward. intros H.
  bind_inv H as [x1 layers'] Hl. bind_inv H as out Hout.
  apply Ok_inj in H. inversion H; subst.
  unfold Decoder.parameters. cbn [Decoder.layers Decoder.norm].
  now rewrite (Decoder_forward_layers_frame _ _ _ _ _ _ _ Hl).
Qed.

Lemma EncoderDecoder_encode_frame {self src src_mask memory self'} :
  EncoderDecoder.encode self src src_mask = Ok (memory, self') ->
  EncoderDecoder.parameters self' = EncoderDecoder.parameters self.
Proof.
  unfold EncoderDecoder.encode. intros H.
  bind_inv H as e He. bind_inv H as [m enc] Henc.
  apply Ok_inj in H. inversion H; subst.
  unfold EncoderDecoder.parameters.
  cbn [EncoderDecoder.set_encoder EncoderDecoder.encoder EncoderDecoder.decoder
       EncoderDecoder.src_embed EncoderDecoder.tgt_embed EncoderDecoder.generator].
  now rewrite (Encoder_forward_frame Henc).
Qed.

Lemma EncoderDecoder_decode_frame {self memory src_mask tgt tgt_mask out self'} :
  EncoderDecoder.decode self memory src_mask tgt tgt_mask = Ok (out, self') ->
  EncoderDecoder.parameters self' = EncoderDecoder.parameters self.
Proof.
  unfold EncoderDecoder.decode. intros H.
  bind_inv H as e He. bind_inv H as [o dec] Hdec.
  apply Ok_inj in H. inversion H; subst.
  unfold EncoderDecoder.parameters.
  cbn [EncoderDecoder.set_decoder EncoderDecoder.encoder EncoderDecoder.decoder
       EncoderDecoder.src_embed EncoderDecoder.tgt_embed EncoderDecoder.generator].
  now rewrite (Decoder_forward_frame Hdec).
Qed.

(** ** Forward passes on the heap write the cache [attn] only *)

Lemma unchanged_but_attn_refl (s : Heap.heap) : Heap.unchanged_but_attn s s.
Proof. intros o a _. reflexivity. Qed.

Lemma unchanged_but_attn_trans (s1 s2 s3 : Heap.heap) :
  Heap.unchanged_but_attn s1 s2 -> Heap.unchanged_but_attn s2 s3 ->
  Heap.unchanged_but_attn s1 s3.
Proof. intros H12 H23 o a Ha. now rewrite (H23 o a Ha), (H12 o a Ha). Qed.

Lemma preserves_ret {A : Type} (a : A) : Heap.preserves (Heap.ret a).
Proof. intros s. apply unchanged_but_attn_refl. Qed.

Lemma preserves_lift {A : Type} (m : result A) : Heap.preserves (Heap.lift m).
Proof. intros s. apply unchanged_but_attn_refl. Qed.

Lemma preserves_bind {A B : Type} (m : Heap.M A) (k : A -> Heap.M B) :
  Heap.preserves m -> (forall a, Heap.preserves (k a)) -> Heap.preserves (Heap.bindM m k).
Proof.
  intros Hm Hk s. unfold Heap.bindM. specialize (Hm s).
  destruct (m s) as [[a|e] s1]; cbn [snd] in *.
  - apply (unchanged_but_attn_trans s s1); [exact Hm | apply Hk].
  - exact Hm.
Qed.

Lemma preserves_getattr (o : nat) (a : String.string) : Heap.preserves (Heap.getattr o a).
Proof.
  intros s. unfold Heap.getattr.
  destruct (Heap.lookup s o a); apply unchanged_but_attn_refl.
Qed.

(** The one assignment of the forward passes. *)
Lemma preserves_setattr_attn (o : nat) (v : Heap.value) :
  Heap.preserves (Heap.setattr o "attn"%string v).
Proof.
  intros s o' a Ha. unfold Heap.setattr, Heap.lookup. cbn [find fst snd].
  destruct (String.eqb_spec "attn"%string a) as [E|_]; [now subst|].
  now rewrite andb_false_r.
Qed.

(** An assignment to a parameter is not preserving: the predicate tells
    the forward passes of the notebook from one that would write a weight. *)
Lemma parameter_write_not_preserved (o : nat) :
  ~ Heap.preserves (Heap.setattr o "weight"%string (Heap.VInt 1)).
Proof.
  intros H.
  specialize (H [(o, "weight"%string, Heap.VInt 0)] o "weight"%string).
  unfold Heap.setattr, Heap.lookup in H. cbn [find fst snd] in H.
  rewrite Nat.eqb_refl in H. cbn in H.
  assert (E : Some (Heap.VInt 1) = Some (Heap.VInt 0)) by (apply H; discriminate).
  discriminate.
Qed.

Ltac preserves_step :=
  lazymatch goal with
  | |- Heap.preserves (Heap.bindM _ _) => apply preserves_bind; [|intro]
  | |- Heap.preserves (Heap.ret _) => apply preserves_ret
  | |- Heap.preserves (Heap.lift _) => apply preserves_lift
  | |- Heap.preserves (Heap.getattr _ _) => apply preserves_getattr
  | |- Heap.preserves (Heap.setattr _ "attn"%string _) => apply preserves_setattr_attn
  | |- Heap.preserves (match ?x with _ => _ end) => destruct x
  end.

Ltac preserves_tac := repeat preserves_step.

Lemma preserves_get_bool o a : Heap.preserves (Heap.get_bool o a).
Proof. unfold Heap.get_bool. preserves_tac. Qed.

Lemma preserves_get_int o a : Heap.preserves (Heap.get_int o a).
Proof. unfold Heap.get_int. preserves_tac. Qed.

Lemma preserves_get_float o a : Heap.preserves (Heap.get_float o a).
Proof. unfold Heap.get_float. preserves_tac. Qed.

Lemma preserves_get_tensor n o a : Heap.preserves (Heap.get_tensor n o a).
Proof. unfold Heap.get_tensor. preserves_tac. Qed.

Lemma preserves_get_module o a : Heap.preserves (Heap.get_module o a).
Proof. unfold Heap.get_module. preserves_tac. Qed.

Lemma preserves_get_modules o a : Heap.preserves (Heap.get_modules o a).
Proof. unfold Heap.get_modules. preserves_tac. Qed.

Lemma preserves_for_each {A B : Type} (f : A -> Heap.M B) (l : list A) :
  (forall x, Heap.preserves (f x)) -> Heap.preserves (Heap.for_each f l).
Proof.
  intros Hf. induction l as [|x l IH]; cbn [Heap.for_each].
  - apply preserves_ret.
  - apply preserves_bind; [apply Hf | intro].
    apply preserves_bind; [exact IH | intro]. apply preserves_ret.
Qed.

Lemma preserves_for_layers {A : Type} (f : nat -> A -> Heap.M A) (layers : list nat) :
  (forall layer x, Heap.preserves (f layer x)) ->
  forall x, Heap.preserves (Heap.for_layers f layers x).
Proof.
  intros Hf. induction layers as [|layer rest IH]; intros x; cbn [Heap.for_layers].
  - apply preserves_ret.
  - apply preserves_bind; [apply Hf | intro]. apply IH.
Qed.

Create HintDb preserves.
#[local] Hint Resolve preserves_get_bool preserves_get_int preserves_get_float
  preserves_get_tensor preserves_get_module preserves_get_modules : preserves.

Ltac preserves_auto :=
  repeat first [ preserves_step | solve [auto with preserves] ].

Lemma preserves_Linear_forward n self x : Heap.preserves (Heap.Linear_forward n self x).
Proof. unfold Heap.Linear_forward. preserves_auto. Qed.

Lemma preserves_Dropout_forward rng n self x :
  Heap.preserves (Heap.Dropout_forward rng n self x).
Proof. unfold Heap.Dropout_forward. preserves_auto. Qed.

Lemma preserves_Embedding_forward n self x :
  Heap.preserves (Heap.Embedding_forward n self x).
Proof. unfold Heap.Embedding_forward. preserves_auto. Qed.

Lemma preserves_LayerNorm_forward n self x :
  Heap.preserves (Heap.LayerNorm_forward n self x).
Proof. unfold Heap.LayerNorm_forward. preserves_auto. Qed.

#[local] Hint Resolve preserves_Linear_forward preserves_Dropout_forward
  preserves_Embedding_forward preserves_LayerNorm_forward : preserves.

Lemma preserves_attention rng n q k v mask dropout :
  Heap.preserves (Heap.attention rng n q k v mask dropout).
Proof. unfold Heap.attention. preserves_auto. Qed.

#[local] Hint Resolve preserves_attention : preserves.

Lemma preserves_SublayerConnection_forward rng n self x sublayer :
  (forall y, Heap.preserves (sublayer y)) ->
  Heap.preserves (Heap.SublayerConnection_forward rng n self x sublayer).
Proof. intros Hs. unfold Heap.SublayerConnection_forward. preserves_auto. Qed.

Lemma preserves_MultiHeadedAttention_forward rng self q k v mask :
  Heap.preserves (Heap.MultiHeadedAttention_forward rng self q k v mask).
Proof.
  unfold Heap.MultiHeadedAttention_forward.
  apply preserves_bind; [auto with preserves | intro linears].
  apply preserves_bind.
  - apply preserves_for_each. intros lx. preserves_auto.
  - intros projected. preserves_auto.
Qed.

Lemma preserves_PositionwiseFeedForward_forward rng n self x :
  Heap.preserves (Heap.PositionwiseFeedForward_forward rng n self x).
Proof. unfold Heap.PositionwiseFeedForward_forward. preserves_auto. Qed.

#[local] Hint Resolve preserves_MultiHeadedAttention_forward
  preserves_PositionwiseFeedForward_forward : preserves.

Lemma preserves_EncoderLayer_forward rng self x mask :
  Heap.preserves (Heap.EncoderLayer_forward rng self x mask).
Proof.
  unfold Heap.EncoderLayer_forward.
  repeat first [ preserves_step
               | apply preserves_SublayerConnection_forward; intro
               | solve [auto with preserves] ].
Qed.

Lemma preserves_DecoderLayer_forward rng self x memory src_mask tgt_mask :
  Heap.preserves (Heap.DecoderLayer_forward rng self x memory src_mask tgt_mask).
Proof.
  unfold Heap.DecoderLayer_forward. cbv zeta.
  repeat first [ preserves_step
               | apply preserves_SublayerConnection_forward; intro
               | solve [auto with preserves] ].
Qed.

#[local] Hint Resolve preserves_EncoderLayer_forward preserves_DecoderLayer_forward
  : preserves.

Lemma preserves_Encoder_forward rng self x mask :
  Heap.preserves (Heap.Encoder_forward rng self x mask).
Proof.
  unfold Heap.Encoder_forward.
  repeat first [ preserves_step
               | apply preserves_for_layers; intros
               | solve [auto with preserves] ].
Qed.

Lemma preserves_Decoder_forward rng self x memory src_mask tgt_mask :
  Heap.preserves (Heap.Decoder_forward rng self x memory src_mask tgt_mask).
Proof.
  unfold Heap.Decoder_forward.
  repeat first [ preserves_step
               | apply preserves_for_layers; intros
               | solve [auto with preserves] ].
Qed.

Lemma preserves_Embeddings_forward self x : Heap.preserves (Heap.Embeddings_forward self x).
Proof. unfold Heap.Embeddings_forward. preserves_auto. Qed.

Lemma preserves_PositionalEncoding_forward rng self x :
  Heap.preserves (Heap.PositionalEncoding_forward rng self x).
Proof. unfold Heap.PositionalEncoding_forward. preserves_auto. Qed.

#[local] Hint Resolve preserves_Encoder_forward preserves_Decoder_forward
  preserves_Embeddings_forward preserves_PositionalEncoding_forward : preserves.

Lemma preserves_Sequential_forward rng self x :
  Heap.preserves (Heap.Sequential_forward rng self x).
Proof. unfold Heap.Sequential_forward. preserves_auto. Qed.

Lemma preserves_Generator_forward n self x :
  Heap.preserves (Heap.Generator_forward n self x).
Proof. unfold Heap.Generator_forward. preserves_auto. Qed.

#[local] Hint Resolve preserves_Sequential_forward : preserves.

Lemma preserves_EncoderDecoder_encode rng self src src_mask :
  Heap.preserves (Heap.EncoderDecoder_encode rng self src src_mask).
Proof. unfold Heap.EncoderDecoder_encode. preserves_auto. Qed.

Lemma preserves_EncoderDecoder_decode rng self memory src_mask tgt tgt_mask :
  Heap.preserves (Heap.EncoderDecoder_decode rng self memory src_mask tgt tgt_mask).
Proof. unfold Heap.EncoderDecoder_decode. preserves_auto. Qed.

#[local] Hint Resolve preserves_EncoderDecoder_encode preserves_EncoderDecoder_decode
  : preserves.

Lemma preserves_EncoderDecoder_forward rng self src tgt src_mask tgt_mask :
  Heap.preserves (Heap.EncoderDecoder_forward rng self src tgt src_mask tgt_mask).
Proof. unfold Heap.EncoderDecoder_forward. preserves_auto. Qed.

(** On a heap that holds the record [l] at [self], the method computes what
    the function on records computes, and returns the heap as it was. *)
Lemma Heap_LayerNorm_forward_agrees n (self : nat) (l : LayerNorm.t) (x : tensor R (S n))
    (s : Heap.heap) :
  Heap.LayerNorm_forward n self x (Heap.store_LayerNorm self l s)
  = (LayerNorm.forward n l x, Heap.store_LayerNorm self l s).
Proof.
  destruct l as [a b e].
  unfold Heap.LayerNorm_forward, Heap.store_LayerNorm, Heap.get_tensor, Heap.get_float,
    Heap.getattr, Heap.bindM, Heap.lookup.
  cbn [find fst snd]. repeat (rewrite Nat.eqb_refl; cbn). reflexivity.
Qed.

Lemma Heap_Linear_forward_agrees n (self : nat) (l : nn.Linear.t) (x : tensor R (S n))
    (s : Heap.heap) :
  Heap.Linear_forward n self x (Heap.store_Linear self l s)
  = (nn.Linear.forward n l x, Heap.store_Linear self l s).
Proof.
  destruct l as [i o w b].
  unfold Heap.Linear_forward, Heap.store_Linear, Heap.get_tensor, Heap.get_int,
    Heap.getattr, Heap.bindM, Heap.lookup.
  cbn [find fst snd]. repeat (rewrite Nat.eqb_refl; cbn). rewrite !Nat2Z.id.
  reflexivity.
Qed.

Lemma Heap_attention_agrees rng n (q k v : tensor R (S (S n)))
    (mask : option (tensor bool (S (S n)))) (s : Heap.heap) :
  Heap.attention rng n q k v mask None s = (attention n q k v mask None, s).
Proof.
  unfold Heap.attention, attention, Heap.bindM, Heap.lift, Heap.ret.
  destruct (matmul n q (tmap_mats (@transpose R) n k)) as [raw|e]; [|reflexivity].
  cbn [bind]. destruct mask as [m|].
  - destruct (masked_fill (S (S n)) _ (tmap negb (S (S n)) m) (-1e9)) as [sc|e];
      [|reflexivity].
    cbn [bind]. destruct (matmul n (softmax (S n) sc) v); reflexivity.
  - cbn [bind]. destruct (matmul n (softmax (S n) _) v); reflexivity.
Qed.

(** C8.  On the heap of module attributes, every forward-pass operation
    ([LayerNorm], [attention], [MultiHeadedAttention],
    [PositionwiseFeedForward], [Encoder], [Decoder], [EncoderDecoder] with
    [encode] and [decode], [Generator]), whether it returns or raises,
    leaves every attribute other than the cache [attn] with the value it
    had; in particular the weights, the biases, the gains and shifts of the
    layer normalisations and the embedding tables. *)
Theorem forward_preserves_parameters :
  forall (rng : nat -> list nat -> bool) (s : Heap.heap),
    ((forall n self x,
         Heap.unchanged_but_attn s (snd (Heap.LayerNorm_forward n self x s)))
     /\ (forall n q k v mask dropout,
            Heap.unchanged_but_attn s (snd (Heap.attention rng n q k v mask dropout s)))
     /\ (forall self q k v mask,
            Heap.unchanged_but_attn
              s (snd (Heap.MultiHeadedAttention_forward rng self q k v mask s)))
     /\ (forall n self x,
            Heap.unchanged_but_attn
              s (snd (Heap.PositionwiseFeedForward_forward rng n self x s)))
     /\ (forall self x mask,
            Heap.unchanged_but_attn s (snd (Heap.Encoder_forward rng self x mask s)))
     /\ (forall self x memory src_mask tgt_mask,
            Heap.unchanged_but_attn
              s (snd (Heap.Decoder_forward rng self x memory src_mask tgt_mask s)))
     /\ (forall self src src_mask,
            Heap.unchanged_but_attn
              s (snd (Heap.EncoderDecoder_encode rng self src src_mask s)))
     /\ (forall self memory src_mask tgt tgt_mask,
            Heap.unchanged_but_attn
              s (snd (Heap.EncoderDecoder_decode rng self memory src_mask tgt tgt_mask s)))
     /\ (forall self src tgt src_mask tgt_mask,
            Heap.unchanged_but_attn
              s (snd (Heap.EncoderDecoder_forward rng self src tgt src_mask tgt_mask s)))
     /\ (forall n self x,
            Heap.unchanged_but_attn s (snd (Heap.Generator_forward n self x s))))
    /\ (forall s' : Heap.heap,
          Heap.unchanged_but_attn s s' ->
          forall o : nat,
            Heap.lookup s' o "weight"%string = Heap.lookup s o "weight"%string
            /\ Heap.lookup s' o "bias"%string = Heap.lookup s o "bias"%string
            /\ Heap.lookup s' o "a_2"%string = Heap.lookup s o "a_2"%string
            /\ Heap.lookup s' o "b_2"%string = Heap.lookup s o "b_2"%string).
Proof.
  intros rng s. split.
  - split; [|split; [|split; [|split; [|split; [|split; [|split; [|split; [|split]]]]]]]];
      intros.
    + apply preserves_LayerNorm_forward.
    + apply preserves_attention.
    + apply preserves_MultiHeadedAttention_forward.
    + apply preserves_PositionwiseFeedForward_forward.
    + apply preserves_Encoder_forward.
    + apply preserves_Decoder_forward.
    + apply preserves_EncoderDecoder_encode.
    + apply preserves_EncoderDecoder_decode.
    + apply preserves_EncoderDecoder_forward.
    + apply preserves_Generator_forward.
  - intros s' H o. repeat split; apply H; discriminate.
Qed.

Lemma forward_preserves_parameters_witness :
  exists y s',
    Heap.MultiHeadedAttention_forward (fun _ _ => true) 0 [[[1]]] [[[1]]] [[[1]]] None
      ((0%nat, "h"%string, Heap.VInt 1) :: (0%nat, "d_k"%string, Heap.VInt 1)
       :: (0%nat, "linears"%string, Heap.VModuleList [1; 2; 3; 4]%nat)
       :: (0%nat, "attn"%string, Heap.VNone)
       :: (0%nat, "dropout"%string, Heap.VModule 5)
       :: Heap.store_Linear 1 (nn.Linear.mk 1 1 [[1]] [0])
            (Heap.store_Linear 2 (nn.Linear.mk 1 1 [[1]] [0])
               (Heap.store_Linear 3 (nn.Linear.mk 1 1 [[1]] [0])
                  (Heap.store_Linear 4 (nn.Linear.mk 1 1 [[1]] [0])
                     (Heap.store_Dropout 5 (nn.Dropout.mk (1/10) false (fun _ => true))
                        [])))))
    = (Ok y, s')
    /\ Heap.lookup s' 1 "weight"%string = Some (Heap.VTensor 2 [[1]])
    /\ Heap.lookup s' 0 "attn"%string <> Some Heap.VNone.
Proof.
  set (s := (0%nat, "h"%string, Heap.VInt 1) :: _).
  destruct (Heap.MultiHeadedAttention_forward (fun _ _ => true) 0 [[[1]]] [[[1]]] [[[1]]]
              None s) as [[y|e] s'] eqn:E.
  - exists y, s'. split; [reflexivity|].
    destruct (forward_preserves_parameters (fun _ _ => true) s) as [Hops Hpar].
    destruct Hops as [_ [_ [Hmha _]]].
    specialize (Hmha 0%nat [[[1]]] [[[1]]] [[[1]]] None). rewrite E in Hmha.
    destruct (Hpar s' Hmha 1%nat) as [Hw _].
    split; [rewrite Hw; reflexivity|].
    cbn in E. inversion E; subst. cbn. discriminate.
  - cbn in E. discriminate.
Defined.

(** ** Positional encoding *)

Lemma bzip_single_r {A B C : Type} (f : A -> B -> result C) (xs : list A) (y : B) :
  bzip f xs [y] = mapM (fun x => f x y) xs.
Proof.
  destruct xs as [|x [|x' xs]]; try reflexivity.
Qed.

Lemma bzip_mismatch {A B C : Type} (f : A -> B -> result C) (xs : list A) (ys : list B) :
  length xs <> length ys -> length xs <> 1%nat -> length ys <> 1%nat ->
  bzip f xs ys = Err RuntimeError.
Proof.
  intros Hne Hx Hy. unfold bzip.
  destruct (Nat.eqb_spec (length xs) (length ys)) as [E|_]; [contradiction|].
  destruct xs as [|x [|x' xs]]; destruct ys as [|y [|y' ys]];
    try reflexivity; simpl in *; congruence.
Qed.

Lemma In_firstn {A : Type} (n : nat) (l : list A) (x : A) :
  In x (firstn n l) -> In x l.
Proof.
  revert l. induction n as [|n IH]; intros [|a l]; simpl; try contradiction.
  intros [<-|H]; [now left | right; now apply IH].
Qed.

Lemma same_shape_rows {A B : Type} (d : nat) (a : list (list A)) (b : list (list B)) :
  length a = length b ->
  Forall (fun r => length r = d) a -> Forall (fun r => length r = d) b ->
  @same_shape A B 2 a b.
Proof.
  revert b. induction a as [|r a IH]; intros [|t b] Hlen Ha Hb; try discriminate.
  - constructor.
  - inversion Ha; inversion Hb; subst. constructor.
    + clear - H5. revert t H5. induction r as [|v r IHr]; intros [|w t] H;
        try discriminate; constructor; [exact I|].
      apply IHr. now injection H.
    + apply IH; auto.
Qed.

Lemma PositionalEncoding_forward_in_range (self : PositionalEncoding.t)
    (table : list (list R)) (x : tensor R 3) (d : nat) :
  PositionalEncoding.pe self = [table] ->
  Forall (fun xb => length xb = PositionalEncoding.size_1 x) x ->
  Forall (Forall (fun r => length r = d)) x ->
  Forall (fun r => length r = d) table ->
  (PositionalEncoding.size_1 x <= length table)%nat ->
  PositionalEncoding.forward self x
  = Ok (nn.Dropout.forward 3 (PositionalEncoding.dropout self)
          (map (fun xb => tzip Rplus 2 xb (firstn (PositionalEncoding.size_1 x) table)) x)).
Proof.
  intros Hpe Hlen Hrows Htable Hle. unfold PositionalEncoding.forward.
  rewrite Hpe. cbn [map].
  change (broadcast2 Rplus 3 x [firstn (PositionalEncoding.size_1 x) table])
    with (bzip (broadcast2 Rplus 2) x [firstn (PositionalEncoding.size_1 x) table]).
  rewrite bzip_single_r.
  replace (mapM (fun xb => broadcast2 Rplus 2 xb (firstn (PositionalEncoding.size_1 x) table)) x)
    with (Ok (map (fun xb => tzip Rplus 2 xb (firstn (PositionalEncoding.size_1 x) table)) x));
    [reflexivity|].
  rewrite <- mapM_Ok. apply mapM_ext. intros xb Hxb. symmetry.
  apply broadcast2_same. rewrite Forall_forall in Hlen, Hrows.
  apply (same_shape_rows d).
  - rewrite length_firstn, (Hlen xb Hxb). lia.
  - now apply Hrows.
  - apply Forall_forall. intros r Hr. apply In_firstn in Hr.
    rewrite Forall_forall in Htable. now apply Htable.
Qed.

Lemma PositionalEncoding_forward_too_long (self : PositionalEncoding.t)
    (table : list (list R)) (xb : list (list R)) (rest : list (list (list R))) :
  PositionalEncoding.pe self = [table] ->
  (2 <= length table)%nat -> (length table < length xb)%nat ->
  PositionalEncoding.forward self (xb :: rest) = Err RuntimeError.
Proof.
  intros Hpe H2 Hlt. unfold PositionalEncoding.forward. rewrite Hpe. cbn [map].
  change (broadcast2 Rplus 3 (xb :: rest)
            [firstn (PositionalEncoding.size_1 (xb :: rest)) table])
    with (bzip (bzip (broadcast2 Rplus 1)) (xb :: rest)
            [firstn (PositionalEncoding.size_1 (xb :: rest)) table]).
  rewrite bzip_single_r. cbn [mapM PositionalEncoding.size_1].
  rewrite firstn_all2 by lia.
  rewrite (bzip_mismatch (broadcast2 Rplus 1) xb table);
    [reflexivity | cbn [tensor] in *; lia ..].
Qed.

Lemma PositionalEncoding_forward_one_row (self : PositionalEncoding.t)
    (row : list R) (x : tensor R 3) :
  PositionalEncoding.pe self = [[row]] ->
  (0 < PositionalEncoding.size_1 x)%nat ->
  Forall (Forall (fun r => length r = length row)) x ->
  PositionalEncoding.forward self x
  = Ok (nn.Dropout.forward 3 (PositionalEncoding.dropout self)
          (map (map (fun r => map (fun ab => fst ab + snd ab) (combine r row))) x)).
Proof.
  intros Hpe Hpos Hrows. unfold PositionalEncoding.forward. rewrite Hpe. cbn [map].
  destruct (PositionalEncoding.size_1 x) as [|L] eqn:HL; [lia|].
  cbn [firstn]. rewrite firstn_nil.
  change (broadcast2 Rplus 3 x [[row]])
    with (bzip (bzip (bzip (fun a b => Ok (a + b)))) x [[row]]).
  rewrite bzip_single_r.
  replace (mapM (fun xb => bzip (bzip (fun a b => Ok (a + b))) xb [row]) x)
    with (Ok (map (map (fun r => map (fun ab => fst ab + snd ab) (combine r row))) x));
    [reflexivity|].
  rewrite <- mapM_Ok. apply mapM_ext. intros xb Hxb. symmetry.
  rewrite bzip_single_r, <- mapM_Ok. apply mapM_ext. intros r Hr.
  apply bzip_pointwise. rewrite Forall_forall in Hrows.
  specialize (Hrows xb Hxb). rewrite Forall_forall in Hrows. now apply Hrows.
Qed.

Lemma mapM_In {A B : Type} {f : A -> result B} {l : list A} {r : list B} {y : B} :
  mapM f l = Ok r -> In y r -> exists x, In x l /\ f x = Ok y.
Proof.
  intros H Hy. apply In_nth_error in Hy as [i Hi].
  destruct (mapM_nth H Hi) as [x [Hx Hf]].
  exists x. split; [eapply nth_error_In; eassumption | assumption].
Qed.

Lemma mapM_total {A B : Type} (f : A -> result B) (l : list A) :
  (forall x, In x l -> exists y, f x = Ok y) -> exists r, mapM f l = Ok r.
Proof.
  induction l as [|x l IH]; intros H; simpl.
  - eauto.
  - destruct (H x (or_introl eq_refl)) as [y Hy]. rewrite Hy. cbn [bind].
    destruct IH as [r Hr]; [intros; apply H; now right|].
    rewrite Hr. cbn [bind]. eauto.
Qed.

Lemma assign_row_length (start : nat) (row rhs row' : list R) :
  PositionalEncoding.assign_row start row rhs = Ok row' -> length row' = length row.
Proof.
  unfold PositionalEncoding.assign_row. intros H.
  destruct (length rhs =? (length row - start + 1) / 2)%nat.
  - apply Ok_inj in H. subst. now rewrite length_map, length_combine, length_seq, Nat.min_id.
  - destruct (length rhs =? 1)%nat; [|discriminate].
    apply Ok_inj in H. subst. now rewrite length_map, length_combine, length_seq, Nat.min_id.
Qed.

Lemma assign_row_total (start : nat) (row rhs : list R) :
  length rhs = ((length row - start + 1) / 2)%nat ->
  exists row', PositionalEncoding.assign_row start row rhs = Ok row'.
Proof.
  intros H. unfold PositionalEncoding.assign_row. rewrite H, Nat.eqb_refl. eauto.
Qed.

Lemma assign_cols_shape (start : nat) (pe rhs pe' : list (list R)) (d : nat) :
  PositionalEncoding.assign_cols start pe rhs = Ok pe' ->
  Forall (fun r => length r = d) pe ->
  length pe' = Nat.min (length pe) (length rhs) /\ Forall (fun r => length r = d) pe'.
Proof.
  unfold PositionalEncoding.assign_cols. intros H Hd. split.
  - rewrite (mapM_length _ _ _ H). apply length_combine.
  - apply Forall_forall. intros r' Hr'.
    destruct (mapM_In H Hr') as [[r rhsr] [Hin Hassign]]. simpl in Hassign.
    rewrite (assign_row_length _ _ _ _ Hassign).
    rewrite Forall_forall in Hd. apply Hd. exact (in_combine_l _ _ _ _ Hin).
Qed.

Lemma assign_cols_total (start : nat) (pe rhs : list (list R)) (d c : nat) :
  Forall (fun r => length r = d) pe -> Forall (fun r => length r = c) rhs ->
  c = ((d - start + 1) / 2)%nat ->
  exists pe', PositionalEncoding.assign_cols start pe rhs = Ok pe'.
Proof.
  intros Hd Hc E. unfold PositionalEncoding.assign_cols. apply mapM_total.
  intros [r rhsr] Hin. simpl. apply assign_row_total.
  rewrite Forall_forall in Hd, Hc.
  rewrite (Hd r (in_combine_l _ _ _ _ Hin)), (Hc rhsr (in_combine_r _ _ _ _ Hin)).
  exact E.
Qed.

Lemma PositionalEncoding_init_inv d_model p max_len keep self :
  PositionalEncoding.__init__ d_model p max_len keep = Ok self ->
  exists table,
    PositionalEncoding.pe self = [table]
    /\ length table = Z.to_nat (default_max_len max_len)
    /\ Forall (fun r => length r = Z.to_nat d_model) table.
Proof.
  unfold PositionalEncoding.__init__. intros H.
  fold (default_max_len max_len) in H.
  bind_inv H as drop Hdrop. bind_inv H as pe0 Hpe0.
  bind_inv H as scale Hscale. bind_inv H as pe1 Hpe1. bind_inv H as pe2 Hpe2.
  apply Ok_inj in H. subst self. exists pe2. split; [reflexivity|].
  unfold torch_zeros, torch_full in Hpe0.
  destruct (forallb _ _ && _)%bool; [|discriminate].
  apply Ok_inj in Hpe0. cbn in Hpe0.
  assert (H0 : length pe0 = Z.to_nat (default_max_len max_len)
               /\ Forall (fun r => length r = Z.to_nat d_model) pe0).
  { subst pe0. split; [apply repeat_length|].
    apply Forall_forall. intros r Hr. apply repeat_spec in Hr. subst r.
    apply repeat_length. }
  destruct H0 as [L0 F0].
  destruct (assign_cols_shape _ _ _ _ _ Hpe1 F0) as [L1 F1].
  destruct (assign_cols_shape _ _ _ _ _ Hpe2 F1) as [L2 F2].
  split; [|exact F2].
  rewrite L2, L1, L0, !length_map, length_seq. lia.
Qed.

Lemma PositionalEncoding_init_total (k : Z) p max_len keep :
  (0 < k)%Z -> 0 <= p <= 1 -> (0 <= default_max_len max_len)%Z ->
  exists self, PositionalEncoding.__init__ (2 * k) p max_len keep = Ok self.
Proof.
  intros Hk Hp Hm. unfold PositionalEncoding.__init__.
  fold (default_max_len max_len).
  rewrite (Dropout_init_valid p keep Hp). cbn [bind].
  unfold torch_zeros, torch_full.
  replace (forallb (fun d => (0 <=? d)%Z) [default_max_len max_len; (2 * k)%Z]) with true
    by (symmetry; apply forallb_forall; intros z [<-|[<-|[]]]; apply Z.leb_le; lia).
  cbn [andb length Nat.eqb bind].
  destruct (Z.eqb_spec (2 * k) 0) as [|_]; [lia|]. cbn [bind].
  set (m := Z.to_nat (default_max_len max_len)).
  set (d := Z.to_nat (2 * k)).
  set (angle := map _ (map INR (seq 0 m))).
  assert (Hd : d = (2 * Z.to_nat k)%nat) by (subst d; lia).
  assert (Hc : ((d + 1) / 2 = Z.to_nat k)%nat).
  { rewrite Hd. replace (2 * Z.to_nat k + 1)%nat with (1 + Z.to_nat k * 2)%nat by lia.
    rewrite Nat.div_add by lia. reflexivity. }
  assert (Ha : forall g : R -> R,
             Forall (fun r => length r = Z.to_nat k) (map (map g) angle)).
  { intros g. apply Forall_forall. intros r Hr.
    apply in_map_iff in Hr as [r0 [<- Hr0]]. subst angle.
    apply in_map_iff in Hr0 as [q [<- _]].
    rewrite !length_map. unfold PositionalEncoding.arange_step2.
    rewrite length_map, length_seq. fold d. exact Hc. }
  assert (F0 : Forall (fun r => length r = d) (tfull 0 2 (map Z.to_nat [default_max_len max_len; (2 * k)%Z]))).
  { cbn. apply Forall_forall. intros r Hr. apply repeat_spec in Hr. subst r.
    apply repeat_length. }
  destruct (assign_cols_total 0 _ (map (map sin) angle) d (Z.to_nat k) F0 (Ha sin))
    as [pe1 Hpe1].
  { rewrite Nat.sub_0_r. now symmetry. }
  rewrite Hpe1. cbn [bind].
  destruct (assign_cols_shape _ _ _ _ _ Hpe1 F0) as [_ F1].
  destruct (assign_cols_total 1 _ (map (map cos) angle) d (Z.to_nat k) F1 (Ha cos))
    as [pe2 Hpe2].
  { replace (d - 1 + 1)%nat with (Z.to_nat k * 2)%nat by lia.
    now rewrite Nat.div_mul by lia. }
  rewrite Hpe2. cbn [bind]. eauto.
Qed.

(** C9, amended.  When the table has at least two rows, as the default one
    of 5000 rows has, an input longer than the table makes
    [PositionalEncoding.forward] raise; an input no longer than the table
    gets the rows [0 .. len-1] of the table added entry by entry, followed
    by dropout.  A table of one row is added at every position of an input
    of any length. *)
Theorem PositionalEncoding_forward_spec :
  (forall (self : PositionalEncoding.t) (table xb : list (list R))
          (rest : list (list (list R))),
      PositionalEncoding.pe self = [table] ->
      (2 <= length table)%nat -> (length table < length xb)%nat ->
      PositionalEncoding.forward self (xb :: rest) = Err RuntimeError)
  /\ (forall d_model p keep (self : PositionalEncoding.t) (xb : list (list R))
             (rest : list (list (list R))),
         PositionalEncoding.__init__ d_model p None keep = Ok self ->
         (5000 < length xb)%nat ->
         PositionalEncoding.forward self (xb :: rest) = Err RuntimeError)
  /\ (forall (self : PositionalEncoding.t) (table : list (list R)) (x : tensor R 3)
             (d : nat),
         PositionalEncoding.pe self = [table] ->
         Forall (fun xb => length xb = PositionalEncoding.size_1 x) x ->
         Forall (Forall (fun r => length r = d)) x ->
         Forall (fun r => length r = d) table ->
         (PositionalEncoding.size_1 x <= length table)%nat ->
         PositionalEncoding.forward self x
         = Ok (nn.Dropout.forward 3 (PositionalEncoding.dropout self)
                 (map (fun xb => tzip Rplus 2 xb
                                   (firstn (PositionalEncoding.size_1 x) table)) x)))
  /\ (forall d_model p max_len keep (self : PositionalEncoding.t),
         PositionalEncoding.__init__ d_model p max_len keep = Ok self ->
         exists table,
           PositionalEncoding.pe self = [table]
           /\ length table = Z.to_nat (default_max_len max_len)
           /\ Forall (fun r => length r = Z.to_nat d_model) table)
  /\ (forall (self : PositionalEncoding.t) (row : list R) (x : tensor R 3),
         PositionalEncoding.pe self = [[row]] ->
         (0 < PositionalEncoding.size_1 x)%nat ->
         Forall (Forall (fun r => length r = length row)) x ->
         PositionalEncoding.forward self x
         = Ok (nn.Dropout.forward 3 (PositionalEncoding.dropout self)
                 (map (map (fun r => map (fun ab => fst ab + snd ab) (combine r row))) x))).
Proof.
  split; [|split; [|split; [|split]]].
  - apply PositionalEncoding_forward_too_long.
  - intros d_model p keep self xb rest Hinit Hlen.
    destruct (PositionalEncoding_init_inv _ _ _ _ _ Hinit) as [table [Hpe [Hl _]]].
    cbn in Hl.
    apply (PositionalEncoding_forward_too_long self table); [assumption | lia | lia].
  - apply PositionalEncoding_forward_in_range.
  - apply PositionalEncoding_init_inv.
  - apply PositionalEncoding_forward_one_row.
Qed.

Lemma PositionalEncoding_forward_spec_witness :
  let self := PositionalEncoding.mk (nn.Dropout.mk 0 false (fun _ => true))
                                    [[[0; 1]; [0; 1]]] in
  PositionalEncoding.forward self [[[1; 2]; [3; 4]; [5; 6]]] = Err RuntimeError
  /\ PositionalEncoding.forward self [[[1; 2]]; [[3; 4]]]
     = Ok (nn.Dropout.forward 3 (PositionalEncoding.dropout self)
             [[[1 + 0; 2 + 1]]; [[3 + 0; 4 + 1]]]).
Proof.
  intros self. split.
  - apply (proj1 PositionalEncoding_forward_spec self [[0; 1]; [0; 1]]);
      [reflexivity | simpl; lia | simpl; lia].
  - apply (proj1 (proj2 (proj2 PositionalEncoding_forward_spec)) self
             [[0; 1]; [0; 1]] [[[1; 2]]; [[3; 4]]] 2%nat);
      [reflexivity | repeat constructor .. | simpl; lia].
Defined.

(** With a table of a single row a longer input is accepted: the row is
    broadcast to every position. *)
Lemma PositionalEncoding_one_row_counterexample :
  ~ (forall d_model p max_len keep (self : PositionalEncoding.t) (x : tensor R 3),
        PositionalEncoding.__init__ d_model p (Some max_len) keep = Ok self ->
        (max_len < Z.of_nat (PositionalEncoding.size_1 x))%Z ->
        exists e, PositionalEncoding.forward self x = Err e).
Proof.
  intros H.
  destruct (PositionalEncoding_init_total 1 0 (Some 1%Z) (fun _ => true))
    as [self Hself]; [lia | lra | simpl; lia |].
  destruct (PositionalEncoding_init_inv _ _ _ _ _ Hself) as [table [Hpe [Hl Hrows]]].
  destruct table as [|row [|row' table]]; try discriminate.
  inversion Hrows as [|? ? Hrow _]; subst.
  destruct (H _ _ _ _ self [[[1; 2]; [3; 4]]] Hself) as [e He]; [simpl; lia|].
  rewrite (PositionalEncoding_forward_one_row self row) in He.
  - discriminate.
  - assumption.
  - simpl. lia.
  - rewrite Hrow. repeat constructor.
Qed.

(** * Further properties *)

(** ** The encoder *)





(** ** Linear layers, row by row *)

Lemma tmapM_rows_Ok {A B : Type} (f : list A -> result (list B)) (g : list A -> list B)
    n (x : tensor A (S n)) :
  (forall r, In r (rows n x) -> f r = Ok (g r)) ->
  tmapM_rows f n x = Ok (tmap_rows g n x).
Proof.
  induction n as [|n IH]; intros H.
  - apply H. now left.
  - change (tmapM_rows f (S n) x) with (mapM (tmapM_rows f n) x).
    transitivity (mapM (fun c => Ok (tmap_rows g n c)) x).
    + apply mapM_ext. intros c Hc. apply IH. intros r Hr. apply H.
      change (rows (S n) x) with (flat_map (rows n) x). apply in_flat_map. eauto.
    + apply mapM_Ok.
Qed.

Lemma mapM_Err {A B : Type} (f : A -> result B) (l : list A) (e : exn) :
  (forall x, In x l -> f x = Err e \/ exists y, f x = Ok y) ->
  (exists x, In x l /\ f x = Err e) ->
  mapM f l = Err e.
Proof.
  induction l as [|a l IH]; intros Hall [x [Hin Hx]]; [contradiction|].
  simpl. destruct (Hall a (or_introl eq_refl)) as [Ha|[y Ha]]; rewrite Ha; [reflexivity|].
  cbn [bind]. destruct Hin as [->|Hin]; [congruence|].
  rewrite IH; [reflexivity | intros; apply Hall; now right | eauto].
Qed.

Lemma mapM_total_or_Err {A B : Type} (f : A -> result B) (l : list A) (e : exn) :
  (forall x, f x = Err e \/ exists y, f x = Ok y) ->
  mapM f l = Err e \/ exists ys, mapM f l = Ok ys.
Proof.
  intros Hf. induction l as [|a l IH]; cbn [mapM]; [right; eauto|].
  destruct (Hf a) as [Ha|[y Ha]]; rewrite Ha; [now left|]. cbn [bind].
  destruct IH as [Hl|[ys Hl]]; rewrite Hl; cbn [bind]; [now left | right; eauto].
Qed.

Lemma tmapM_rows_total_or_Err {A B : Type} (f : list A -> result (list B)) (e : exn)
    n (x : tensor A (S n)) :
  (forall r, f r = Err e \/ exists r', f r = Ok r') ->
  tmapM_rows f n x = Err e \/ exists y, tmapM_rows f n x = Ok y.
Proof.
  intros Hf. induction n as [|n IH]; [apply Hf|].
  apply (mapM_total_or_Err (tmapM_rows f n) x e). exact IH.
Qed.

Lemma tmapM_rows_Err {A B : Type} (f : list A -> result (list B)) (e : exn)
    n (x : tensor A (S n)) :
  (forall r, f r = Err e \/ exists r', f r = Ok r') ->
  (exists r, In r (rows n x) /\ f r = Err e) ->
  tmapM_rows f n x = Err e.
Proof.
  intros Hf. induction n as [|n IH]; intros [r [Hin Hr]].
  - destruct Hin as [<-|[]]. exact Hr.
  - change (tmapM_rows f (S n) x) with (mapM (tmapM_rows f n) x).
    change (rows (S n) x) with (flat_map (rows n) x) in Hin.
    apply in_flat_map in Hin as [c [Hc Hrc]].
    apply mapM_Err.
    + intros c' _. apply tmapM_rows_total_or_Err. exact Hf.
    + exists c. split; [assumption|]. apply IH. eauto.
Qed.

Lemma Linear_forward_row_cases (self : nn.Linear.t) (r : list R) :
  nn.Linear.forward_row self r = Err RuntimeError
  \/ exists r', nn.Linear.forward_row self r = Ok r'.
Proof.
  unfold nn.Linear.forward_row.
  destruct (length r =? nn.Linear.in_features self)%nat; [right; eauto | now left].
Qed.

Lemma Linear_forward_rows (self : nn.Linear.t) n (x : tensor R (S n)) :
  Forall (fun r => length r = nn.Linear.in_features self) (rows n x) ->
  nn.Linear.forward n self x = Ok (tmap_rows (linear_row self) n x).
Proof.
  intros H. unfold nn.Linear.forward. apply tmapM_rows_Ok. intros r Hr.
  rewrite Forall_forall in H. unfold nn.Linear.forward_row.
  rewrite (H r Hr), Nat.eqb_refl. reflexivity.
Qed.

Lemma Linear_forward_wrong_width (self : nn.Linear.t) n (x : tensor R (S n)) :
  Exists (fun r => length r <> nn.Linear.in_features self) (rows n x) ->
  nn.Linear.forward n self x = Err RuntimeError.
Proof.
  intros H. unfold nn.Linear.forward. apply tmapM_rows_Err.
  - apply Linear_forward_row_cases.
  - apply Exists_exists in H as [r [Hin Hr]]. exists r. split; [assumption|].
    unfold nn.Linear.forward_row.
    destruct (Nat.eqb_spec (length r) (nn.Linear.in_features self)); [contradiction|].
    reflexivity.
Qed.

Lemma Linear_init_shape (i o : Z) w0 b0 (self : nn.Linear.t) :
  nn.Linear.__init__ i o w0 b0 = Ok self ->
  nn.Linear.in_features self = Z.to_nat i
  /\ length (nn.Linear.weight self) = Z.to_nat o
  /\ length (nn.Linear.bias self) = Z.to_nat o
  /\ Forall (fun r => length r = Z.to_nat i) (nn.Linear.weight self).
Proof.
  unfold nn.Linear.__init__. destruct ((i <? 0)%Z || (o <? 0)%Z)%bool; [discriminate|].
  intros H. apply Ok_inj in H. subst self. cbn.
  rewrite !length_map, !length_seq. repeat split.
  apply Forall_forall. intros r Hr. apply in_map_iff in Hr as [k [<- _]].
  now rewrite length_map, length_seq.
Qed.

Lemma linear_row_length (self : nn.Linear.t) (r : list R) :
  length (linear_row self r)
  = Nat.min (length (nn.Linear.weight self)) (length (nn.Linear.bias self)).
Proof. unfold linear_row. now rewrite length_map, length_combine. Qed.

Lemma tmap_rows_compose {A B C : Type} (g : list B -> list C) (f : list A -> list B)
    n (x : tensor A (S n)) :
  tmap_rows g n (tmap_rows f n x) = tmap_rows (fun r => g (f r)) n x.
Proof.
  induction n as [|n IH]; [reflexivity|].
  change (map (tmap_rows g n) (map (tmap_rows f n) x)
          = map (tmap_rows (fun r => g (f r)) n) x).
  rewrite map_map. apply map_ext. intros c. apply IH.
Qed.

Lemma tmap_as_rows {A B : Type} (f : A -> B) n (x : tensor A (S n)) :
  tmap f (S n) x = tmap_rows (map f) n x.
Proof.
  induction n as [|n IH]; [reflexivity|].
  change (map (tmap f (S n)) x = map (tmap_rows (map f) n) x).
  apply map_ext. intros c. apply IH.
Qed.

(** ** The generator *)

Lemma exp_minus_ln (x s : R) : 0 < s -> exp (x - ln s) = exp x / s.
Proof.
  intros Hs. unfold Rminus. rewrite exp_plus, exp_Ropp, exp_ln by assumption.
  reflexivity.
Qed.

Lemma log_softmax_row_sum (r : list R) :
  r <> [] -> Rsum (map exp (log_softmax_row r)) = 1.
Proof.
  intros Hr. unfold log_softmax_row. pose proof (Rsum_exp_pos r Hr) as Hs.
  rewrite map_map.
  rewrite (map_ext (fun x => exp (x - ln (Rsum (map exp r))))
                   (fun x => exp x / Rsum (map exp r)))
    by (intros x; now apply exp_minus_ln).
  rewrite <- (map_map exp (fun e => e / Rsum (map exp r))), Rsum_map_div.
  field. lra.
Qed.

(** X2.  A generator built for [d_model] inputs and [vocab] outputs accepts
    every tensor whose rows have length [d_model]; each row of the result is
    the log-softmax of the projected row and has length [vocab].  In exact
    arithmetic (the real numbers of this development: no rounding, no
    overflow) the exponentials of its entries sum to one. *)
Theorem Generator_forward_log_probabilities :
  forall d_model vocab w0 b0 (self : Generator.t) n (x : tensor R (S n)),
    Generator.__init__ d_model vocab w0 b0 = Ok self ->
    Forall (fun r => length r = Z.to_nat d_model) (rows n x) ->
    exists y,
      Generator.forward n self x = Ok y
      /\ y = tmap_rows (fun r => log_softmax_row (linear_row (Generator.proj self) r)) n x
      /\ Forall (fun r => length r = Z.to_nat vocab
                          /\ (r <> [] -> Rsum (map exp r) = 1)) (rows n y).
Proof.
  intros d_model vocab w0 b0 self n x Hinit Hx.
  unfold Generator.__init__ in Hinit. bind_inv Hinit as proj Hproj.
  apply Ok_inj in Hinit. subst self. cbn [Generator.proj].
  destruct (Linear_init_shape _ _ _ _ _ Hproj) as [Hin [Hw [Hb _]]].
  eexists. split; [|split; [reflexivity|]].
  - unfold Generator.forward. cbn [Generator.proj].
    rewrite Linear_forward_rows by now rewrite Hin.
    cbn [bind]. now rewrite tmap_rows_compose.
  - rewrite rows_tmap_rows. apply Forall_forall. intros r Hr.
    apply in_map_iff in Hr as [r0 [<- _]]. split.
    + unfold log_softmax_row. rewrite length_map, linear_row_length, Hw, Hb.
      apply Nat.min_id.
    + intros Hne. apply log_softmax_row_sum. intros E. apply Hne.
      unfold log_softmax_row. now rewrite E.
Qed.

Lemma Generator_forward_log_probabilities_witness :
  exists self y,
    Generator.__init__ 2 3 (fun i j => INR (i + j)) (fun i => INR i) = Ok self
    /\ Generator.forward 1 self [[1; 2]; [3; 4]] = Ok y
    /\ Forall (fun r => length r = 3%nat /\ (r <> [] -> Rsum (map exp r) = 1)) (rows 1 y).
Proof.
  destruct (Generator.__init__ 2 3 (fun i j => INR (i + j)) (fun i => INR i))
    as [self|e] eqn:E; [|discriminate].
  destruct (Generator_forward_log_probabilities 2 3 _ _ self 1 [[1; 2]; [3; 4]] E)
    as [y [Hy [_ Hrows]]]; [repeat constructor|].
  exists self, y. auto.
Defined.

(** X3.  A tensor with a row whose length is not the input width of the
    first linear layer is rejected with a [RuntimeError]: by the generator,
    by the feed-forward network, and by multi-head attention for its query. *)
Theorem Linear_modules_reject_wrong_width :
  (forall (self : Generator.t) n (x : tensor R (S n)),
      Exists (fun r => length r <> nn.Linear.in_features (Generator.proj self)) (rows n x) ->
      Generator.forward n self x = Err RuntimeError)
  /\ (forall (self : PositionwiseFeedForward.t) n (x : tensor R (S n)),
         Exists (fun r => length r
                          <> nn.Linear.in_features (PositionwiseFeedForward.w_1 self))
                (rows n x) ->
         PositionwiseFeedForward.forward n self x = Err RuntimeError)
  /\ (forall (self : MultiHeadedAttention.t) (lin : nn.Linear.t) (rest : list nn.Linear.t)
             (query key value : tensor R 3) (mask : option (tensor bool 3)),
         MultiHeadedAttention.linears self = lin :: rest ->
         Exists (fun r => length r <> nn.Linear.in_features lin) (rows 2 query) ->
         MultiHeadedAttention.forward self query key value mask = Err RuntimeError).
Proof.
  split; [|split].
  - intros self n x H. unfold Generator.forward.
    now rewrite Linear_forward_wrong_width.
  - intros self n x H. unfold PositionwiseFeedForward.forward.
    now rewrite Linear_forward_wrong_width.
  - intros self lin rest query key value mask Hlin H.
    unfold MultiHeadedAttention.forward. rewrite Hlin. cbn [combine mapM fst snd].
    now rewrite Linear_forward_wrong_width.
Qed.

Lemma Linear_modules_reject_wrong_width_witness :
  Generator.forward 1 (Generator.mk (nn.Linear.mk 2 1 [[1; 1]] [0])) [[1; 2]; [3]]
  = Err RuntimeError.
Proof.
  apply (proj1 Linear_modules_reject_wrong_width).
  apply Exists_cons_tl. apply Exists_cons_hd. simpl. lia.
Defined.

(** ** The feed-forward network *)

Lemma relu_nonneg (x : R) : 0 <= PositionwiseFeedForward.relu x.
Proof. unfold PositionwiseFeedForward.relu. apply Rmax_l. Qed.

(** X4.  In evaluation mode the feed-forward network acts on every position
    by the same function of that position alone: the second linear layer
    applied to the rectified output of the first.  The hidden activations
    are never negative. *)
Theorem PositionwiseFeedForward_forward_rows :
  forall (self : PositionwiseFeedForward.t) n (x : tensor R (S n)),
    nn.Dropout.training (PositionwiseFeedForward.dropout self) = false ->
    Forall (fun r => length r = nn.Linear.in_features (PositionwiseFeedForward.w_1 self))
           (rows n x) ->
    Nat.min (length (nn.Linear.weight (PositionwiseFeedForward.w_1 self)))
            (length (nn.Linear.bias (PositionwiseFeedForward.w_1 self)))
    = nn.Linear.in_features (PositionwiseFeedForward.w_2 self) ->
    PositionwiseFeedForward.forward n self x
    = Ok (tmap_rows
            (fun r => linear_row (PositionwiseFeedForward.w_2 self)
                        (map PositionwiseFeedForward.relu
                             (linear_row (PositionwiseFeedForward.w_1 self) r)))
            n x)
    /\ Forall (Forall (fun h => 0 <= h))
              (map (fun r => map PositionwiseFeedForward.relu
                               (linear_row (PositionwiseFeedForward.w_1 self) r))
                   (rows n x)).
Proof.
  intros self n x Heval Hx Hmid. split.
  - unfold PositionwiseFeedForward.forward.
    rewrite Linear_forward_rows by assumption. cbn [bind].
    rewrite Dropout_forward_eval by assumption.
    rewrite tmap_as_rows, tmap_rows_compose.
    rewrite Linear_forward_rows.
    + now rewrite tmap_rows_compose.
    + rewrite rows_tmap_rows. apply Forall_forall. intros r Hr.
      apply in_map_iff in Hr as [r0 [<- _]].
      now rewrite length_map, linear_row_length.
  - apply Forall_forall. intros hs Hhs. apply in_map_iff in Hhs as [r [<- _]].
    apply Forall_forall. intros h Hh. apply in_map_iff in Hh as [v [<- _]].
    apply relu_nonneg.
Qed.

Lemma PositionwiseFeedForward_forward_rows_witness :
  let self := PositionwiseFeedForward.mk (nn.Linear.mk 2 1 [[1; -1]] [0])
                (nn.Linear.mk 1 2 [[1]; [2]] [0; 1])
                (nn.Dropout.mk (1/10) false (fun _ => true)) in
  PositionwiseFeedForward.forward 1 self [[1; 2]; [3; 4]]
  = Ok (tmap_rows
          (fun r => linear_row (PositionwiseFeedForward.w_2 self)
                      (map PositionwiseFeedForward.relu
                           (linear_row (PositionwiseFeedForward.w_1 self) r)))
          1 [[1; 2]; [3; 4]]).
Proof.
  intros self.
  apply (PositionwiseFeedForward_forward_rows self 1 [[1; 2]; [3; 4]]);
    [reflexivity | repeat constructor | reflexivity].
Defined.

(** ** Embeddings *)

Lemma Embedding_lookup_valid (self : nn.Embedding.t) (t : Z) :
  (0 <= t < Z.of_nat (length (nn.Embedding.weight self)))%Z ->
  nn.Embedding.lookup self t = Ok (nth (Z.to_nat t) (nn.Embedding.weight self) []).
Proof.
  intros [H0 H1]. unfold nn.Embedding.lookup.
  destruct (Z.ltb_spec t 0) as [|_]; [lia|].
  destruct (nth_error (nn.Embedding.weight self) (Z.to_nat t)) as [row|] eqn:E.
  - now rewrite (nth_error_nth _ _ _ E).
  - apply nth_error_None in E. lia.
Qed.



(** X5.  For token ids inside the table and a model size that is not
    negative, [Embeddings.forward] returns at every position the table row
    of the token, every entry multiplied by [sqrt d_model]. *)
Theorem Embeddings_forward_lookup :
  forall (self : Embeddings.t) (x : tensor Z 2),
    (0 <= Embeddings.d_model self)%Z ->
    Forall (Forall (fun t => (0 <= t < Z.of_nat (length (nn.Embedding.weight
                                                         (Embeddings.lut self))))%Z)) x ->
    Embeddings.forward self x
    = Ok (map (map (fun t => map (fun v => v * sqrt (IZR (Embeddings.d_model self)))
                                (nth (Z.to_nat t)
                                     (nn.Embedding.weight (Embeddings.lut self)) [])))
              x).
Proof.
  intros self x Hd Hx. unfold Embeddings.forward, nn.Embedding.forward.
  change (tembed (nn.Embedding.lookup (Embeddings.lut self)) 2 x)
    with (mapM (mapM (nn.Embedding.lookup (Embeddings.lut self))) x).
  replace (mapM (mapM (nn.Embedding.lookup (Embeddings.lut self))) x)
    with (Ok (map (map (fun t => nth (Z.to_nat t)
                                     (nn.Embedding.weight (Embeddings.lut self)) [])) x)).
  - cbn [bind]. unfold math_sqrt.
    destruct (Z.ltb_spec (Embeddings.d_model self) 0) as [|_]; [lia|]. cbn [bind].
    f_equal. change (tmap ?f 3 ?t) with (map (map (map f)) t).
    rewrite map_map. apply map_ext. intros row. now rewrite map_map.
  - symmetry. rewrite <- mapM_Ok. apply mapM_ext. intros row Hrow.
    rewrite <- mapM_Ok. apply mapM_ext. intros t Ht.
    apply Embedding_lookup_valid.
    rewrite Forall_forall in Hx. specialize (Hx row Hrow).
    rewrite Forall_forall in Hx. now apply Hx.
Qed.

Lemma Embeddings_forward_lookup_witness :
  let self := Embeddings.mk (nn.Embedding.mk [[1; 2]; [3; 4]; [5; 6]]) 2 in
  Embeddings.forward self [[0; 2]; [1; 1]]%Z
  = Ok (map (map (fun t => map (fun v => v * sqrt (IZR 2))
                              (nth (Z.to_nat t) [[1; 2]; [3; 4]; [5; 6]] [])))
            [[0; 2]; [1; 1]]%Z).
Proof.
  intros self.
  apply (Embeddings_forward_lookup self [[0; 2]; [1; 1]]%Z).
  - simpl. lia.
  - repeat constructor; simpl; lia.
Defined.




(** ** Attention weights as a distribution *)

Lemma Rsum_nonneg (l : list R) : Forall (fun y => 0 <= y) l -> 0 <= Rsum l.
Proof.
  unfold Rsum. induction 1 as [|y l Hy _ IH]; simpl; lra.
Qed.

Lemma Rsum_ge_member (l : list R) (e : R) :
  Forall (fun y => 0 <= y) l -> In e l -> e <= Rsum l.
Proof.
  intros H. induction H as [|y l Hy Hl IH]; intros Hin; [contradiction|].
  pose proof (Rsum_nonneg l Hl) as Hs. unfold Rsum in *. simpl.
  destruct Hin as [->|Hin]; [lra|]. specialize (IH Hin). lra.
Qed.

Lemma softmax_row_bounds (r : list R) :
  Forall (fun p => 0 < p <= 1) (softmax_row r).
Proof.
  unfold softmax_row. apply Forall_forall. intros p Hp.
  apply in_map_iff in Hp as [e [<- He]].
  assert (Hpos : Forall (fun y => 0 <= y) (map exp r)).
  { apply Forall_forall. intros y Hy. apply in_map_iff in Hy as [a [<- _]].
    left. apply exp_pos. }
  pose proof (Rsum_ge_member _ e Hpos He) as Hle.
  assert (He0 : 0 < e).
  { apply in_map_iff in He as [a [<- _]]. apply exp_pos. }
  split.
  - apply Rdiv_lt_0_compat; lra.
  - apply (Rmult_le_reg_r (Rsum (map exp r))); [lra|].
    unfold Rdiv. rewrite Rmult_assoc, Rinv_l by lra. lra.
Qed.

(** X7.  In exact arithmetic (the real numbers of this development: no
    rounding, no overflow), with dropout absent or inactive, every attention
    weight returned by [attention] lies between zero and one, masked
    positions included. *)
Theorem attention_weights_in_unit_interval :
  forall n q k v mask dropout out w,
    attention n q k v mask dropout = Ok (out, w) ->
    dropout_inactive dropout ->
    Forall (Forall (fun p => 0 <= p <= 1)) (rows (S n) w).
Proof.
  intros n q k v mask dropout out w H Hd.
  destruct (attention_inv_inactive H Hd) as [scores [_ [-> _]]].
  unfold softmax. rewrite rows_tmap_rows. apply Forall_forall.
  intros r Hr. apply in_map_iff in Hr as [s [<- _]].
  eapply Forall_impl; [|apply softmax_row_bounds]. intros p Hp. simpl in Hp. lra.
Qed.

Lemma attention_weights_in_unit_interval_witness :
  exists out w,
    attention 0 [[1; 2]] [[1; 0]; [0; 1]] [[5; 6]; [7; 8]] (Some [[true; false]]) None
    = Ok (out, w)
    /\ Forall (Forall (fun p => 0 <= p <= 1)) (rows 1 w).
Proof.
  destruct (attention 0 [[1; 2]] [[1; 0]; [0; 1]] [[5; 6]; [7; 8]]
              (Some [[true; false]]) None) as [[out w]|e] eqn:E.
  - exists out, w. split; [reflexivity|].
    exact (attention_weights_in_unit_interval _ _ _ _ _ _ _ _ E I).
  - cbn in E. discriminate.
Defined.

(** ** The output as a convex combination *)

Lemma dot_bounds (lo hi : R) (w col : list R) :
  length w = length col ->
  Forall (fun p => 0 <= p) w -> Forall (fun x => lo <= x <= hi) col ->
  lo * Rsum w <= dot w col <= hi * Rsum w.
Proof.
  unfold dot, Rsum. revert col.
  induction w as [|p w IH]; intros [|x col] Hlen Hw Hc; try discriminate.
  - simpl. lra.
  - injection Hlen as Hlen. inversion Hw; inversion Hc; subst.
    specialize (IH col Hlen H2 H6). simpl in *. nra.
Qed.

Lemma transpose_entries {A : Type} (P : A -> Prop) (m : list (list A)) :
  Forall (Forall P) m -> Forall (Forall P) (transpose m).
Proof.
  unfold transpose. generalize (length (hd [] m)). intros c H.
  induction H as [|r m Hr _ IH]; simpl.
  - apply Forall_forall. intros col Hc. apply repeat_spec in Hc. subst. constructor.
  - apply Forall_forall. intros col Hc.
    apply in_map_iff in Hc as [[x col'] [<- Hin]]. simpl. constructor.
    + rewrite Forall_forall in Hr. apply Hr. exact (in_combine_l _ _ _ _ Hin).
    + rewrite Forall_forall in IH. apply IH. exact (in_combine_r _ _ _ _ Hin).
Qed.

(** X8.  In exact arithmetic (the real numbers of this development: no
    rounding, no overflow), with dropout absent or inactive, every entry of
    the output of [attention] on matrices lies between the bounds of the
    entries of a non-empty [value]: each output row is a convex combination
    of the value rows. *)
Theorem attention_output_within_value_bounds :
  forall (q k v : list (list R)) mask dropout (out w : list (list R)) (lo hi : R),
    attention 0 q k v mask dropout = Ok (out, w) ->
    dropout_inactive dropout ->
    v <> [] ->
    Forall (Forall (fun x => lo <= x <= hi)) v ->
    Forall (Forall (fun y => lo <= y <= hi)) out.
Proof.
  intros q k v mask dropout out w lo hi H Hd Hv Hb.
  destruct (attention_inv_inactive H Hd) as [scores [_ [-> Hmul]]].
  change (matmul 0) with mm in Hmul. destruct (mm_inv Hmul) as [-> Hrect].
  apply Forall_forall. intros orow Ho. apply in_map_iff in Ho as [wrow [<- Hw]].
  apply Forall_forall. intros y Hy. apply in_map_iff in Hy as [col [<- Hcol]].
  rewrite Forall_forall in Hrect. pose proof (Hrect wrow Hw) as Hlen.
  pose proof (transpose_columns v) as Hc. rewrite Forall_forall in Hc.
  pose proof (transpose_entries _ v Hb) as Hcb. rewrite Forall_forall in Hcb.
  change (softmax 1 scores) with (map softmax_row scores) in Hw.
  apply in_map_iff in Hw as [srow [<- Hs]].
  assert (Hne : srow <> []).
  { intros ->. simpl in Hlen. destruct v; [contradiction | discriminate]. }
  pose proof (softmax_row_sum srow Hne) as Hsum.
  pose proof (softmax_row_bounds srow) as Hp.
  destruct (dot_bounds lo hi (softmax_row srow) col) as [Hlo Hhi].
  - rewrite Hlen. symmetry. now apply Hc.
  - eapply Forall_impl; [|exact Hp]. intros p [Hp0 _]. lra.
  - now apply Hcb.
  - rewrite Hsum in Hlo, Hhi. lra.
Qed.

Lemma attention_output_within_value_bounds_witness :
  exists out w,
    attention 0 [[1; 2]] [[1; 0]; [0; 1]] [[5; 6]; [7; 8]] (Some [[true; false]]) None
    = Ok (out, w)
    /\ Forall (Forall (fun y => 5 <= y <= 8)) out.
Proof.
  destruct (attention 0 [[1; 2]] [[1; 0]; [0; 1]] [[5; 6]; [7; 8]]
              (Some [[true; false]]) None) as [[out w]|e] eqn:E.
  - exists out, w. split; [reflexivity|].
    apply (attention_output_within_value_bounds _ _ _ _ _ _ _ 5 8 E I);
      [discriminate|].
    repeat constructor; lra.
  - cbn in E. discriminate.
Defined.

(** ** Shapes that attention rejects *)

(** X9.  On matrices, [attention] raises [RuntimeError] when the rows of a
    non-empty [query] and of a non-empty [key] have different lengths, and,
    without mask and dropout, when [value] does not have as many rows as
    [key]. *)
Theorem attention_rejects_mismatched_shapes :
  (forall (q k v : list (list R)) mask dropout (d d' : nat),
      q <> [] -> k <> [] ->
      Forall (fun r => length r = d) q -> Forall (fun r => length r = d') k ->
      d <> d' ->
      attention 0 q k v mask dropout = Err RuntimeError)
  /\ (forall (q k v : list (list R)) (d : nat),
         q <> [] -> k <> [] -> (0 < d)%nat ->
         Forall (fun r => length r = d) q -> Forall (fun r => length r = d) k ->
         length v <> length k ->
         attention 0 q k v None None = Err RuntimeError).
Proof.
  split.
  - intros q k v mask dropout d d' Hq Hk Hqd Hkd Hne.
    unfold attention. change (matmul 0) with mm. cbn [tmap_mats].
    unfold mm at 1. rewrite (transpose_length k d' Hk Hkd).
    destruct q as [|r q]; [contradiction|]. inversion Hqd; subst.
    cbn [forallb]. destruct (Nat.eqb_spec (length r) d'); [contradiction|].
    reflexivity.
  - intros q k v d Hq Hk Hd Hqd Hkd Hne.
    unfold attention. change (matmul 0) with mm. cbn [tmap_mats].
    rewrite (mm_transpose q k d Hd Hk Hqd Hkd). cbn [bind].
    unfold mm. destruct q as [|r q]; [contradiction|].
    cbn [map tmap softmax tmap_rows forallb].
    rewrite softmax_row_length, !length_map.
    destruct (Nat.eqb_spec (length k) (length v)); [congruence|]. reflexivity.
Qed.

Lemma attention_rejects_mismatched_shapes_witness :
  attention 0 [[1; 2]] [[1; 0; 0]; [0; 1; 0]] [[5; 6]; [7; 8]] None None
  = Err RuntimeError
  /\ attention 0 [[1; 2]] [[1; 0]; [0; 1]] [[5; 6]] None None = Err RuntimeError.
Proof.
  split.
  - apply (proj1 attention_rejects_mismatched_shapes [[1; 2]] [[1; 0; 0]; [0; 1; 0]]
             [[5; 6]; [7; 8]] None None 2%nat 3%nat);
      try discriminate; repeat constructor.
  - apply (proj2 attention_rejects_mismatched_shapes [[1; 2]] [[1; 0]; [0; 1]]
             [[5; 6]] 2%nat);
      try discriminate; try lia; repeat constructor.
Defined.

(** ** What the mask hides *)

Lemma attention_via_scores n q k v mask dropout :
  attention n q k v mask dropout
  = (scores <- attention_scores n q k mask ;;
     let p_attn := match dropout with
                   | Some f => f (softmax (S n) scores)
                   | None => softmax (S n) scores
                   end in
     out <- matmul n p_attn v ;;
     Ok (out, p_attn)).
Proof.
  unfold attention, attention_scores.
  destruct (matmul n q (tmap_mats (@transpose R) n k)) as [raw|e]; [|reflexivity].
  cbn [bind]. destruct mask as [m|]; reflexivity.
Qed.

Lemma all_true_row (r : list bool) :
  Forall (fun b => b = true) r -> r = repeat true (length r).
Proof.
  induction 1 as [|b r Hb _ IH]; simpl; [reflexivity|]. now rewrite Hb, <- IH.
Qed.

Lemma spec_scores_all_true (d_k : nat) (q k : list (list R)) (mask : list (list bool)) :
  length mask = length q ->
  Forall (fun r => length r = length k) mask ->
  Forall (Forall (fun b => b = true)) mask ->
  spec_scores d_k q k mask = spec_scores_unmasked d_k q k.
Proof.
  unfold spec_scores, spec_scores_unmasked. revert mask.
  induction q as [|qi q IH]; intros [|mi mask] Hlen Hr Ht; try discriminate;
    [reflexivity|].
  inversion Hr; inversion Ht; subst. injection Hlen as Hlen.
  cbn [combine map fst snd]. f_equal; [|now apply IH].
  rewrite (all_true_row mi) by assumption.
  replace (length mi) with (length k) by (symmetry; assumption).
  rewrite combine_repeat_r, map_map. reflexivity.
Qed.

(** X10.  On matrices of matching shapes, a mask of the full score shape
    that allows every position changes nothing: [attention] returns what
    it returns without a mask, whatever the dropout. *)
Theorem attention_all_true_mask :
  forall (q k v : list (list R)) (mask : list (list bool)) dropout (d : nat),
    (0 < d)%nat -> k <> [] ->
    Forall (fun r => length r = d) q -> Forall (fun r => length r = d) k ->
    length mask = length q ->
    Forall (fun r => length r = length k) mask ->
    Forall (Forall (fun b => b = true)) mask ->
    attention 0 q k v (Some mask) dropout = attention 0 q k v None dropout.
Proof.
  intros q k v mask dropout d Hd Hk Hq Hkd Hml Hmr Ht.
  rewrite !attention_via_scores, !attention_scores_matrix.
  rewrite (matrix_scores_masked q k mask d _ Hd Hk Hq Hkd Hml Hmr).
  rewrite (matrix_scores_unmasked q k d _ Hd Hk Hq Hkd).
  now rewrite (spec_scores_all_true _ q k mask Hml Hmr Ht).
Qed.

Lemma attention_all_true_mask_witness :
  attention 0 [[1; 2]; [3; 4]] [[1; 0]; [0; 1]] [[5; 6]; [7; 8]]
    (Some [[true; true]; [true; true]]) None
  = attention 0 [[1; 2]; [3; 4]] [[1; 0]; [0; 1]] [[5; 6]; [7; 8]] None None.
Proof.
  apply (attention_all_true_mask [[1; 2]; [3; 4]] [[1; 0]; [0; 1]] [[5; 6]; [7; 8]]
           [[true; true]; [true; true]] None 2%nat);
    try discriminate; try lia; try reflexivity; repeat constructor.
Defined.

Lemma masked_row_ext (d_k : nat) (qi : list R) (k k' : list (list R)) (mi : list bool) :
  length k' = length k ->
  (forall j, nth j mi false = true -> nth_error k' j = nth_error k j) ->
  map (fun kb => spec_score d_k qi (fst kb) (snd kb)) (combine k' mi)
  = map (fun kb => spec_score d_k qi (fst kb) (snd kb)) (combine k mi).
Proof.
  revert k' mi. induction k as [|a k IH]; intros [|a' k'] mi Hlen H; try discriminate;
    [reflexivity|].
  destruct mi as [|b mi]; [reflexivity|]. injection Hlen as Hlen.
  cbn [combine map fst snd]. f_equal.
  - destruct b; [|reflexivity]. specialize (H 0%nat eq_refl). simpl in H.
    now injection H as ->.
  - apply IH; [assumption|]. intros j Hj. exact (H (S j) Hj).
Qed.

Lemma spec_scores_row (d_k : nat) (q k : list (list R)) (mask : list (list bool))
    (i : nat) (mi : list bool) :
  length mask = length q -> nth_error mask i = Some mi ->
  exists qi, nth_error q i = Some qi
    /\ nth_error (spec_scores d_k q k mask) i
       = Some (map (fun kb => spec_score d_k qi (fst kb) (snd kb)) (combine k mi)).
Proof.
  unfold spec_scores. revert mask i.
  induction q as [|qi q IH]; intros [|m mask] i Hlen Hi; try discriminate.
  - destruct i; discriminate.
  - injection Hlen as Hlen. destruct i as [|i].
    + injection Hi as ->. exists qi. split; reflexivity.
    + simpl in Hi. destruct (IH mask i Hlen Hi) as [qi' [Hq Hs]].
      exists qi'. split; assumption.
Qed.

Lemma attention_masked_row_ext
    (q k k' v : list (list R)) (mask : list (list bool)) (d i : nat)
    (mi : list bool) (out w out' w' : list (list R)) :
  (0 < d)%nat -> k <> [] ->
  Forall (fun r => length r = d) q ->
  Forall (fun r => length r = d) k -> Forall (fun r => length r = d) k' ->
  length k' = length k ->
  length mask = length q -> Forall (fun r => length r = length k) mask ->
  nth_error mask i = Some mi ->
  (forall j, nth j mi false = true -> nth_error k' j = nth_error k j) ->
  attention 0 q k v (Some mask) None = Ok (out, w) ->
  attention 0 q k' v (Some mask) None = Ok (out', w') ->
  nth_error w' i = nth_error w i /\ nth_error out' i = nth_error out i.
Proof.
  intros Hd Hk Hq Hkd Hkd' Hlen Hml Hmr Hi Hagree H H'.
  assert (Hk' : k' <> []) by (destruct k, k'; try discriminate; congruence).
  destruct (attention_inv H) as [s [Hs [-> Hout]]].
  destruct (attention_inv H') as [s' [Hs' [-> Hout']]].
  rewrite attention_scores_matrix in Hs, Hs'.
  rewrite (matrix_scores_masked q k mask d _ Hd Hk Hq Hkd Hml Hmr) in Hs.
  rewrite (matrix_scores_masked q k' mask d _ Hd Hk' Hq Hkd' Hml) in Hs'
    by now rewrite Hlen.
  apply Ok_inj in Hs, Hs'. subst s s'.
  change (matmul 0) with mm in Hout, Hout'.
  destruct (mm_inv Hout) as [-> _]. destruct (mm_inv Hout') as [-> _].
  change (softmax 1) with (map softmax_row).
  set (W := map softmax_row (spec_scores (size_last 1 q) q k mask)).
  set (W' := map softmax_row (spec_scores (size_last 1 q) q k' mask)).
  assert (Hw : nth_error W' i = nth_error W i).
  { subst W W'. rewrite !nth_error_map.
    destruct (spec_scores_row (size_last 1 q) q k mask i mi Hml Hi) as [qi [Hqi ->]].
    destruct (spec_scores_row (size_last 1 q) q k' mask i mi Hml Hi) as [qi' [Hqi' ->]].
    rewrite Hqi in Hqi'. injection Hqi' as <-.
    now rewrite (masked_row_ext _ qi k k' mi Hlen Hagree). }
  split; [exact Hw|]. now rewrite !nth_error_map, Hw.
Qed.

(** X11.  Masked keys are invisible: on matrices of matching shapes, if two
    key matrices agree at every position that row [i] of the mask allows,
    then [attention] returns the same row [i] of weights and, the values
    being the same, the same row [i] of output. *)
Theorem attention_row_ignores_masked_keys :
  forall (q k k' v : list (list R)) (mask : list (list bool)) (d i : nat)
         (mi : list bool) (out w out' w' : list (list R)),
    (0 < d)%nat -> k <> [] ->
    Forall (fun r => length r = d) q ->
    Forall (fun r => length r = d) k -> Forall (fun r => length r = d) k' ->
    length k' = length k ->
    length mask = length q -> Forall (fun r => length r = length k) mask ->
    nth_error mask i = Some mi ->
    (forall j, nth j mi false = true -> nth_error k' j = nth_error k j) ->
    attention 0 q k v (Some mask) None = Ok (out, w) ->
    attention 0 q k' v (Some mask) None = Ok (out', w') ->
    nth_error w' i = nth_error w i /\ nth_error out' i = nth_error out i.
Proof.
  intros q k k' v mask d i mi out w out' w'. apply attention_masked_row_ext.
Qed.

Lemma attention_row_ignores_masked_keys_witness :
  exists out w out' w',
    attention 0 [[1; 2]; [3; 4]] [[1; 0]; [0; 1]] [[5; 6]; [7; 8]]
      (Some [[true; false]; [true; true]]) None = Ok (out, w)
    /\ attention 0 [[1; 2]; [3; 4]] [[1; 0]; [9; 9]] [[5; 6]; [7; 8]]
         (Some [[true; false]; [true; true]]) None = Ok (out', w')
    /\ nth_error w' 0 = nth_error w 0 /\ nth_error out' 0 = nth_error out 0.
Proof.
  destruct (attention 0 [[1; 2]; [3; 4]] [[1; 0]; [0; 1]] [[5; 6]; [7; 8]]
              (Some [[true; false]; [true; true]]) None) as [[out w]|e] eqn:E;
    [|cbn in E; discriminate].
  destruct (attention 0 [[1; 2]; [3; 4]] [[1; 0]; [9; 9]] [[5; 6]; [7; 8]]
              (Some [[true; false]; [true; true]]) None) as [[out' w']|e] eqn:E';
    [|cbn in E'; discriminate].
  exists out, w, out', w'. split; [reflexivity|]. split; [reflexivity|].
  apply (attention_row_ignores_masked_keys [[1; 2]; [3; 4]] [[1; 0]; [0; 1]]
           [[1; 0]; [9; 9]] [[5; 6]; [7; 8]] [[true; false]; [true; true]]
           2%nat 0%nat [true; false] out w out' w');
    try discriminate; try lia; try reflexivity; try assumption;
    try (repeat constructor).
  intros [|[|j]] Hj; try reflexivity; discriminate.
Defined.

(** ** Causal attention *)

Lemma lower_triangle_shape (n : nat) :
  length (lower_triangle n) = n
  /\ Forall (fun r => length r = n) (lower_triangle n).
Proof.
  unfold lower_triangle. split.
  - now rewrite length_map, length_seq.
  - apply Forall_forall. intros r Hr. apply in_map_iff in Hr as [i [<- _]].
    now rewrite length_map, length_seq.
Qed.

(** X12.  Attention under the mask of [subsequent_mask] is causal: with
    [L] queries and [L] keys, two key matrices that agree on the rows
    [0 .. i] give the same row [i] of weights and, for the same values, the
    same row [i] of output, whatever the later keys are. *)
Theorem causal_attention_ignores_future_keys :
  forall (L : Z) (m : list (list bool)) (q k k' v : list (list R)) (d i : nat)
         (out w out' w' : list (list R)),
    subsequent_mask L = Ok [m] ->
    (0 < d)%nat -> (i < Z.to_nat L)%nat ->
    length q = Z.to_nat L -> length k = Z.to_nat L -> length k' = Z.to_nat L ->
    Forall (fun r => length r = d) q ->
    Forall (fun r => length r = d) k -> Forall (fun r => length r = d) k' ->
    firstn (S i) k' = firstn (S i) k ->
    attention 0 q k v (Some m) None = Ok (out, w) ->
    attention 0 q k' v (Some m) None = Ok (out', w') ->
    nth_error w' i = nth_error w i /\ nth_error out' i = nth_error out i.
Proof.
  intros L m q k k' v d i out w out' w' Hm Hd Hi Hq Hk Hk' Hqd Hkd Hkd' Hpre H H'.
  rewrite subsequent_mask_closed in Hm by lia.
  apply Ok_inj in Hm. injection Hm as <-.
  set (n := Z.to_nat L) in *.
  destruct (lower_triangle_shape n) as [Hlen Hrows].
  destruct (nth_error (lower_triangle n) i) as [mi|] eqn:Hmi.
  2:{ apply nth_error_None in Hmi. lia. }
  assert (Hnth : nth i (lower_triangle n) [] = mi) by now apply nth_error_nth.
  assert (Hmilen : length mi = n).
  { rewrite Forall_forall in Hrows. apply Hrows. eapply nth_error_In. exact Hmi. }
  apply (attention_masked_row_ext q k k' v (lower_triangle n) d i mi out w out' w');
    try assumption.
  - destruct k; [simpl in Hk; lia | discriminate].
  - congruence.
  - congruence.
  - now rewrite Hk.
  - intros j Hj. destruct (Nat.lt_ge_cases j n) as [Hjn|Hjn].
    + rewrite <- Hnth, lower_triangle_nth in Hj by assumption.
      apply Nat.leb_le in Hj.
      assert (E : nth_error (firstn (S i) k') j = nth_error (firstn (S i) k) j)
        by now rewrite Hpre.
      rewrite !nth_error_firstn in E.
      destruct (Nat.ltb_spec j (S i)); [exact E | lia].
    + rewrite nth_overflow in Hj by lia. discriminate.
Qed.

Lemma causal_attention_ignores_future_keys_witness :
  exists m out w out' w',
    subsequent_mask 2 = Ok [m]
    /\ attention 0 [[1; 2]; [3; 4]] [[1; 0]; [0; 1]] [[5; 6]; [7; 8]] (Some m) None
       = Ok (out, w)
    /\ attention 0 [[1; 2]; [3; 4]] [[1; 0]; [9; 9]] [[5; 6]; [7; 8]] (Some m) None
       = Ok (out', w')
    /\ nth_error w' 0 = nth_error w 0 /\ nth_error out' 0 = nth_error out 0.
Proof.
  exists [[true; false]; [true; true]].
  destruct (attention 0 [[1; 2]; [3; 4]] [[1; 0]; [0; 1]] [[5; 6]; [7; 8]]
              (Some [[true; false]; [true; true]]) None) as [[out w]|e] eqn:E;
    [|cbn in E; discriminate].
  destruct (attention 0 [[1; 2]; [3; 4]] [[1; 0]; [9; 9]] [[5; 6]; [7; 8]]
              (Some [[true; false]; [true; true]]) None) as [[out' w']|e] eqn:E';
    [|cbn in E'; discriminate].
  exists out, w, out', w'.
  assert (Hm : subsequent_mask 2 = Ok [[[true; false]; [true; true]]]).
  { rewrite subsequent_mask_closed by lia. reflexivity. }
  split; [exact Hm|]. split; [reflexivity|]. split; [reflexivity|].
  apply (causal_attention_ignores_future_keys 2 [[true; false]; [true; true]]
           [[1; 2]; [3; 4]] [[1; 0]; [0; 1]] [[1; 0]; [9; 9]] [[5; 6]; [7; 8]]
           2%nat 0%nat out w out' w' Hm);
    try reflexivity; try assumption; try lia; repeat constructor.
Defined.

(** ** Moments of a normalised row *)

Lemma combine_repeat_l {A B : Type} (x : A) (l : list B) :
  combine (repeat x (length l)) l = map (fun b => (x, b)) l.
Proof.
  induction l as [|b l IH]; simpl; [reflexivity|]. now rewrite IH.
Qed.

Lemma LayerNorm_init_fresh (features : Z) (eps : option R) (self : LayerNorm.t) :
  LayerNorm.__init__ features eps = Ok self ->
  LayerNorm.a_2 self = repeat 1 (Z.to_nat features)
  /\ LayerNorm.b_2 self = repeat 0 (Z.to_nat features)
  /\ LayerNorm.eps self = match eps with Some e => e | None => 1e-6 end.
Proof.
  unfold LayerNorm.__init__, torch_ones, torch_zeros, torch_full. intros H.
  destruct (forallb _ _ && _)%bool; [|discriminate].
  cbn [bind] in H. apply Ok_inj in H. subst self. cbn. auto.
Qed.

Lemma layer_norm_row_fresh (N : nat) (e : R) (r : list R) :
  length r = N ->
  layer_norm_row (repeat 1 N) (repeat 0 N) e r
  = map (fun x => (x - Rmean r) / (Rstd r + e)) r.
Proof.
  intros <-. unfold layer_norm_row. rewrite combine_repeat_l.
  replace (length r) with (length (map (fun b : R => (1, b)) r)) by apply length_map.
  rewrite combine_repeat_r, !map_map. apply map_ext. intros x. simpl.
  unfold Rdiv. ring.
Qed.

Lemma Rsum_map_centred (m s : R) (r : list R) :
  Rsum (map (fun x => (x - m) / s) r) = (Rsum r - INR (length r) * m) / s.
Proof.
  unfold Rsum. induction r as [|x r IH].
  - simpl. unfold Rdiv. ring.
  - cbn [map fold_right length]. rewrite IH, S_INR. unfold Rdiv. ring.
Qed.

Lemma Rsum_squares_nonneg (m : R) (r : list R) :
  0 <= Rsum (map (fun x => (x - m) * (x - m)) r).
Proof.
  unfold Rsum. induction r as [|x r IH]; simpl; [lra|].
  pose proof (Rle_0_sqr (x - m)) as H. unfold Rsqr in H. lra.
Qed.

Lemma Rsum_map_scaled_squares (m s : R) (r : list R) :
  Rsum (map (fun x => ((x - m) / s - 0) * ((x - m) / s - 0)) r)
  = Rsum (map (fun x => (x - m) * (x - m)) r) * (/ s * / s).
Proof.
  unfold Rsum. induction r as [|x r IH]; simpl; [ring|].
  rewrite IH. unfold Rdiv. ring.
Qed.

Lemma Rstd_nonneg (r : list R) : 0 <= Rstd r.
Proof. apply sqrt_pos. Qed.

Lemma normalised_row_moments (e : R) (r : list R) :
  (2 <= length r)%nat -> 0 < e ->
  let o := map (fun x => (x - Rmean r) / (Rstd r + e)) r in
  Rmean o = 0 /\ Rstd o = Rstd r / (Rstd r + e).
Proof.
  intros Hn He o.
  pose proof (Rstd_nonneg r) as Hs.
  assert (Hpos : 0 < Rstd r + e) by lra.
  assert (Hlen : 2 <= INR (length r)) by (apply (le_INR 2); exact Hn).
  assert (Hmean : Rmean o = 0).
  { unfold Rmean at 1. subst o. rewrite Rsum_map_centred, length_map.
    unfold Rmean. unfold Rdiv.
    replace (Rsum r - INR (length r) * (Rsum r * / INR (length r))) with 0
      by (field; lra).
    ring. }
  split; [exact Hmean|].
  unfold Rstd at 1. rewrite Hmean. subst o.
  rewrite map_map, length_map, Rsum_map_scaled_squares.
  set (A := Rsum (map (fun x => (x - Rmean r) * (x - Rmean r)) r)).
  assert (HA : 0 <= A) by apply Rsum_squares_nonneg.
  replace (A * (/ (Rstd r + e) * / (Rstd r + e)) / (INR (length r) - 1))
    with (A / (INR (length r) - 1) / ((Rstd r + e) * (Rstd r + e)))
    by (field; lra).
  rewrite sqrt_div_alt by (apply Rmult_lt_0_compat; lra).
  rewrite sqrt_square by lra. reflexivity.
Qed.

Lemma Forall2_map_r_in {A B : Type} (P : A -> B -> Prop) (f : A -> B) (l : list A) :
  (forall a, In a l -> P a (f a)) -> Forall2 P l (map f l).
Proof.
  induction l as [|a l IH]; intros H; simpl; constructor.
  - apply H. now left.
  - apply IH. intros b Hb. apply H. now right.
Qed.

(** X13.  In exact arithmetic (the real numbers of this development: no
    rounding, no overflow), a freshly constructed [LayerNorm] (gain one,
    bias zero) with a positive [eps] sends every row of at least two
    features to a row of mean zero whose standard deviation is
    [std / (std + eps)], hence below one. *)
Theorem LayerNorm_fresh_output_moments :
  forall n (features : Z) (eps : option R) (self : LayerNorm.t) (x : tensor R (S n)),
    LayerNorm.__init__ features eps = Ok self ->
    (2 <= features)%Z ->
    0 < LayerNorm.eps self ->
    Forall (fun r => length r = Z.to_nat features) (rows n x) ->
    exists y,
      LayerNorm.forward n self x = Ok y
      /\ Forall2 (fun r o => Rmean o = 0
                             /\ Rstd o = Rstd r / (Rstd r + LayerNorm.eps self)
                             /\ 0 <= Rstd o < 1)
                 (rows n x) (rows n y).
Proof.
  intros n features eps self x Hinit Hf He Hx.
  destruct (LayerNorm_init_fresh _ _ _ Hinit) as [Ha [Hb _]].
  eexists. split.
  - apply LayerNorm_forward_rows.
    + now rewrite Ha, Hb, !repeat_length.
    + now rewrite Ha, repeat_length.
  - rewrite rows_tmap_rows. apply Forall2_map_r_in. intros r Hr.
    rewrite Forall_forall in Hx. pose proof (Hx r Hr) as Hlen.
    rewrite Ha, Hb, (layer_norm_row_fresh _ _ r Hlen).
    destruct (normalised_row_moments (LayerNorm.eps self) r) as [Hm Hs];
      [lia | assumption |].
    split; [exact Hm|]. split; [exact Hs|]. rewrite Hs.
    pose proof (Rstd_nonneg r) as H0.
    split.
    + unfold Rdiv. apply Rmult_le_pos; [lra|]. left. apply Rinv_0_lt_compat. lra.
    + apply (Rmult_lt_reg_r (Rstd r + LayerNorm.eps self)); [lra|].
      unfold Rdiv. rewrite Rmult_assoc, Rinv_l by lra. lra.
Qed.

Lemma LayerNorm_fresh_output_moments_witness :
  exists self y,
    LayerNorm.__init__ 2 None = Ok self
    /\ LayerNorm.forward 0 self [1; 3] = Ok y
    /\ Forall2 (fun r o => Rmean o = 0
                           /\ Rstd o = Rstd r / (Rstd r + LayerNorm.eps self)
                           /\ 0 <= Rstd o < 1)
               [[1; 3]] (rows 0 y).
Proof.
  destruct (LayerNorm.__init__ 2 None) as [self|e] eqn:E; [|cbn in E; discriminate].
  exists self.
  assert (He : 0 < LayerNorm.eps self).
  { destruct (LayerNorm_init_fresh _ _ _ E) as [_ [_ ->]]. lra. }
  destruct (LayerNorm_fresh_output_moments 0 2 None self [1; 3] E) as [y [Hy H]];
    [lia | exact He | repeat constructor |].
  exists y. split; [reflexivity|]. split; [exact Hy | exact H].
Defined.

(** ** Invariance under a shift *)

Lemma Rsum_map_shift (c : R) (r : list R) :
  Rsum (map (fun x => x + c) r) = Rsum r + INR (length r) * c.
Proof.
  unfold Rsum. induction r as [|x r IH].
  - simpl. ring.
  - cbn [map fold_right length]. rewrite IH, S_INR. ring.
Qed.

Lemma Rmean_shift (c : R) (r : list R) :
  r <> [] -> Rmean (map (fun x => x + c) r) = Rmean r + c.
Proof.
  intros Hr. unfold Rmean. rewrite Rsum_map_shift, length_map.
  assert (INR (length r) <> 0).
  { apply not_0_INR. destruct r; [contradiction | discriminate]. }
  field. assumption.
Qed.

Lemma Rstd_shift (c : R) (r : list R) :
  Rstd (map (fun x => x + c) r) = Rstd r.
Proof.
  destruct r as [|x0 r0]; [reflexivity|].
  set (r := x0 :: r0). unfold Rstd.
  rewrite Rmean_shift by discriminate. rewrite map_map, length_map.
  do 3 f_equal. apply map_ext. intros x. ring.
Qed.

Lemma layer_norm_row_shift_stage (a b r : list R) (c m s : R) :
  map (fun axb => fst (fst axb) * (snd (fst axb) - (m + c)) / s + snd axb)
      (combine (combine a (map (fun x => x + c) r)) b)
  = map (fun axb => fst (fst axb) * (snd (fst axb) - m) / s + snd axb)
        (combine (combine a r) b).
Proof.
  revert r b. induction a as [|x a IH]; intros [|y r] [|z b]; simpl; try reflexivity.
  rewrite IH. f_equal. unfold Rdiv. ring.
Qed.

Lemma layer_norm_row_shift (a b : list R) (e c : R) (r : list R) :
  layer_norm_row a b e (map (fun x => x + c) r) = layer_norm_row a b e r.
Proof.
  destruct r as [|x0 r0]; [reflexivity|].
  unfold layer_norm_row. rewrite Rstd_shift, Rmean_shift by discriminate.
  apply layer_norm_row_shift_stage.
Qed.

(** X14.  In exact arithmetic (the real numbers of this development: no
    rounding, no overflow), [LayerNorm.forward] does not see a constant added
    to every entry of its input: on rows of the width of the gain, of at
    least two features, shifting the input by [c] leaves the output
    unchanged. *)
Theorem LayerNorm_forward_shift_invariant :
  forall n (self : LayerNorm.t) (x : tensor R (S n)) (c : R),
    (2 <= length (LayerNorm.a_2 self))%nat ->
    length (LayerNorm.b_2 self) = length (LayerNorm.a_2 self) ->
    Forall (fun r => length r = length (LayerNorm.a_2 self)) (rows n x) ->
    LayerNorm.forward n self (tmap (fun s => s + c) (S n) x)
    = LayerNorm.forward n self x.
Proof.
  intros n self x c _ Hb Hx.
  rewrite (LayerNorm_forward_rows n self x Hb Hx).
  rewrite tmap_as_rows, LayerNorm_forward_rows.
  - rewrite tmap_rows_compose. f_equal. apply tmap_rows_ext.
    intros r. apply layer_norm_row_shift.
  - exact Hb.
  - rewrite rows_tmap_rows. apply Forall_forall. intros r Hr.
    apply in_map_iff in Hr as [r0 [<- Hr0]]. rewrite length_map.
    rewrite Forall_forall in Hx. now apply Hx.
Qed.

Lemma LayerNorm_forward_shift_invariant_witness :
  LayerNorm.forward 1 (LayerNorm.mk [2; 3] [4; 5] 1e-6)
    (tmap (fun s => s + 10) 2 [[1; 3]; [5; 9]])
  = LayerNorm.forward 1 (LayerNorm.mk [2; 3] [4; 5] 1e-6) [[1; 3]; [5; 9]].
Proof.
  apply (LayerNorm_forward_shift_invariant 1 (LayerNorm.mk [2; 3] [4; 5] 1e-6)
           [[1; 3]; [5; 9]] 10).
  - simpl. lia.
  - reflexivity.
  - repeat constructor.
Defined.

(** ** Construction of the positional encoding *)

Lemma repeat_as_map {A : Type} (x : A) (n : nat) :
  repeat x n = map (fun _ => x) (seq 0 n).
Proof.
  generalize 0%nat. induction n as [|n IH]; intros s; simpl; [reflexivity|].
  now rewrite <- IH.
Qed.

Lemma combine_map_self {A B C : Type} (f : A -> B) (g : A -> C) (l : list A) :
  combine (map f l) (map g l) = map (fun x => (f x, g x)) l.
Proof.
  induction l as [|a l IH]; simpl; [reflexivity|]. now rewrite IH.
Qed.

Lemma combine_self_map {A B : Type} (f : A -> B) (l : list A) :
  combine l (map f l) = map (fun x => (x, f x)) l.
Proof.
  induction l as [|a l IH]; simpl; [reflexivity|]. now rewrite IH.
Qed.

Lemma nth_map_seq (g : nat -> R) (c i : nat) :
  (i < c)%nat -> nth i (map g (seq 0 c)) 0 = g i.
Proof.
  intros Hi. rewrite (nth_indep _ 0 (g 0%nat)) by now rewrite length_map, length_seq.
  rewrite (map_nth g). now rewrite seq_nth.
Qed.

Lemma half_slice_bound (d start j : nat) :
  (j < d)%nat -> (start <= j)%nat -> ((j - start) / 2 < (d - start + 1) / 2)%nat.
Proof.
  intros Hj Hs.
  pose proof (Nat.div_mod_eq (j - start) 2) as E1.
  pose proof (Nat.mod_upper_bound (j - start) 2) as B1.
  pose proof (Nat.div_mod_eq (d - start + 1) 2) as E2.
  pose proof (Nat.mod_upper_bound (d - start + 1) 2) as B2.
  lia.
Qed.

Lemma assign_row_closed (start d c : nat) (f g : nat -> R) :
  c = ((d - start + 1) / 2)%nat ->
  PositionalEncoding.assign_row start (map f (seq 0 d)) (map g (seq 0 c))
  = Ok (map (fun j => if (start <=? j)%nat && Nat.even (j - start)
                      then g ((j - start) / 2)%nat else f j)
            (seq 0 d)).
Proof.
  intros Hc. unfold PositionalEncoding.assign_row.
  rewrite !length_map, !length_seq, <- Hc, Nat.eqb_refl.
  f_equal. rewrite combine_self_map, map_map. apply map_ext_in.
  intros j Hj. apply in_seq in Hj. cbn [fst snd].
  destruct (Nat.leb_spec start j) as [Hs|Hs]; [|reflexivity].
  destruct (Nat.even (j - start)); [|reflexivity]. cbn [andb].
  apply nth_map_seq. rewrite Hc. apply half_slice_bound; lia.
Qed.

Lemma assign_row_mismatch (start d c : nat) (f g : nat -> R) :
  c <> ((d - start + 1) / 2)%nat -> c <> 1%nat ->
  PositionalEncoding.assign_row start (map f (seq 0 d)) (map g (seq 0 c))
  = Err RuntimeError.
Proof.
  intros Hc H1. unfold PositionalEncoding.assign_row.
  rewrite !length_map, !length_seq.
  destruct (Nat.eqb_spec c ((d - start + 1) / 2)); [contradiction|].
  destruct (Nat.eqb_spec c 1); [contradiction|]. reflexivity.
Qed.

Lemma assign_cols_closed (start d c m : nat) (f g : nat -> nat -> R) :
  c = ((d - start + 1) / 2)%nat ->
  PositionalEncoding.assign_cols start
    (map (fun pos => map (f pos) (seq 0 d)) (seq 0 m))
    (map (fun pos => map (g pos) (seq 0 c)) (seq 0 m))
  = Ok (map (fun pos =>
               map (fun j => if (start <=? j)%nat && Nat.even (j - start)
                             then g pos ((j - start) / 2)%nat else f pos j)
                   (seq 0 d))
            (seq 0 m)).
Proof.
  intros Hc. unfold PositionalEncoding.assign_cols.
  rewrite combine_map_self, mapM_map.
  rewrite (mapM_ext _ (fun pos => Ok (map (fun j =>
             if (start <=? j)%nat && Nat.even (j - start)
             then g pos ((j - start) / 2)%nat else f pos j) (seq 0 d)))).
  - apply mapM_Ok.
  - intros pos _. cbn [fst snd]. now apply assign_row_closed.
Qed.

Lemma assign_cols_mismatch (start d c m : nat) (f g : nat -> nat -> R) :
  c <> ((d - start + 1) / 2)%nat -> c <> 1%nat -> (0 < m)%nat ->
  PositionalEncoding.assign_cols start
    (map (fun pos => map (f pos) (seq 0 d)) (seq 0 m))
    (map (fun pos => map (g pos) (seq 0 c)) (seq 0 m))
  = Err RuntimeError.
Proof.
  intros Hc H1 Hm. unfold PositionalEncoding.assign_cols.
  rewrite combine_map_self, mapM_map.
  destruct m as [|m]; [lia|]. cbn [seq mapM fst snd].
  now rewrite assign_row_mismatch.
Qed.

(** The construction up to the assignment of the cosines. *)
Lemma PositionalEncoding_init_stages (d_model : Z) (p : R) (max_len : option Z)
    (keep : list nat -> bool) :
  (0 < d_model)%Z -> 0 <= p <= 1 -> (0 <= default_max_len max_len)%Z ->
  let d := Z.to_nat d_model in
  let m := Z.to_nat (default_max_len max_len) in
  let wave (t : R -> R) (pos i : nat) :=
    t (INR pos * exp (INR (2 * i) * - (ln 10000 / IZR d_model))) in
  PositionalEncoding.__init__ d_model p max_len keep
  = (pe <- PositionalEncoding.assign_cols 1
             (map (fun pos => map (fun j => if Nat.even j then wave sin pos (j / 2)%nat
                                            else 0)
                                  (seq 0 d))
                  (seq 0 m))
             (map (fun pos => map (wave cos pos) (seq 0 ((d + 1) / 2))) (seq 0 m)) ;;
     Ok (PositionalEncoding.mk (nn.Dropout.mk p true keep) [pe])).
Proof.
  intros Hd Hp Hm d m wave. unfold PositionalEncoding.__init__.
  fold (default_max_len max_len).
  rewrite (Dropout_init_valid p keep Hp). cbn [bind].
  unfold torch_zeros, torch_full.
  replace (forallb (fun z => (0 <=? z)%Z) [default_max_len max_len; d_model]) with true
    by (symmetry; apply forallb_forall; intros z [<-|[<-|[]]]; apply Z.leb_le; lia).
  cbn [andb length Nat.eqb bind].
  destruct (Z.eqb_spec d_model 0) as [|_]; [lia|]. cbn [bind].
  change (tfull 0 2 (map Z.to_nat [default_max_len max_len; d_model]))
    with (repeat (repeat 0 d) m).
  unfold PositionalEncoding.arange_step2. fold d m.
  assert (Hwave : forall t : R -> R,
             map (map t)
                 (map (fun q => map (fun dv => q * dv)
                                    (map (fun i => exp (i * - (ln 10000 / IZR d_model)))
                                         (map (fun i => INR (2 * i)) (seq 0 ((d + 1) / 2)))))
                      (map INR (seq 0 m)))
             = map (fun pos => map (wave t pos) (seq 0 ((d + 1) / 2))) (seq 0 m)).
  { intros t. rewrite !map_map. apply map_ext. intros pos.
    rewrite !map_map. reflexivity. }
  rewrite !Hwave.
  rewrite (repeat_as_map (repeat 0 d) m), (repeat_as_map 0 d).
  rewrite (assign_cols_closed 0 d ((d + 1) / 2) m (fun _ _ => 0) (wave sin))
    by now rewrite Nat.sub_0_r.
  cbn [bind]. do 2 f_equal.
  apply map_ext. intros pos. apply map_ext. intros j.
  now rewrite Nat.sub_0_r.
Qed.

Lemma half_succ_even (j : nat) : Nat.even j = true -> (S j / 2 = j / 2)%nat.
Proof.
  intros H. apply Nat.even_spec in H as [a ->].
  replace (S (2 * a)) with (1 + a * 2)%nat by lia.
  rewrite Nat.div_add by lia. replace (2 * a)%nat with (a * 2)%nat by lia.
  now rewrite Nat.div_mul by lia.
Qed.

(** X15.  For an even positive [d_model], a dropout rate in [[0, 1]] and a
    table length that is not negative, [PositionalEncoding.__init__]
    succeeds and its buffer [pe] is the sinusoidal table: row [pos] has
    [sin (pos * exp (2i * - (ln 10000 / d_model)))] in column [2i] and the
    cosine of the same angle in column [2i + 1]. *)
Theorem PositionalEncoding_init_table :
  forall (k : Z) (p : R) (max_len : option Z) (keep : list nat -> bool),
    (0 < k)%Z -> 0 <= p <= 1 -> (0 <= default_max_len max_len)%Z ->
    PositionalEncoding.__init__ (2 * k) p max_len keep
    = Ok (PositionalEncoding.mk (nn.Dropout.mk p true keep)
            [pe_table (2 * k) (Z.to_nat (default_max_len max_len))]).
Proof.
  intros k p max_len keep Hk Hp Hm.
  rewrite PositionalEncoding_init_stages by (assumption || lia).
  set (d := Z.to_nat (2 * k)). set (m := Z.to_nat (default_max_len max_len)).
  assert (Hc : ((d + 1) / 2 = (d - 1 + 1) / 2)%nat).
  { assert (Hd : d = (Z.to_nat k * 2)%nat) by (subst d; lia).
    rewrite Hd. replace (Z.to_nat k * 2 - 1 + 1)%nat with (Z.to_nat k * 2)%nat by lia.
    replace (Z.to_nat k * 2 + 1)%nat with (1 + Z.to_nat k * 2)%nat by lia.
    rewrite Nat.div_add, Nat.div_mul by lia. reflexivity. }
  rewrite (assign_cols_closed 1 d ((d + 1) / 2) m _ _ Hc). cbn [bind].
  do 3 f_equal. unfold pe_table. fold d.
  apply map_ext. intros pos. apply map_ext. intros j. unfold pe_entry.
  destruct j as [|j]; [reflexivity|].
  change (1 <=? S j)%nat with true. cbn [andb].
  replace (S j - 1)%nat with j by lia.
  rewrite Nat.even_succ, <- Nat.negb_even.
  destruct (Nat.even j) eqn:Hj; cbn [negb].
  - now rewrite (half_succ_even j Hj).
  - reflexivity.
Qed.

Lemma PositionalEncoding_init_table_witness :
  PositionalEncoding.__init__ 2 0.1 (Some 3%Z) (fun _ => true)
  = Ok (PositionalEncoding.mk (nn.Dropout.mk 0.1 true (fun _ => true))
          [pe_table 2 3]).
Proof.
  apply (PositionalEncoding_init_table 1 0.1 (Some 3%Z) (fun _ => true)).
  - lia.
  - lra.
  - unfold default_max_len. lia.
Defined.

Lemma PositionalEncoding_init_even (k : Z) (p : R) (max_len : option Z)
    (keep : list nat -> bool) :
  (0 < k)%Z -> 0 <= p <= 1 -> (0 <= default_max_len max_len)%Z ->
  exists table,
    PositionalEncoding.__init__ (2 * k) p max_len keep
    = Ok (PositionalEncoding.mk (nn.Dropout.mk p true keep) [table]).
Proof.
  intros Hk Hp Hm.
  rewrite PositionalEncoding_init_stages by (assumption || lia).
  set (d := Z.to_nat (2 * k)).
  assert (Hc : ((d + 1) / 2 = (d - 1 + 1) / 2)%nat).
  { assert (Hd : d = (Z.to_nat k * 2)%nat) by (subst d; lia).
    rewrite Hd. replace (Z.to_nat k * 2 - 1 + 1)%nat with (Z.to_nat k * 2)%nat by lia.
    replace (Z.to_nat k * 2 + 1)%nat with (1 + Z.to_nat k * 2)%nat by lia.
    rewrite Nat.div_add, Nat.div_mul by lia. reflexivity. }
  rewrite (assign_cols_closed 1 d ((d + 1) / 2) _ _ _ Hc). cbn [bind]. eauto.
Qed.

Lemma PositionalEncoding_init_odd (k : Z) (p : R) (max_len : option Z)
    (keep : list nat -> bool) :
  (1 <= k)%Z -> 0 <= p <= 1 -> (1 <= default_max_len max_len)%Z ->
  PositionalEncoding.__init__ (2 * k + 1) p max_len keep = Err RuntimeError.
Proof.
  intros Hk Hp Hm.
  rewrite PositionalEncoding_init_stages by (assumption || lia).
  set (d := Z.to_nat (2 * k + 1)).
  assert (Hd : d = (1 + Z.to_nat k * 2)%nat) by (subst d; lia).
  assert (H1 : ((d + 1) / 2 = Z.to_nat k + 1)%nat).
  { rewrite Hd. replace (1 + Z.to_nat k * 2 + 1)%nat with ((Z.to_nat k + 1) * 2)%nat by lia.
    now rewrite Nat.div_mul by lia. }
  assert (H2 : ((d - 1 + 1) / 2 = Z.to_nat k)%nat).
  { rewrite Hd. replace (1 + Z.to_nat k * 2 - 1 + 1)%nat with (1 + Z.to_nat k * 2)%nat by lia.
    rewrite Nat.div_add by lia. reflexivity. }
  rewrite assign_cols_mismatch; [reflexivity | | |]; lia.
Qed.

(** X16.  [PositionalEncoding.__init__] raises [ZeroDivisionError] for
    [d_model = 0], and [RuntimeError] for an odd [d_model] of at least three
    with a table of at least one row: the slice of odd columns is one column
    narrower than the cosines assigned to it. *)
Theorem PositionalEncoding_init_rejects_odd_d_model :
  forall (p : R) (max_len : option Z) (keep : list nat -> bool),
    0 <= p <= 1 ->
    ((0 <= default_max_len max_len)%Z ->
     PositionalEncoding.__init__ 0 p max_len keep = Err ZeroDivisionError)
    /\ (forall k : Z, (1 <= k)%Z -> (1 <= default_max_len max_len)%Z ->
          PositionalEncoding.__init__ (2 * k + 1) p max_len keep = Err RuntimeError).
Proof.
  intros p max_len keep Hp. split.
  - intros Hm. unfold PositionalEncoding.__init__. fold (default_max_len max_len).
    rewrite (Dropout_init_valid p keep Hp). cbn [bind].
    unfold torch_zeros, torch_full.
    replace (forallb (fun z => (0 <=? z)%Z) [default_max_len max_len; 0%Z]) with true
      by (symmetry; apply forallb_forall; intros z [<-|[<-|[]]]; apply Z.leb_le; lia).
    reflexivity.
  - intros k Hk Hm. now apply PositionalEncoding_init_odd.
Qed.

Lemma PositionalEncoding_init_rejects_odd_d_model_witness :
  PositionalEncoding.__init__ 0 0.1 None (fun _ => true) = Err ZeroDivisionError
  /\ PositionalEncoding.__init__ 3 0.1 None (fun _ => true) = Err RuntimeError.
Proof.
  assert (Hp : 0 <= 0.1 <= 1) by lra.
  destruct (PositionalEncoding_init_rejects_odd_d_model 0.1 None (fun _ => true) Hp)
    as [H0 H3].
  split.
  - apply H0. unfold default_max_len. lia.
  - apply (H3 1%Z); unfold default_max_len; lia.
Defined.

(** ** Chunks and views *)

Lemma firstn_length_app {A : Type} (c r : list A) : firstn (length c) (c ++ r) = c.
Proof.
  induction c as [|x c IH]; simpl; [reflexivity|]. now rewrite IH.
Qed.

Lemma skipn_length_app {A : Type} (c r : list A) : skipn (length c) (c ++ r) = r.
Proof.
  induction c as [|x c IH]; simpl; [reflexivity|]. exact IH.
Qed.

Lemma chunks_concat {A : Type} (s : nat) (l : list (list A)) :
  Forall (fun c => length c = s) l -> chunks (length l) s (concat l) = l.
Proof.
  induction 1 as [|c l Hc _ IH]; simpl; [reflexivity|].
  rewrite <- Hc at 1 3. rewrite firstn_length_app, skipn_length_app.
  now rewrite IH.
Qed.

Lemma length_concat_uniform {A : Type} (s : nat) (l : list (list A)) :
  Forall (fun c => length c = s) l -> length (concat l) = (length l * s)%nat.
Proof.
  induction 1 as [|c l Hc _ IH]; simpl; [reflexivity|].
  rewrite length_app, IH, Hc. reflexivity.
Qed.

Lemma nth_chunks {A : Type} (n s t : nat) (d : list A) :
  (t < n)%nat -> nth t (chunks n s d) [] = firstn s (skipn (t * s) d).
Proof.
  revert t d. induction n as [|n IH]; intros t d Ht; [lia|].
  destruct t as [|t]; simpl; [reflexivity|].
  rewrite IH by lia. now rewrite skipn_skipn, Nat.add_comm.
Qed.

Lemma chunks_as_map {A : Type} (n s : nat) (d : list A) :
  chunks n s d = map (fun t => firstn s (skipn (t * s) d)) (seq 0 n).
Proof.
  revert d. induction n as [|n IH]; intros d; [reflexivity|].
  cbn [chunks seq map]. f_equal. rewrite IH, <- seq_shift, map_map.
  apply map_ext. intros t. now rewrite skipn_skipn, Nat.add_comm.
Qed.

Lemma flatten_1 {A : Type} (r : list A) : flatten 1 r = r.
Proof.
  induction r as [|x r IH]; [reflexivity|].
  change (flatten 1 (x :: r)) with (x :: flatten 1 r). now rewrite IH.
Qed.

Lemma flatten_2 {A : Type} (m : list (list A)) : flatten 2 m = concat m.
Proof.
  change (flatten 2 m) with (flat_map (flatten 1) m).
  rewrite flat_map_concat_map. f_equal. rewrite <- (map_id m) at 2.
  apply map_ext. intros r. apply flatten_1.
Qed.

Lemma filter_of_nat (ds : list nat) :
  filter (fun d => negb (d =? -1)%Z) (map Z.of_nat ds) = map Z.of_nat ds.
Proof.
  induction ds as [|d ds IH]; simpl; [reflexivity|].
  destruct (Z.eqb_spec (Z.of_nat d) (-1)); [lia|]. simpl. now rewrite IH.
Qed.

Lemma existsb_of_nat (ds : list nat) :
  existsb (fun d => d <? -1)%Z (map Z.of_nat ds) = false.
Proof.
  induction ds as [|d ds IH]; simpl; [reflexivity|].
  destruct (Z.ltb_spec (Z.of_nat d) (-1)); [lia|]. exact IH.
Qed.

Lemma map_to_nat_of_nat (ds : list nat) : map Z.to_nat (map Z.of_nat ds) = ds.
Proof.
  rewrite map_map. rewrite <- (map_id ds) at 2. apply map_ext. intros d. apply Nat2Z.id.
Qed.

Lemma map_infer_of_nat (x : nat) (ds : list nat) :
  map (fun d => if (d =? -1)%Z then x else Z.to_nat d) (map Z.of_nat ds) = ds.
Proof.
  rewrite map_map. rewrite <- (map_id ds) at 2. apply map_ext. intros d.
  destruct (Z.eqb_spec (Z.of_nat d) (-1)); [lia|]. apply Nat2Z.id.
Qed.

(** The size [-1] in second place is inferred from the number of elements. *)
Lemma infer_shape_second (B L : nat) (ds : list nat) (numel : nat) :
  (0 < B)%nat -> (0 < nat_prod ds)%nat ->
  numel = (L * (B * nat_prod ds))%nat ->
  infer_shape numel (Z.of_nat B :: (-1)%Z :: map Z.of_nat ds) = Ok (B :: L :: ds).
Proof.
  intros HB Hds Hn. unfold infer_shape.
  cbn [filter existsb map]. change (-1 =? -1)%Z with true.
  change (-1 <? -1)%Z with false. cbn [negb orb].
  destruct (Z.eqb_spec (Z.of_nat B) (-1)); [lia|].
  destruct (Z.ltb_spec (Z.of_nat B) (-1)); [lia|].
  cbn [negb orb map]. rewrite filter_of_nat, existsb_of_nat, map_to_nat_of_nat, Nat2Z.id.
  replace (length (Z.of_nat B :: (-1)%Z :: map Z.of_nat ds)
           - length (B :: ds))%nat with 1%nat
    by (cbn [length]; rewrite length_map; lia).
  change (nat_prod (B :: ds)) with (B * nat_prod ds)%nat.
  destruct (Nat.eqb_spec (B * nat_prod ds) 0) as [E|_]; [nia|].
  rewrite Hn, Nat.Div0.mod_mul, Nat.eqb_refl, Nat.div_mul by nia.
  now rewrite map_infer_of_nat.
Qed.

(** [y.view(B, -1, h, d_k)] cuts every row of a [(B, L, h * d_k)] tensor
    into [h] pieces of length [d_k]. *)
Lemma view_split {A : Type} (B L h d_k : nat) (y : tensor A 3) :
  (0 < B)%nat -> (0 < h)%nat -> (0 < d_k)%nat ->
  length y = B ->
  Forall (fun yb => length yb = L /\ Forall (fun r => length r = (h * d_k)%nat) yb) y ->
  view 3 [Z.of_nat B; -1; Z.of_nat h; Z.of_nat d_k]%Z 3 y
  = Ok (map (map (chunks h d_k)) y).
Proof.
  intros HB Hh Hd Hlen Hy. unfold view. cbn [length Nat.eqb].
  assert (Hflat : flatten 3 y = concat (map (@concat A) y)).
  { change (flatten 3 y) with (flat_map (flatten 2) y).
    rewrite flat_map_concat_map. f_equal. apply map_ext. intros m. apply flatten_2. }
  assert (Hbatch : Forall (fun c => length c = (L * (h * d_k))%nat) (map (@concat A) y)).
  { apply Forall_forall. intros c Hc. apply in_map_iff in Hc as [yb [<- Hyb]].
    rewrite Forall_forall in Hy. destruct (Hy yb Hyb) as [HL Hr].
    now rewrite (length_concat_uniform (h * d_k)), HL. }
  rewrite Hflat.
  rewrite (infer_shape_second B L [h; d_k]).
  - cbn [bind]. f_equal.
    change (unflatten 3 [B; L; h; d_k] (concat (map (@concat A) y)))
      with (map (fun d => map (fun r => map (fun c : list A => c) (chunks h (d_k * 1) r))
                              (chunks L (h * (d_k * 1)) d))
                (chunks B (L * (h * (d_k * 1))) (concat (map (@concat A) y)))).
    rewrite Nat.mul_1_r.
    replace B with (length (map (@concat A) y)) at 1 by now rewrite length_map.
    rewrite (chunks_concat _ _ Hbatch), map_map.
    apply map_ext_in. intros yb Hyb.
    rewrite Forall_forall in Hy. destruct (Hy yb Hyb) as [HL Hr].
    rewrite <- HL, (chunks_concat _ _ Hr).
    apply map_ext. intros r. apply map_id.
  - assumption.
  - cbn [nat_prod fold_right]. nia.
  - rewrite (length_concat_uniform _ _ Hbatch), length_map, Hlen.
    cbn [nat_prod fold_right]. nia.
Qed.

(** [x.view(B, -1, h * d_k)] concatenates the [h] pieces of every position
    of a [(B, L, h, d_k)] tensor. *)
Lemma view_merge {A : Type} (B L h d_k : nat) (x : tensor A 4) :
  (0 < B)%nat -> (0 < h)%nat -> (0 < d_k)%nat ->
  length x = B ->
  Forall (fun xb => length xb = L
                    /\ Forall (fun pos => length pos = h
                                          /\ Forall (fun c => length c = d_k) pos) xb) x ->
  view 2 [Z.of_nat B; -1; Z.of_nat h * Z.of_nat d_k]%Z 4 x
  = Ok (map (map (@concat A)) x).
Proof.
  intros HB Hh Hd Hlen Hx. unfold view. cbn [length Nat.eqb].
  rewrite <- Nat2Z.inj_mul.
  assert (Hflat : flatten 4 x = concat (map (fun xb => concat (map (@concat A) xb)) x)).
  { change (flatten 4 x) with (flat_map (flat_map (flatten 2)) x).
    rewrite flat_map_concat_map. f_equal. apply map_ext. intros xb.
    rewrite flat_map_concat_map. f_equal. apply map_ext. intros m. apply flatten_2. }
  assert (Hpos : forall xb, In xb x ->
             length xb = L
             /\ Forall (fun c => length c = (h * d_k)%nat) (map (@concat A) xb)).
  { intros xb Hxb. rewrite Forall_forall in Hx. destruct (Hx xb Hxb) as [HL Hp].
    split; [assumption|]. apply Forall_forall. intros c Hc.
    apply in_map_iff in Hc as [pos [<- Hin]].
    rewrite Forall_forall in Hp. destruct (Hp pos Hin) as [Hph Hpc].
    now rewrite (length_concat_uniform d_k), Hph. }
  assert (Hbatch : Forall (fun c => length c = (L * (h * d_k))%nat)
                          (map (fun xb => concat (map (@concat A) xb)) x)).
  { apply Forall_forall. intros c Hc. apply in_map_iff in Hc as [xb [<- Hxb]].
    destruct (Hpos xb Hxb) as [HL Hr].
    now rewrite (length_concat_uniform (h * d_k)), length_map, HL. }
  rewrite Hflat.
  change [Z.of_nat B; (-1)%Z; Z.of_nat (h * d_k)]
    with (Z.of_nat B :: (-1)%Z :: map Z.of_nat [(h * d_k)%nat]).
  rewrite (infer_shape_second B L [(h * d_k)%nat]).
  - cbn [bind]. f_equal.
    change (unflatten 2 [B; L; (h * d_k)%nat]
              (concat (map (fun xb => concat (map (@concat A) xb)) x)))
      with (map (fun d => map (fun c : list A => c) (chunks L (h * d_k * 1) d))
                (chunks B (L * (h * d_k * 1))
                        (concat (map (fun xb => concat (map (@concat A) xb)) x)))).
    rewrite Nat.mul_1_r.
    replace B with (length (map (fun xb => concat (map (@concat A) xb)) x)) at 1
      by now rewrite length_map.
    rewrite (chunks_concat _ _ Hbatch), map_map.
    apply map_ext_in. intros xb Hxb. destruct (Hpos xb Hxb) as [HL Hr].
    rewrite map_id. replace L with (length (map (@concat A) xb))
      by now rewrite length_map.
    apply (chunks_concat _ _ Hr).
  - assumption.
  - cbn [nat_prod fold_right]. nia.
  - rewrite (length_concat_uniform _ _ Hbatch), length_map, Hlen.
    cbn [nat_prod fold_right]. nia.
Qed.

(** ** Transposition by columns *)

Lemma list_as_map_nth {A : Type} (d0 : A) (r : list A) :
  r = map (fun j => nth j r d0) (seq 0 (length r)).
Proof.
  induction r as [|x r IH]; [reflexivity|].
  cbn [length seq map nth]. f_equal. rewrite <- seq_shift, map_map. exact IH.
Qed.

Lemma fold_zip_cons_closed {A : Type} (d0 : A) (c : nat) (m : list (list A)) :
  Forall (fun r => length r = c) m ->
  fold_right zip_cons (repeat [] c) m
  = map (fun j => map (fun r => nth j r d0) m) (seq 0 c).
Proof.
  induction 1 as [|r m Hr _ IH]; cbn [fold_right].
  - apply repeat_as_map.
  - rewrite IH. unfold zip_cons. rewrite (list_as_map_nth d0 r) at 1.
    rewrite Hr, combine_map_self, map_map. reflexivity.
Qed.

Lemma transpose_rect {A : Type} (d0 : A) (c : nat) (m : list (list A)) :
  m <> [] -> Forall (fun r => length r = c) m ->
  transpose m = map (fun j => map (fun r => nth j r d0) m) (seq 0 c).
Proof.
  intros Hm Hc. rewrite <- (transpose_fold m c Hm Hc).
  now apply fold_zip_cons_closed.
Qed.

(** ** Multi-head attention, head by head *)

Lemma head_shape (h d_k t : nat) (m : list (list R)) :
  Forall (fun r => length r = (h * d_k)%nat) m -> (t < h)%nat ->
  length (head d_k t m) = length m
  /\ Forall (fun r => length r = d_k) (head d_k t m).
Proof.
  intros Hm Ht. unfold head. split; [apply length_map|].
  apply Forall_forall. intros r Hr. apply in_map_iff in Hr as [r0 [<- Hr0]].
  rewrite Forall_forall in Hm. rewrite length_firstn, length_skipn, (Hm r0 Hr0). nia.
Qed.

Lemma Forall_rows_2 {A : Type} (P : list A -> Prop) (x : tensor A 3) :
  Forall (Forall P) x -> Forall P (rows 2 x).
Proof.
  intros H. change (rows 2 x) with (flat_map (flat_map (fun r : list A => [r])) x).
  apply Forall_flat_map. eapply Forall_impl; [|exact H].
  intros b Hb. apply Forall_flat_map. eapply Forall_impl; [|exact Hb].
  intros r Hr. now constructor.
Qed.

Lemma chunks_length {A : Type} (n s : nat) (d : list A) : length (chunks n s d) = n.
Proof. rewrite chunks_as_map. now rewrite length_map, length_seq. Qed.

(** The three projections of [MultiHeadedAttention.forward]: a linear
    layer, the view that separates the heads, and the transposition that
    brings the heads before the positions. *)
Lemma project_heads (l : nn.Linear.t) (h d_k L nb : nat) (x : tensor R 3) :
  (0 < h)%nat -> (0 < d_k)%nat -> (0 < L)%nat -> (0 < nb)%nat -> length x = nb ->
  nn.Linear.in_features l = (h * d_k)%nat ->
  length (nn.Linear.weight l) = (h * d_k)%nat ->
  length (nn.Linear.bias l) = (h * d_k)%nat ->
  Forall (fun xb => length xb = L /\ Forall (fun r => length r = (h * d_k)%nat) xb) x ->
  (y <- nn.Linear.forward 2 l x ;;
   y <- view 3 [Z.of_nat nb; -1; Z.of_nat h; Z.of_nat d_k]%Z 3 y ;;
   Ok (transpose_1_2 y))
  = Ok (map (fun xb => map (fun t => head d_k t (map (linear_row l) xb)) (seq 0 h)) x).
Proof.
  intros Hh Hd HL Hnb Hx Hin Hw Hb Hshape.
  rewrite Linear_forward_rows.
  2:{ apply Forall_rows_2. eapply Forall_impl; [|exact Hshape].
      intros xb [_ Hr]. now rewrite Hin. }
  cbn [bind]. change (tmap_rows (linear_row l) 2 x) with (map (map (linear_row l)) x).
  assert (Hrow : forall r, length (linear_row l r) = (h * d_k)%nat).
  { intros r. rewrite linear_row_length, Hw, Hb. apply Nat.min_id. }
  rewrite (view_split nb L h d_k).
  - cbn [bind]. f_equal. unfold transpose_1_2. rewrite !map_map.
    apply map_ext_in. intros xb Hxb.
    rewrite Forall_forall in Hshape. destruct (Hshape xb Hxb) as [HLb _].
    rewrite (transpose_rect [] h).
    + apply map_ext_in. intros t Ht. apply in_seq in Ht.
      unfold head. rewrite !map_map. apply map_ext. intros r.
      apply nth_chunks. lia.
    + destruct xb; [simpl in HLb; lia | discriminate].
    + apply Forall_forall. intros c Hc. apply in_map_iff in Hc as [r [<- _]].
      apply chunks_length.
  - assumption.
  - assumption.
  - assumption.
  - now rewrite length_map.
  - apply Forall_forall. intros yb Hyb. apply in_map_iff in Hyb as [xb [<- Hxb]].
    rewrite Forall_forall in Hshape. destruct (Hshape xb Hxb) as [HLb _].
    split; [now rewrite length_map|].
    apply Forall_forall. intros r Hr. apply in_map_iff in Hr as [r0 [<- _]].
    apply Hrow.
Qed.

(** A product of two tensors of rank four whose matrices are indexed by a
    batch element and a head. *)
Lemma matmul_heads {A B : Type} (h : nat) (X : list A) (Y : list B)
    (fx : A -> nat -> list (list R)) (fy : B -> nat -> list (list R))
    (G : A -> B -> nat -> list (list R)) :
  length X = length Y ->
  (forall x y t, In (x, y) (combine X Y) -> (t < h)%nat ->
                 mm (fx x t) (fy y t) = Ok (G x y t)) ->
  matmul 2 (map (fun x => map (fx x) (seq 0 h)) X) (map (fun y => map (fy y) (seq 0 h)) Y)
  = Ok (map (fun p => map (G (fst p) (snd p)) (seq 0 h)) (combine X Y)).
Proof.
  intros Hlen Hmm. change (matmul 2) with (bzip (bzip mm)).
  rewrite bzip_same_length by now rewrite !length_map.
  rewrite combine_map_both, mapM_map.
  rewrite (mapM_ext _ (fun p => Ok (map (G (fst p) (snd p)) (seq 0 h)))).
  - apply mapM_Ok.
  - intros [x y] Hin. cbn [fst snd].
    rewrite bzip_same_length by now rewrite !length_map.
    rewrite combine_map_self, mapM_map.
    rewrite (mapM_ext _ (fun t => Ok (G x y t))).
    + apply mapM_Ok.
    + intros t Ht. apply in_seq in Ht. cbn [fst snd]. apply Hmm; [assumption | lia].
Qed.

Lemma spec_weights_unmasked_shape (d_k : nat) (Q K : list (list R)) :
  length (spec_weights_unmasked d_k Q K) = length Q
  /\ Forall (fun w => length w = length K) (spec_weights_unmasked d_k Q K).
Proof.
  unfold spec_weights_unmasked, spec_scores_unmasked. split.
  - now rewrite !length_map.
  - apply Forall_forall. intros w Hw. apply in_map_iff in Hw as [s [<- Hs]].
    apply in_map_iff in Hs as [qi [<- _]].
    now rewrite softmax_row_length, length_map.
Qed.

(** Attention on tensors of rank four whose matrices are indexed by a batch
    element and a head, without mask and with dropout in evaluation mode:
    every head of every batch element attends on its own. *)
Lemma attention_heads (h d_k : nat) (drop : nn.Dropout.t) (q k v : list (list (list R)))
    (FQ FK FV : list (list R) -> nat -> list (list R)) :
  (0 < h)%nat -> (0 < d_k)%nat -> q <> [] ->
  length k = length q -> length v = length q ->
  nn.Dropout.training drop = false ->
  (forall qb t, In qb q -> (t < h)%nat ->
                FQ qb t <> [] /\ Forall (fun r => length r = d_k) (FQ qb t)) ->
  (forall kb t, In kb k -> (t < h)%nat ->
                FK kb t <> [] /\ Forall (fun r => length r = d_k) (FK kb t)) ->
  (forall kb vb t, In (kb, vb) (combine k v) -> (t < h)%nat ->
                   length (FV vb t) = length (FK kb t)) ->
  attention 2 (map (fun qb => map (FQ qb) (seq 0 h)) q)
              (map (fun kb => map (FK kb) (seq 0 h)) k)
              (map (fun vb => map (FV vb) (seq 0 h)) v)
              None (Some (nn.Dropout.forward 4 drop))
  = Ok (map (fun qkv => map (fun t => map (fun wi => map (dot wi) (transpose (FV (snd qkv) t)))
                                          (spec_weights_unmasked d_k (FQ (fst (fst qkv)) t)
                                                                 (FK (snd (fst qkv)) t)))
                            (seq 0 h))
            (combine (combine q k) v),
        map (fun qk => map (fun t => spec_weights_unmasked d_k (FQ (fst qk) t) (FK (snd qk) t))
                           (seq 0 h))
            (combine q k)).
Proof.
  intros Hh Hd Hq Hk Hv Heval HQ HK HV. unfold attention.
  assert (Hsize : size_last 3 (map (fun qb => map (FQ qb) (seq 0 h)) q) = d_k).
  { destruct q as [|qb q']; [contradiction|].
    destruct h as [|h']; [lia|].
    destruct (HQ qb 0%nat (or_introl eq_refl)) as [Hne Hrows]; [lia|].
    cbn [map seq size_last]. destruct (FQ qb 0%nat) as [|r m]; [contradiction|].
    now inversion Hrows. }
  rewrite Hsize.
  change (tmap_mats (@transpose R) 2 (map (fun kb => map (FK kb) (seq 0 h)) k))
    with (map (map (@transpose R)) (map (fun kb => map (FK kb) (seq 0 h)) k)).
  rewrite map_map.
  rewrite (map_ext (fun kb => map (@transpose R) (map (FK kb) (seq 0 h)))
                   (fun kb => map (fun t => transpose (FK kb t)) (seq 0 h)))
    by (intros kb; apply map_map).
  rewrite (matmul_heads h q k FQ (fun kb t => transpose (FK kb t))
             (fun qb kb t => map (fun qi => map (dot qi) (FK kb t)) (FQ qb t)))
    by (try (now symmetry);
        intros qb kb t Hin Ht;
        destruct (HQ qb t (in_combine_l _ _ _ _ Hin) Ht) as [_ HQr];
        destruct (HK kb t (in_combine_r _ _ _ _ Hin) Ht) as [HKne HKr];
        now apply (mm_transpose _ _ d_k)).
  cbn [bind].
  change (tmap (fun s => s / sqrt (INR d_k)) 4) with
    (map (map (map (map (fun s : R => s / sqrt (INR d_k))))) : tensor R 4 -> tensor R 4).
  change (softmax 3) with (map (map (map softmax_row)) : tensor R 4 -> tensor R 4).
  rewrite Dropout_forward_eval by assumption.
  rewrite !map_map.
  rewrite (map_ext
             (fun p : list (list R) * list (list R) =>
                map (map softmax_row)
                    (map (map (map (fun s : R => s / sqrt (INR d_k))))
                         (map (fun t => map (fun qi => map (dot qi) (FK (snd p) t))
                                            (FQ (fst p) t))
                              (seq 0 h))))
             (fun p => map (fun t => spec_weights_unmasked d_k (FQ (fst p) t) (FK (snd p) t))
                           (seq 0 h))).
  2:{ intros p. rewrite !map_map. apply map_ext. intros t.
      unfold spec_weights_unmasked, spec_scores_unmasked. rewrite !map_map.
      apply map_ext. intros qi. now rewrite map_map. }
  rewrite (matmul_heads h (combine q k) v
             (fun p t => spec_weights_unmasked d_k (FQ (fst p) t) (FK (snd p) t))
             FV
             (fun p vb t => map (fun wi => map (dot wi) (transpose (FV vb t)))
                                (spec_weights_unmasked d_k (FQ (fst p) t) (FK (snd p) t)))).
  - reflexivity.
  - rewrite length_combine, Hk, Hv. apply Nat.min_id.
  - intros [qb kb] vb t Hin Ht. cbn [fst snd]. apply mm_rect.
    destruct (spec_weights_unmasked_shape d_k (FQ qb t) (FK kb t)) as [_ Hw].
    assert (Hkv : In (kb, vb) (combine k v)).
    { clear - Hin. revert k v Hin.
      induction q as [|q0 q IH]; intros [|k0 k] [|v0 v] Hin; simpl in Hin;
        try contradiction.
      destruct Hin as [E|Hin]; [inversion E; now left | right; now apply IH]. }
    rewrite (HV kb vb t Hkv Ht). exact Hw.
Qed.

Lemma spec_weights_shape (d_k : nat) (Q K : list (list R)) (m : list (list bool)) :
  length m = length Q -> Forall (fun r => length r = length K) m ->
  length (spec_weights d_k Q K m) = length Q
  /\ Forall (fun w => length w = length K) (spec_weights d_k Q K m).
Proof.
  intros Hm Hr. unfold spec_weights, spec_scores. split.
  - rewrite !length_map, length_combine, Hm. apply Nat.min_id.
  - apply Forall_forall. intros w Hw. apply in_map_iff in Hw as [s [<- Hs]].
    apply in_map_iff in Hs as [[qi mi] [<- Hin]]. cbn [fst snd].
    rewrite softmax_row_length, length_map, length_combine.
    rewrite Forall_forall in Hr. rewrite (Hr mi (in_combine_r _ _ _ _ Hin)).
    apply Nat.min_id.
Qed.

Lemma masked_scores (d d_k : nat) (Q K : list (list R)) (m : list (list bool)) :
  (0 < d)%nat -> K <> [] ->
  Forall (fun r => length r = d) Q -> Forall (fun r => length r = d) K ->
  length m = length Q -> Forall (fun r => length r = length K) m ->
  masked_fill 2 (map (map (fun s => s / sqrt (INR d_k)))
                     (map (fun qi => map (dot qi) K) Q))
              (map (map negb) m) (-1e9)
  = Ok (spec_scores d_k Q K m).
Proof.
  intros Hd HK HQ HKr Hm Hmr.
  pose proof (matrix_scores_masked Q K m d d_k Hd HK HQ HKr Hm Hmr) as H.
  unfold matrix_scores in H. rewrite (mm_transpose Q K d Hd HK HQ HKr) in H.
  exact H.
Qed.

(** The same with a mask of shape [(B, Lq, Lk)], which [unsqueeze(1)] makes
    common to the heads of a batch element. *)
Lemma attention_heads_masked (h d_k : nat) (drop : nn.Dropout.t)
    (q k v : list (list (list R))) (masks : list (list (list bool)))
    (FQ FK FV : list (list R) -> nat -> list (list R)) :
  (0 < h)%nat -> (0 < d_k)%nat -> q <> [] ->
  length k = length q -> length v = length q -> length masks = length q ->
  nn.Dropout.training drop = false ->
  (forall qb t, In qb q -> (t < h)%nat ->
                FQ qb t <> [] /\ Forall (fun r => length r = d_k) (FQ qb t)) ->
  (forall kb t, In kb k -> (t < h)%nat ->
                FK kb t <> [] /\ Forall (fun r => length r = d_k) (FK kb t)) ->
  (forall kb vb t, In (kb, vb) (combine k v) -> (t < h)%nat ->
                   length (FV vb t) = length (FK kb t)) ->
  (forall qb kb m t, In (qb, kb, m) (combine (combine q k) masks) -> (t < h)%nat ->
                     length m = length (FQ qb t)
                     /\ Forall (fun r => length r = length (FK kb t)) m) ->
  attention 2 (map (fun qb => map (FQ qb) (seq 0 h)) q)
              (map (fun kb => map (FK kb) (seq 0 h)) k)
              (map (fun vb => map (FV vb) (seq 0 h)) v)
              (Some (unsqueeze_1 masks)) (Some (nn.Dropout.forward 4 drop))
  = Ok (map (fun x => map (fun t => map (fun wi => map (dot wi) (transpose (FV (snd x) t)))
                                        (spec_weights d_k (FQ (fst (fst (fst x))) t)
                                                      (FK (snd (fst (fst x))) t)
                                                      (snd (fst x))))
                          (seq 0 h))
            (combine (combine (combine q k) masks) v),
        map (fun x => map (fun t => spec_weights d_k (FQ (fst (fst x)) t) (FK (snd (fst x)) t)
                                                 (snd x))
                          (seq 0 h))
            (combine (combine q k) masks)).
Proof.
  intros Hh Hd Hq Hk Hv Hm Heval HQ HK HV HM. unfold attention.
  assert (Hsize : size_last 3 (map (fun qb => map (FQ qb) (seq 0 h)) q) = d_k).
  { destruct q as [|qb q']; [contradiction|].
    destruct h as [|h']; [lia|].
    destruct (HQ qb 0%nat (or_introl eq_refl)) as [Hne Hrows]; [lia|].
    cbn [map seq size_last]. destruct (FQ qb 0%nat) as [|r m]; [contradiction|].
    now inversion Hrows. }
  rewrite Hsize.
  change (tmap_mats (@transpose R) 2 (map (fun kb => map (FK kb) (seq 0 h)) k))
    with (map (map (@transpose R)) (map (fun kb => map (FK kb) (seq 0 h)) k)).
  rewrite map_map.
  rewrite (map_ext (fun kb => map (@transpose R) (map (FK kb) (seq 0 h)))
                   (fun kb => map (fun t => transpose (FK kb t)) (seq 0 h)))
    by (intros kb; apply map_map).
  rewrite (matmul_heads h q k FQ (fun kb t => transpose (FK kb t))
             (fun qb kb t => map (fun qi => map (dot qi) (FK kb t)) (FQ qb t)))
    by (try (now symmetry);
        intros qb kb t Hin Ht;
        destruct (HQ qb t (in_combine_l _ _ _ _ Hin) Ht) as [_ HQr];
        destruct (HK kb t (in_combine_r _ _ _ _ Hin) Ht) as [HKne HKr];
        now apply (mm_transpose _ _ d_k)).
  cbn [bind].
  change (tmap (fun s => s / sqrt (INR d_k)) 4) with
    (map (map (map (map (fun s : R => s / sqrt (INR d_k))))) : tensor R 4 -> tensor R 4).
  change (tmap negb 4 (unsqueeze_1 masks))
    with (map (map (map (map negb))) (map (fun m : list (list bool) => [m]) masks)).
  unfold masked_fill.
  change (broadcast2 (fun (x : R) (b : bool) => if b then -1e9 else x) 4)
    with (bzip (bzip (fun (a : list (list R)) (b : list (list bool)) =>
                        masked_fill 2 a b (-1e9)))).
  rewrite !map_map. cbn [map].
  rewrite bzip_same_length
    by (rewrite !length_map, length_combine, Hk, Hm; apply Nat.min_id).
  rewrite combine_map_both, mapM_map.
  rewrite (mapM_ext _ (fun x => Ok (map (fun t => spec_scores d_k (FQ (fst (fst x)) t)
                                                   (FK (snd (fst x)) t) (snd x))
                                        (seq 0 h)))).
  2:{ intros [[qb kb] m] Hin. cbn [fst snd].
      rewrite bzip_single_r, !mapM_map.
      change (tensor R 2) with (list (list R)).
      rewrite (mapM_ext _ (fun t => Ok (spec_scores d_k (FQ qb t) (FK kb t) m)));
        [apply mapM_Ok|].
      intros t Ht. apply in_seq in Ht.
      pose proof (in_combine_l _ _ _ _ Hin) as Hqk.
      destruct (HQ qb t (in_combine_l _ _ _ _ Hqk)) as [_ HQr]; [lia|].
      destruct (HK kb t (in_combine_r _ _ _ _ Hqk)) as [HKne HKr]; [lia|].
      destruct (HM qb kb m t Hin) as [Hml Hmr]; [lia|].
      now apply (masked_scores d_k). }
  rewrite mapM_Ok. cbn [bind].
  change (softmax 3) with (map (map (map softmax_row)) : tensor R 4 -> tensor R 4).
  rewrite Dropout_forward_eval by assumption.
  rewrite !map_map.
  rewrite (map_ext
             (fun x : list (list R) * list (list R) * list (list bool) =>
                map (map softmax_row)
                    (map (fun t => spec_scores d_k (FQ (fst (fst x)) t)
                                               (FK (snd (fst x)) t) (snd x))
                         (seq 0 h)))
             (fun x => map (fun t => spec_weights d_k (FQ (fst (fst x)) t)
                                                  (FK (snd (fst x)) t) (snd x))
                           (seq 0 h)))
    by (intros x; now rewrite map_map).
  rewrite (matmul_heads h (combine (combine q k) masks) v
             (fun x t => spec_weights d_k (FQ (fst (fst x)) t) (FK (snd (fst x)) t) (snd x))
             FV
             (fun x vb t => map (fun wi => map (dot wi) (transpose (FV vb t)))
                                (spec_weights d_k (FQ (fst (fst x)) t)
                                              (FK (snd (fst x)) t) (snd x)))).
  - reflexivity.
  - rewrite !length_combine, Hk, Hm, Hv, !Nat.min_id. reflexivity.
  - intros [[qb kb] m] vb t Hin Ht. cbn [fst snd]. apply mm_rect.
    pose proof (in_combine_l _ _ _ _ Hin) as Hqkm.
    destruct (HM qb kb m t Hqkm Ht) as [Hml Hmr].
    destruct (spec_weights_shape d_k (FQ qb t) (FK kb t) m Hml Hmr) as [_ Hw].
    assert (Hkv : In (kb, vb) (combine k v)).
    { clear - Hin. revert k masks v Hin.
      induction q as [|q0 q IH]; intros [|k0 k] [|m0 masks] [|v0 v] Hin; simpl in Hin;
        try contradiction.
      destruct Hin as [E|Hin]; [inversion E; now left | right; now apply (IH k masks)]. }
    rewrite (HV kb vb t Hkv Ht). exact Hw.
Qed.

Lemma in_combine3 {A B C : Type} (q : list A) (k : list B) (v : list C) a b c :
  In (a, b, c) (combine (combine q k) v) ->
  In a q /\ In b k /\ In c v /\ In (a, b) (combine q k).
Proof.
  revert k v. induction q as [|q0 q IH]; intros [|k0 k] [|v0 v] Hin; simpl in Hin;
    try contradiction.
  destruct Hin as [E|Hin].
  - inversion E; subst. simpl. repeat split; now left.
  - destruct (IH k v Hin) as [H1 [H2 [H3 H4]]]. simpl. repeat split; now right.
Qed.

(** The heads are brought back behind the positions and concatenated. *)
Lemma merge_heads {BT : Type} (BS : list BT) (O : BT -> nat -> list (list R))
    (h d_k Lq nb : nat) :
  (0 < h)%nat -> (0 < d_k)%nat -> (0 < nb)%nat -> length BS = nb ->
  (forall b t, In b BS -> (t < h)%nat ->
               length (O b t) = Lq /\ Forall (fun r => length r = d_k) (O b t)) ->
  view 2 [Z.of_nat nb; -1; Z.of_nat h * Z.of_nat d_k]%Z 4
       (transpose_1_2 (map (fun b => map (O b) (seq 0 h)) BS))
  = Ok (map (fun b => concat_heads Lq (map (O b) (seq 0 h))) BS).
Proof.
  intros Hh Hd Hnb Hlen HO.
  assert (Htr : transpose_1_2 (map (fun b => map (O b) (seq 0 h)) BS)
                = map (fun b => map (fun i => map (fun t => nth i (O b t) []) (seq 0 h))
                                    (seq 0 Lq))
                      BS).
  { unfold transpose_1_2. rewrite map_map. apply map_ext_in. intros b Hin.
    rewrite (transpose_rect [] Lq).
    - apply map_ext. intros i. now rewrite map_map.
    - destruct h; [lia | discriminate].
    - apply Forall_forall. intros m Hm. apply in_map_iff in Hm as [t [<- Ht]].
      apply in_seq in Ht. apply HO; [assumption | lia]. }
  rewrite Htr. rewrite (view_merge nb Lq h d_k); try assumption.
  - f_equal. rewrite map_map. apply map_ext. intros b.
    unfold concat_heads. rewrite map_map. apply map_ext. intros i.
    now rewrite map_map.
  - now rewrite length_map.
  - apply Forall_forall. intros xb Hxb. apply in_map_iff in Hxb as [b [<- Hin]].
    split; [now rewrite length_map, length_seq|].
    apply Forall_forall. intros pos Hpos. apply in_map_iff in Hpos as [i [<- Hi]].
    apply in_seq in Hi. split; [now rewrite length_map, length_seq|].
    apply Forall_forall. intros c Hc. apply in_map_iff in Hc as [t [<- Ht]].
    apply in_seq in Ht. destruct (HO b t Hin) as [HL Hr]; [lia|].
    rewrite Forall_forall in Hr. apply Hr. apply nth_In. lia.
Qed.

Lemma project_merged {BT : Type} (BS : list BT) (O : BT -> nat -> list (list R))
    (lo : nn.Linear.t) (h d_k Lq : nat) :
  nn.Linear.in_features lo = (h * d_k)%nat ->
  (forall b t, In b BS -> (t < h)%nat ->
               length (O b t) = Lq /\ Forall (fun r => length r = d_k) (O b t)) ->
  nn.Linear.forward 2 lo (map (fun b => concat_heads Lq (map (O b) (seq 0 h))) BS)
  = Ok (map (fun b => map (linear_row lo) (concat_heads Lq (map (O b) (seq 0 h)))) BS).
Proof.
  intros Hlo HO. rewrite Linear_forward_rows.
  - change (tmap_rows (linear_row lo) 2) with (map (map (linear_row lo))).
    now rewrite map_map.
  - apply Forall_rows_2. apply Forall_forall. intros xb Hxb.
    apply in_map_iff in Hxb as [b [<- Hin]].
    apply Forall_forall. intros r Hr. unfold concat_heads in Hr.
    apply in_map_iff in Hr as [i [<- Hi]]. apply in_seq in Hi.
    rewrite Hlo, (length_concat_uniform d_k); [now rewrite !length_map, length_seq|].
    apply Forall_forall. intros c Hc. rewrite map_map in Hc.
    apply in_map_iff in Hc as [t [<- Ht]].
    apply in_seq in Ht. destruct (HO b t Hin) as [HL Hr]; [lia|].
    rewrite Forall_forall in Hr. apply Hr. apply nth_In. lia.
Qed.

(** The shapes of a head cut from projected rows. *)
Lemma projected_head_shape (l : nn.Linear.t) (h d_k L t : nat)
    (x : list (list (list R))) (xb : list (list R)) :
  length (nn.Linear.weight l) = (h * d_k)%nat ->
  length (nn.Linear.bias l) = (h * d_k)%nat ->
  Forall (fun b => length b = L /\ Forall (fun r => length r = (h * d_k)%nat) b) x ->
  In xb x -> (t < h)%nat ->
  length (head d_k t (map (linear_row l) xb)) = L
  /\ Forall (fun r => length r = d_k) (head d_k t (map (linear_row l) xb)).
Proof.
  intros Hw Hb Sx Hin Ht.
  assert (Hrow : Forall (fun r => length r = (h * d_k)%nat) (map (linear_row l) xb)).
  { apply Forall_forall. intros r Hr. apply in_map_iff in Hr as [r0 [<- _]].
    rewrite linear_row_length, Hw, Hb. apply Nat.min_id. }
  destruct (head_shape h d_k t (map (linear_row l) xb) Hrow Ht) as [Hlen Hr].
  rewrite Forall_forall in Sx. destruct (Sx xb Hin) as [HL _].
  split; [now rewrite Hlen, length_map | assumption].
Qed.

Lemma nonempty_of_length {A : Type} (m : list A) (L : nat) :
  length m = L -> (0 < L)%nat -> m <> [].
Proof. intros Hm HL ->. simpl in Hm. lia. Qed.

(** X17.  Multi-head attention, head by head.  For a module with [h] heads
    of width [d_k], four linear layers of width [h * d_k] and dropout in
    evaluation mode, without mask, on batches of non-empty sequences of
    rows of width [h * d_k]: [MultiHeadedAttention.forward] computes, for
    every batch element, scaled dot-product attention separately on the
    columns [t * d_k .. (t+1) * d_k - 1] of the projected query, key and
    value for each head [t], concatenates the head outputs position by
    position and applies the last linear layer; it stores the weights of
    all the heads in [attn]. *)
Theorem MultiHeadedAttention_forward_heads :
  forall (self : MultiHeadedAttention.t) (lq lk lv lo : nn.Linear.t)
         (h d_k Lq Lk : nat) (q k v : list (list (list R))),
    MultiHeadedAttention.h self = Z.of_nat h ->
    MultiHeadedAttention.d_k self = Z.of_nat d_k ->
    (0 < h)%nat -> (0 < d_k)%nat ->
    MultiHeadedAttention.linears self = [lq; lk; lv; lo] ->
    Forall (fun l => nn.Linear.in_features l = (h * d_k)%nat
                     /\ length (nn.Linear.weight l) = (h * d_k)%nat
                     /\ length (nn.Linear.bias l) = (h * d_k)%nat) [lq; lk; lv] ->
    nn.Linear.in_features lo = (h * d_k)%nat ->
    nn.Dropout.training (MultiHeadedAttention.dropout self) = false ->
    q <> [] -> length k = length q -> length v = length q ->
    (0 < Lq)%nat -> (0 < Lk)%nat ->
    Forall (fun b => length b = Lq /\ Forall (fun r => length r = (h * d_k)%nat) b) q ->
    Forall (fun b => length b = Lk /\ Forall (fun r => length r = (h * d_k)%nat) b) k ->
    Forall (fun b => length b = Lk /\ Forall (fun r => length r = (h * d_k)%nat) b) v ->
    MultiHeadedAttention.forward self q k v None
    = Ok (map (fun x => mha_batch (spec_weights_unmasked d_k) h d_k lq lk lv lo
                                  (fst (fst x)) (snd (fst x)) (snd x))
              (combine (combine q k) v),
          MultiHeadedAttention.set_attn self
            (map (fun x => mha_weights (spec_weights_unmasked d_k) h d_k lq lk
                                       (fst x) (snd x))
                 (combine q k))).
Proof.
  intros self lq lk lv lo h d_k Lq Lk q k v Hh Hdk Hh0 Hd0 Hlin Hls Hlo Heval
         Hq Hk Hv HLq HLk Sq Sk Sv.
  inversion Hls as [|? ? [Hq1 [Hq2 Hq3]] Hls1]; subst.
  inversion Hls1 as [|? ? [Hk1 [Hk2 Hk3]] Hls2]; subst.
  inversion Hls2 as [|? ? [Hv1 [Hv2 Hv3]] _]; subst.
  assert (Hnb : (0 < length q)%nat) by (destruct q; [contradiction | simpl; lia]).
  set (FQ := fun (qb : list (list R)) t => head d_k t (map (linear_row lq) qb)).
  set (FK := fun (kb : list (list R)) t => head d_k t (map (linear_row lk) kb)).
  set (FV := fun (vb : list (list R)) t => head d_k t (map (linear_row lv) vb)).
  unfold MultiHeadedAttention.forward. cbn [option_map].
  rewrite Hlin, Hh, Hdk. cbn [combine mapM fst snd].
  rewrite (project_heads lq h d_k Lq (length q) q) by (assumption || reflexivity).
  cbn [bind].
  rewrite (project_heads lk h d_k Lk (length q) k) by assumption.
  cbn [bind].
  rewrite (project_heads lv h d_k Lk (length q) v) by assumption.
  cbn [bind].
  rewrite (attention_heads h d_k _ q k v FQ FK FV); try assumption.
  2:{ intros qb t Hin Ht.
      destruct (projected_head_shape lq h d_k Lq t q qb Hq2 Hq3 Sq Hin Ht) as [HL Hr].
      split; [now apply (nonempty_of_length _ Lq) | assumption]. }
  2:{ intros kb t Hin Ht.
      destruct (projected_head_shape lk h d_k Lk t k kb Hk2 Hk3 Sk Hin Ht) as [HL Hr].
      split; [now apply (nonempty_of_length _ Lk) | assumption]. }
  2:{ intros kb vb t Hin Ht.
      destruct (projected_head_shape lk h d_k Lk t k kb Hk2 Hk3 Sk
                  (in_combine_l _ _ _ _ Hin) Ht) as [HL _].
      destruct (projected_head_shape lv h d_k Lk t v vb Hv2 Hv3 Sv
                  (in_combine_r _ _ _ _ Hin) Ht) as [HL' _].
      unfold FV, FK. now rewrite HL, HL'. }
  cbn [bind MultiHeadedAttention.set_attn MultiHeadedAttention.h
       MultiHeadedAttention.d_k MultiHeadedAttention.linears].
  rewrite Hlin, Hh, Hdk.
  set (O := fun (x : list (list R) * list (list R) * list (list R)) t =>
              map (fun wi => map (dot wi) (transpose (FV (snd x) t)))
                  (spec_weights_unmasked d_k (FQ (fst (fst x)) t) (FK (snd (fst x)) t))).
  assert (HO : forall x t, In x (combine (combine q k) v) -> (t < h)%nat ->
             length (O x t) = Lq
             /\ Forall (fun r => length r = d_k) (O x t)
             /\ O x t
                = map (fun wi => weighted_sum d_k wi (FV (snd x) t))
                      (spec_weights_unmasked d_k (FQ (fst (fst x)) t)
                                             (FK (snd (fst x)) t))).
  { intros [[qb kb] vb] t Hin Ht. cbn [fst snd] in *.
    destruct (in_combine3 _ _ _ _ _ _ Hin) as [Iq [Ik [Iv _]]].
    destruct (projected_head_shape lq h d_k Lq t q qb Hq2 Hq3 Sq Iq Ht) as [HLq' _].
    destruct (projected_head_shape lk h d_k Lk t k kb Hk2 Hk3 Sk Ik Ht) as [HLk' _].
    destruct (projected_head_shape lv h d_k Lk t v vb Hv2 Hv3 Sv Iv Ht) as [HLv' HVr].
    destruct (spec_weights_unmasked_shape d_k (FQ qb t) (FK kb t)) as [HWl HWr].
    unfold O. cbn [fst snd]. split; [|split].
    - rewrite length_map, HWl. exact HLq'.
    - apply Forall_forall. intros r Hr. apply in_map_iff in Hr as [wi [<- _]].
      rewrite length_map. apply transpose_length; [|exact HVr].
      now apply (nonempty_of_length _ Lk).
    - apply map_ext_in. intros wi Hwi. apply weighted_sum_transpose.
      + now apply (nonempty_of_length _ Lk).
      + exact HVr.
      + rewrite Forall_forall in HWr. rewrite (HWr wi Hwi). unfold FK, FV.
        now rewrite HLk', HLv'. }
  assert (Hlen3 : length (combine (combine q k) v) = length q).
  { rewrite !length_combine, Hk, Hv, !Nat.min_id. reflexivity. }
  assert (HO' : forall x t, In x (combine (combine q k) v) -> (t < h)%nat ->
              length (O x t) = Lq /\ Forall (fun r => length r = d_k) (O x t)).
  { intros x t Hin Ht. destruct (HO x t Hin Ht) as [H1 [H2 _]]. now split. }
  change (transpose_1_2 _)
    with (transpose_1_2 (map (fun x => map (O x) (seq 0 h)) (combine (combine q k) v))).
  rewrite (merge_heads _ O h d_k Lq (length q) Hh0 Hd0 Hnb Hlen3 HO').
  cbn [bind]. change (getitem [lq; lk; lv; lo] (-1)) with (Ok lo). cbn [bind].
  rewrite (project_merged _ O lo h d_k Lq Hlo HO').
  cbn [bind]. f_equal. f_equal.
  apply map_ext_in. intros [[qb kb] vb] Hin.
  destruct (in_combine3 _ _ _ _ _ _ Hin) as [Iq _].
  cbn [fst snd]. unfold mha_batch. f_equal.
  rewrite Forall_forall in Sq. destruct (Sq qb Iq) as [-> _]. f_equal.
  apply map_ext_in. intros t Ht. apply in_seq in Ht.
  destruct (HO (qb, kb, vb) t Hin) as [_ [_ E]]; [lia|]. exact E.
Qed.

Lemma MultiHeadedAttention_forward_heads_witness :
  MultiHeadedAttention.forward
    (MultiHeadedAttention.mk 1 2
       [nn.Linear.mk 2 2 [[1; 0]; [0; 1]] [0; 0]; nn.Linear.mk 2 2 [[1; 0]; [0; 1]] [0; 0];
        nn.Linear.mk 2 2 [[1; 0]; [0; 1]] [0; 0]; nn.Linear.mk 2 2 [[1; 0]; [0; 1]] [0; 0]]
       None (nn.Dropout.mk 0.1 false (fun _ => true)))
    [[[1; 2]; [3; 4]]] [[[1; 2]; [3; 4]]] [[[1; 2]; [3; 4]]] None
  = Ok (map (fun x => mha_batch (spec_weights_unmasked 1) 2 1
                                (nn.Linear.mk 2 2 [[1; 0]; [0; 1]] [0; 0])
                                (nn.Linear.mk 2 2 [[1; 0]; [0; 1]] [0; 0])
                                (nn.Linear.mk 2 2 [[1; 0]; [0; 1]] [0; 0])
                                (nn.Linear.mk 2 2 [[1; 0]; [0; 1]] [0; 0])
                                (fst (fst x)) (snd (fst x)) (snd x))
            (combine (combine [[[1; 2]; [3; 4]]] [[[1; 2]; [3; 4]]]) [[[1; 2]; [3; 4]]]),
        MultiHeadedAttention.set_attn
          (MultiHeadedAttention.mk 1 2
             [nn.Linear.mk 2 2 [[1; 0]; [0; 1]] [0; 0];
              nn.Linear.mk 2 2 [[1; 0]; [0; 1]] [0; 0];
              nn.Linear.mk 2 2 [[1; 0]; [0; 1]] [0; 0];
              nn.Linear.mk 2 2 [[1; 0]; [0; 1]] [0; 0]]
             None (nn.Dropout.mk 0.1 false (fun _ => true)))
          (map (fun x => mha_weights (spec_weights_unmasked 1) 2 1
                                     (nn.Linear.mk 2 2 [[1; 0]; [0; 1]] [0; 0])
                                     (nn.Linear.mk 2 2 [[1; 0]; [0; 1]] [0; 0])
                                     (fst x) (snd x))
               (combine [[[1; 2]; [3; 4]]] [[[1; 2]; [3; 4]]]))).
Proof.
  apply (MultiHeadedAttention_forward_heads _ _ _ _ _ 2 1 2 2);
    try reflexivity; try lia; try discriminate;
    repeat (constructor; try (split; [reflexivity|])); try reflexivity;
    repeat constructor.
Defined.

(** X18.  Multi-head attention under a mask of shape [(B, Lq, Lk)], for
    the same modules and inputs: [unsqueeze(1)] makes the mask of a batch
    element common to its heads, so every head of a batch element computes
    its weights from its own columns of the projected query and key under
    the mask of that batch element; the outputs are concatenated and
    projected as without a mask. *)
Theorem MultiHeadedAttention_forward_heads_masked :
  forall (self : MultiHeadedAttention.t) (lq lk lv lo : nn.Linear.t)
         (h d_k Lq Lk : nat) (q k v : list (list (list R)))
         (masks : list (list (list bool))),
    MultiHeadedAttention.h self = Z.of_nat h ->
    MultiHeadedAttention.d_k self = Z.of_nat d_k ->
    (0 < h)%nat -> (0 < d_k)%nat ->
    MultiHeadedAttention.linears self = [lq; lk; lv; lo] ->
    Forall (fun l => nn.Linear.in_features l = (h * d_k)%nat
                     /\ length (nn.Linear.weight l) = (h * d_k)%nat
                     /\ length (nn.Linear.bias l) = (h * d_k)%nat) [lq; lk; lv] ->
    nn.Linear.in_features lo = (h * d_k)%nat ->
    nn.Dropout.training (MultiHeadedAttention.dropout self) = false ->
    q <> [] -> length k = length q -> length v = length q -> length masks = length q ->
    (0 < Lq)%nat -> (0 < Lk)%nat ->
    Forall (fun b => length b = Lq /\ Forall (fun r => length r = (h * d_k)%nat) b) q ->
    Forall (fun b => length b = Lk /\ Forall (fun r => length r = (h * d_k)%nat) b) k ->
    Forall (fun b => length b = Lk /\ Forall (fun r => length r = (h * d_k)%nat) b) v ->
    Forall (fun m => length m = Lq /\ Forall (fun r => length r = Lk) m) masks ->
    MultiHeadedAttention.forward self q k v (Some masks)
    = Ok (map (fun x => mha_batch (fun Q K => spec_weights d_k Q K (snd (fst x)))
                                  h d_k lq lk lv lo
                                  (fst (fst (fst x))) (snd (fst (fst x))) (snd x))
              (combine (combine (combine q k) masks) v),
          MultiHeadedAttention.set_attn self
            (map (fun x => mha_weights (fun Q K => spec_weights d_k Q K (snd x))
                                       h d_k lq lk (fst (fst x)) (snd (fst x)))
                 (combine (combine q k) masks))).
Proof.
  intros self lq lk lv lo h d_k Lq Lk q k v masks Hh Hdk Hh0 Hd0 Hlin Hls Hlo Heval
         Hq Hk Hv Hm HLq HLk Sq Sk Sv Sm.
  inversion Hls as [|? ? [Hq1 [Hq2 Hq3]] Hls1]; subst.
  inversion Hls1 as [|? ? [Hk1 [Hk2 Hk3]] Hls2]; subst.
  inversion Hls2 as [|? ? [Hv1 [Hv2 Hv3]] _]; subst.
  assert (Hnb : (0 < length q)%nat) by (destruct q; [contradiction | simpl; lia]).
  set (FQ := fun (qb : list (list R)) t => head d_k t (map (linear_row lq) qb)).
  set (FK := fun (kb : list (list R)) t => head d_k t (map (linear_row lk) kb)).
  set (FV := fun (vb : list (list R)) t => head d_k t (map (linear_row lv) vb)).
  unfold MultiHeadedAttention.forward. cbn [option_map].
  rewrite Hlin, Hh, Hdk. cbn [combine mapM fst snd].
  rewrite (project_heads lq h d_k Lq (length q) q) by (assumption || reflexivity).
  cbn [bind].
  rewrite (project_heads lk h d_k Lk (length q) k) by assumption.
  cbn [bind].
  rewrite (project_heads lv h d_k Lk (length q) v) by assumption.
  cbn [bind].
  assert (HM : forall qb kb m t, In (qb, kb, m) (combine (combine q k) masks) ->
             (t < h)%nat ->
             length m = length (FQ qb t)
             /\ Forall (fun r => length r = length (FK kb t)) m).
  { intros qb kb m t Hin Ht.
    destruct (in_combine3 _ _ _ _ _ _ Hin) as [Iq [Ik [Im _]]].
    destruct (projected_head_shape lq h d_k Lq t q qb Hq2 Hq3 Sq Iq Ht) as [HLq' _].
    destruct (projected_head_shape lk h d_k Lk t k kb Hk2 Hk3 Sk Ik Ht) as [HLk' _].
    rewrite Forall_forall in Sm. destruct (Sm m Im) as [Hml Hmr].
    unfold FQ, FK. rewrite HLq', HLk'. now split. }
  rewrite (attention_heads_masked h d_k _ q k v masks FQ FK FV); try assumption.
  2:{ intros qb t Hin Ht.
      destruct (projected_head_shape lq h d_k Lq t q qb Hq2 Hq3 Sq Hin Ht) as [HL Hr].
      split; [now apply (nonempty_of_length _ Lq) | assumption]. }
  2:{ intros kb t Hin Ht.
      destruct (projected_head_shape lk h d_k Lk t k kb Hk2 Hk3 Sk Hin Ht) as [HL Hr].
      split; [now apply (nonempty_of_length _ Lk) | assumption]. }
  2:{ intros kb vb t Hin Ht.
      destruct (projected_head_shape lk h d_k Lk t k kb Hk2 Hk3 Sk
                  (in_combine_l _ _ _ _ Hin) Ht) as [HL _].
      destruct (projected_head_shape lv h d_k Lk t v vb Hv2 Hv3 Sv
                  (in_combine_r _ _ _ _ Hin) Ht) as [HL' _].
      unfold FV, FK. now rewrite HL, HL'. }
  cbn [bind MultiHeadedAttention.set_attn MultiHeadedAttention.h
       MultiHeadedAttention.d_k MultiHeadedAttention.linears].
  rewrite Hlin, Hh, Hdk.
  set (O := fun (x : list (list R) * list (list R) * list (list bool) * list (list R)) t =>
              map (fun wi => map (dot wi) (transpose (FV (snd x) t)))
                  (spec_weights d_k (FQ (fst (fst (fst x))) t) (FK (snd (fst (fst x))) t)
                                (snd (fst x)))).
  assert (HO : forall x t, In x (combine (combine (combine q k) masks) v) -> (t < h)%nat ->
             length (O x t) = Lq
             /\ Forall (fun r => length r = d_k) (O x t)
             /\ O x t
                = map (fun wi => weighted_sum d_k wi (FV (snd x) t))
                      (spec_weights d_k (FQ (fst (fst (fst x))) t)
                                    (FK (snd (fst (fst x))) t) (snd (fst x)))).
  { intros [[[qb kb] m] vb] t Hin Ht. cbn [fst snd] in *.
    pose proof (in_combine_l _ _ _ _ Hin) as Hqkm.
    pose proof (in_combine_r _ _ _ _ Hin) as Iv.
    destruct (in_combine3 _ _ _ _ _ _ Hqkm) as [Iq [Ik [Im _]]].
    destruct (projected_head_shape lq h d_k Lq t q qb Hq2 Hq3 Sq Iq Ht) as [HLq' _].
    destruct (projected_head_shape lk h d_k Lk t k kb Hk2 Hk3 Sk Ik Ht) as [HLk' _].
    destruct (projected_head_shape lv h d_k Lk t v vb Hv2 Hv3 Sv Iv Ht) as [HLv' HVr].
    destruct (HM qb kb m t Hqkm Ht) as [Hml Hmr].
    destruct (spec_weights_shape d_k (FQ qb t) (FK kb t) m Hml Hmr) as [HWl HWr].
    unfold O. cbn [fst snd]. split; [|split].
    - rewrite length_map, HWl. exact HLq'.
    - apply Forall_forall. intros r Hr. apply in_map_iff in Hr as [wi [<- _]].
      rewrite length_map. apply transpose_length; [|exact HVr].
      now apply (nonempty_of_length _ Lk).
    - apply map_ext_in. intros wi Hwi. apply weighted_sum_transpose.
      + now apply (nonempty_of_length _ Lk).
      + exact HVr.
      + rewrite Forall_forall in HWr. rewrite (HWr wi Hwi). unfold FK, FV.
        now rewrite HLk', HLv'. }
  assert (Hlen4 : length (combine (combine (combine q k) masks) v) = length q).
  { rewrite !length_combine, Hk, Hv, Hm, !Nat.min_id. reflexivity. }
  assert (HO' : forall x t, In x (combine (combine (combine q k) masks) v) -> (t < h)%nat ->
              length (O x t) = Lq /\ Forall (fun r => length r = d_k) (O x t)).
  { intros x t Hin Ht. destruct (HO x t Hin Ht) as [H1 [H2 _]]. now split. }
  change (transpose_1_2 _)
    with (transpose_1_2 (map (fun x => map (O x) (seq 0 h))
                             (combine (combine (combine q k) masks) v))).
  rewrite (merge_heads _ O h d_k Lq (length q) Hh0 Hd0 Hnb Hlen4 HO').
  cbn [bind]. change (getitem [lq; lk; lv; lo] (-1)) with (Ok lo). cbn [bind].
  rewrite (project_merged _ O lo h d_k Lq Hlo HO').
  cbn [bind]. f_equal. f_equal.
  apply map_ext_in. intros [[[qb kb] m] vb] Hin.
  pose proof (in_combine_l _ _ _ _ Hin) as Hqkm.
  destruct (in_combine3 _ _ _ _ _ _ Hqkm) as [Iq _].
  cbn [fst snd]. unfold mha_batch. f_equal.
  rewrite Forall_forall in Sq. destruct (Sq qb Iq) as [-> _]. f_equal.
  apply map_ext_in. intros t Ht. apply in_seq in Ht.
  destruct (HO (qb, kb, m, vb) t Hin) as [_ [_ E]]; [lia|]. exact E.
Qed.

Lemma MultiHeadedAttention_forward_heads_masked_witness :
  MultiHeadedAttention.forward
    (MultiHeadedAttention.mk 1 2
       [nn.Linear.mk 2 2 [[1; 0]; [0; 1]] [0; 0]; nn.Linear.mk 2 2 [[1; 0]; [0; 1]] [0; 0];
        nn.Linear.mk 2 2 [[1; 0]; [0; 1]] [0; 0]; nn.Linear.mk 2 2 [[1; 0]; [0; 1]] [0; 0]]
       None (nn.Dropout.mk 0.1 false (fun _ => true)))
    [[[1; 2]; [3; 4]]] [[[1; 2]; [3; 4]]] [[[1; 2]; [3; 4]]]
    (Some [[[true; false]; [true; true]]])
  = Ok (map (fun x => mha_batch (fun Q K => spec_weights 1 Q K (snd (fst x))) 2 1
                                (nn.Linear.mk 2 2 [[1; 0]; [0; 1]] [0; 0])
                                (nn.Linear.mk 2 2 [[1; 0]; [0; 1]] [0; 0])
                                (nn.Linear.mk 2 2 [[1; 0]; [0; 1]] [0; 0])
                                (nn.Linear.mk 2 2 [[1; 0]; [0; 1]] [0; 0])
                                (fst (fst (fst x))) (snd (fst (fst x))) (snd x))
            (combine (combine (combine [[[1; 2]; [3; 4]]] [[[1; 2]; [3; 4]]])
                              [[[true; false]; [true; true]]])
                     [[[1; 2]; [3; 4]]]),
        MultiHeadedAttention.set_attn
          (MultiHeadedAttention.mk 1 2
             [nn.Linear.mk 2 2 [[1; 0]; [0; 1]] [0; 0];
              nn.Linear.mk 2 2 [[1; 0]; [0; 1]] [0; 0];
              nn.Linear.mk 2 2 [[1; 0]; [0; 1]] [0; 0];
              nn.Linear.mk 2 2 [[1; 0]; [0; 1]] [0; 0]]
             None (nn.Dropout.mk 0.1 false (fun _ => true)))
          (map (fun x => mha_weights (fun Q K => spec_weights 1 Q K (snd x)) 2 1
                                     (nn.Linear.mk 2 2 [[1; 0]; [0; 1]] [0; 0])
                                     (nn.Linear.mk 2 2 [[1; 0]; [0; 1]] [0; 0])
                                     (fst (fst x)) (snd (fst x)))
               (combine (combine [[[1; 2]; [3; 4]]] [[[1; 2]; [3; 4]]])
                        [[[true; false]; [true; true]]]))).
Proof.
  apply (MultiHeadedAttention_forward_heads_masked _ _ _ _ _ 2 1 2 2);
    try reflexivity; try lia; try discriminate;
    repeat (constructor; try (split; [reflexivity|])); try reflexivity;
    repeat constructor.
Defined.

(** ** The model constructor *)

Lemma Linear_init_Ok (i o : Z) (w0 : nat -> nat -> R) (b0 : nat -> R) :
  (0 <= i)%Z -> (0 <= o)%Z ->
  nn.Linear.__init__ i o w0 b0
  = Ok (nn.Linear.mk (Z.to_nat i) (Z.to_nat o)
          (map (fun r => map (w0 r) (seq 0 (Z.to_nat i))) (seq 0 (Z.to_nat o)))
          (map b0 (seq 0 (Z.to_nat o)))).
Proof.
  intros Hi Ho. unfold nn.Linear.__init__.
  destruct (Z.ltb_spec i 0); [lia|]. destruct (Z.ltb_spec o 0); [lia|]. reflexivity.
Qed.

Lemma LayerNorm_init_Ok (features : Z) :
  (0 <= features)%Z ->
  LayerNorm.__init__ features None
  = Ok (LayerNorm.mk (repeat 1 (Z.to_nat features)) (repeat 0 (Z.to_nat features)) 1e-6).
Proof.
  intros Hf. unfold LayerNorm.__init__, torch_ones, torch_zeros, torch_full.
  cbn [forallb length Nat.eqb andb]. destruct (Z.leb_spec 0 features); [|lia].
  reflexivity.
Qed.

Lemma SublayerConnection_init_Ok (size : Z) (p : R) (keep : list nat -> bool) :
  (0 <= size)%Z -> 0 <= p <= 1 ->
  SublayerConnection.__init__ size p keep
  = Ok (SublayerConnection.mk
          (LayerNorm.mk (repeat 1 (Z.to_nat size)) (repeat 0 (Z.to_nat size)) 1e-6)
          (nn.Dropout.mk p true keep)).
Proof.
  intros Hs Hp. unfold SublayerConnection.__init__.
  rewrite (LayerNorm_init_Ok size Hs). cbn [bind].
  now rewrite (Dropout_init_valid p keep Hp).
Qed.

Lemma MultiHeadedAttention_init_Ok (h d_model : Z) w0 b0 keep :
  h <> 0%Z -> (d_model mod h = 0)%Z -> (0 <= d_model)%Z ->
  exists lin,
    MultiHeadedAttention.__init__ h d_model None w0 b0 keep
    = Ok (MultiHeadedAttention.mk (d_model / h) h (clones lin 4) None
            (nn.Dropout.mk 0.1 true keep)).
Proof.
  intros Hh Hmod Hd. unfold MultiHeadedAttention.__init__, py_mod, py_floordiv.
  destruct (Z.eqb_spec h 0); [contradiction|]. cbn [bind].
  rewrite Hmod. cbn [Z.eqb py_assert bind].
  rewrite (Linear_init_Ok d_model d_model w0 b0 Hd Hd). cbn [bind].
  rewrite (Dropout_init_valid 0.1 keep) by lra. cbn [bind]. eauto.
Qed.

Lemma MultiHeadedAttention_init_indivisible (h d_model : Z) p w0 b0 keep :
  (h = 0%Z -> MultiHeadedAttention.__init__ h d_model p w0 b0 keep = Err ZeroDivisionError)
  /\ (h <> 0%Z -> (d_model mod h <> 0)%Z ->
      MultiHeadedAttention.__init__ h d_model p w0 b0 keep = Err AssertionError).
Proof.
  unfold MultiHeadedAttention.__init__, py_mod. split.
  - intros ->. reflexivity.
  - intros Hh Hmod. destruct (Z.eqb_spec h 0); [contradiction|]. cbn [bind].
    destruct (Z.eqb_spec (d_model mod h) 0); [contradiction|]. reflexivity.
Qed.

Lemma PositionwiseFeedForward_init_Ok (d_model d_ff : Z) (p : R) w0 b0 keep :
  (0 <= d_model)%Z -> (0 <= d_ff)%Z -> 0 <= p <= 1 ->
  exists w_1 w_2,
    PositionwiseFeedForward.__init__ d_model d_ff (Some p) w0 b0 keep
    = Ok (PositionwiseFeedForward.mk w_1 w_2 (nn.Dropout.mk p true keep)).
Proof.
  intros Hd Hf Hp. unfold PositionwiseFeedForward.__init__.
  rewrite (Linear_init_Ok d_model d_ff w0 b0 Hd Hf). cbn [bind].
  rewrite (Linear_init_Ok d_ff d_model w0 b0 Hf Hd). cbn [bind].
  rewrite (Dropout_init_valid p keep Hp). cbn [bind]. eauto.
Qed.

Lemma Embeddings_init_Ok (d_model vocab : Z) e0 :
  (0 <= d_model)%Z -> (0 <= vocab)%Z ->
  exists lut, Embeddings.__init__ d_model vocab e0 = Ok (Embeddings.mk lut d_model).
Proof.
  intros Hd Hv. unfold Embeddings.__init__, nn.Embedding.__init__.
  destruct (Z.ltb_spec vocab 0); [lia|]. destruct (Z.ltb_spec d_model 0); [lia|].
  cbn [orb bind]. eauto.
Qed.

Lemma length_mapi {A B : Type} (f : nat -> A -> B) (l : list A) :
  length (mapi f l) = length l.
Proof.
  unfold mapi. now rewrite length_map, length_combine, length_seq, Nat.min_id.
Qed.

Lemma Forall_mapi {A B : Type} (P : B -> Prop) (f : nat -> A -> B) (l : list A) :
  (forall i x, In x l -> P (f i x)) -> Forall P (mapi f l).
Proof.
  intros H. unfold mapi. apply Forall_forall. intros y Hy.
  apply in_map_iff in Hy as [[i x] [<- Hin]]. apply H.
  exact (in_combine_r _ _ _ _ Hin).
Qed.

(** X19.  For an even positive model size that the number of heads divides,
    sizes that are not negative and a dropout rate in [[0, 1]],
    [make_model] succeeds; the encoder and the decoder it returns have [N]
    layers each (none for [N <= 0]); every attention module has [h] heads of
    width [d_model / h] and the dropout rate [0.1] whatever the argument
    [dropout] is, while the feed-forward networks and the positional
    encodings use [dropout]. *)
Theorem make_model_structure :
  forall (src_vocab tgt_vocab N k d_ff h : Z) (dropout : R) (o : make_model_oracles),
    (0 < k)%Z -> h <> 0%Z -> ((2 * k) mod h = 0)%Z ->
    (0 <= d_ff)%Z -> (0 <= src_vocab)%Z -> (0 <= tgt_vocab)%Z ->
    0 <= dropout <= 1 ->
    exists model,
      make_model src_vocab tgt_vocab (Some N) (Some (2 * k)%Z) (Some d_ff) (Some h)
                 (Some dropout) o = Ok model
      /\ length (Encoder.layers (EncoderDecoder.encoder model)) = Z.to_nat N
      /\ length (Decoder.layers (EncoderDecoder.decoder model)) = Z.to_nat N
      /\ Forall (fun l =>
                   let a := EncoderLayer.self_attn l in
                   MultiHeadedAttention.h a = h
                   /\ MultiHeadedAttention.d_k a = (2 * k / h)%Z
                   /\ length (MultiHeadedAttention.linears a) = 4%nat
                   /\ nn.Dropout.p (MultiHeadedAttention.dropout a) = 0.1
                   /\ nn.Dropout.p (PositionwiseFeedForward.dropout
                                      (EncoderLayer.feed_forward l)) = dropout)
                (Encoder.layers (EncoderDecoder.encoder model))
      /\ Forall (fun l =>
                   Forall (fun a => MultiHeadedAttention.h a = h
                                    /\ MultiHeadedAttention.d_k a = (2 * k / h)%Z
                                    /\ length (MultiHeadedAttention.linears a) = 4%nat
                                    /\ nn.Dropout.p (MultiHeadedAttention.dropout a) = 0.1)
                          [DecoderLayer.self_attn l; DecoderLayer.src_attn l]
                   /\ nn.Dropout.p (PositionwiseFeedForward.dropout
                                      (DecoderLayer.feed_forward l)) = dropout)
                (Decoder.layers (EncoderDecoder.decoder model))
      /\ nn.Dropout.p (PositionalEncoding.dropout (snd (EncoderDecoder.src_embed model)))
         = dropout
      /\ nn.Dropout.p (PositionalEncoding.dropout (snd (EncoderDecoder.tgt_embed model)))
         = dropout.
Proof.
  intros src_vocab tgt_vocab N k d_ff h dropout o Hk Hh Hmod Hff Hsv Htv Hp.
  assert (Hd : (0 <= 2 * k)%Z) by lia.
  unfold make_model.
  destruct (MultiHeadedAttention_init_Ok h (2 * k) (attn_w o) (attn_b o) (attn_keep o)
              Hh Hmod Hd) as [lin ->].
  cbn [bind].
  destruct (PositionwiseFeedForward_init_Ok (2 * k) d_ff dropout (ff_w o) (ff_b o)
              (ff_keep o) Hd Hff Hp) as [w_1 [w_2 ->]].
  cbn [bind].
  destruct (PositionalEncoding_init_even k dropout None (position_keep o) Hk Hp)
    as [table ->]; [unfold default_max_len; lia|].
  cbn [bind]. unfold EncoderLayer.__init__, DecoderLayer.__init__.
  rewrite !(SublayerConnection_init_Ok (2 * k) dropout _ Hd Hp). cbn [bind].
  unfold Encoder.__init__, Decoder.__init__.
  cbn [EncoderLayer.size DecoderLayer.size].
  rewrite !(LayerNorm_init_Ok (2 * k) Hd). cbn [bind].
  destruct (Embeddings_init_Ok (2 * k) src_vocab (src_e o) Hd Hsv) as [lut_s ->].
  cbn [bind].
  destruct (Embeddings_init_Ok (2 * k) tgt_vocab (tgt_e o) Hd Htv) as [lut_t ->].
  cbn [bind]. unfold Generator.__init__.
  rewrite (Linear_init_Ok (2 * k) tgt_vocab _ _ Hd Htv). cbn [bind].
  eexists. split; [reflexivity|].
  cbn [xavier_EncoderDecoder EncoderDecoder.encoder EncoderDecoder.decoder
       EncoderDecoder.src_embed EncoderDecoder.tgt_embed snd
       xavier_Encoder xavier_Decoder Encoder.layers Decoder.layers
       PositionalEncoding.dropout nn.Dropout.p].
  split; [|split; [|split; [|split; [|split]]]].
  - rewrite length_mapi. apply repeat_length.
  - rewrite length_mapi. apply repeat_length.
  - apply Forall_mapi. intros i l Hl. apply repeat_spec in Hl. subst l.
    cbn. split; [reflexivity|]. split; [reflexivity|]. split; [|split; reflexivity].
    now rewrite length_map, length_combine, length_seq, !repeat_length.
  - apply Forall_mapi. intros i l Hl. apply repeat_spec in Hl. subst l.
    cbn. split; [|reflexivity].
    repeat constructor;
      now rewrite length_map, length_combine, length_seq, !repeat_length.
  - reflexivity.
  - reflexivity.
Qed.

Lemma make_model_structure_witness :
  exists model,
    make_model 5 7 (Some 2%Z) (Some 4%Z) (Some 8%Z) (Some 2%Z) (Some 0.3)
      (mk_oracles (fun _ _ => 0) (fun _ => 0) (fun _ => true)
                  (fun _ _ => 0) (fun _ => 0) (fun _ => true)
                  (fun _ => true) (fun _ => true) (fun _ => true)
                  (fun _ _ => 0) (fun _ _ => 0) (fun _ _ => 0) (fun _ => 0)
                  (fun _ _ _ => 0))
    = Ok model
    /\ length (Encoder.layers (EncoderDecoder.encoder model)) = 2%nat
    /\ length (Decoder.layers (EncoderDecoder.decoder model)) = 2%nat
    /\ Forall (fun l => nn.Dropout.p (MultiHeadedAttention.dropout
                                        (EncoderLayer.self_attn l)) = 0.1
                        /\ nn.Dropout.p (PositionwiseFeedForward.dropout
                                           (EncoderLayer.feed_forward l)) = 0.3)
              (Encoder.layers (EncoderDecoder.encoder model)).
Proof.
  destruct (make_model_structure 5 7 2 2 8 2 0.3
              (mk_oracles (fun _ _ => 0) (fun _ => 0) (fun _ => true)
                          (fun _ _ => 0) (fun _ => 0) (fun _ => true)
                          (fun _ => true) (fun _ => true) (fun _ => true)
                          (fun _ _ => 0) (fun _ _ => 0) (fun _ _ => 0) (fun _ => 0)
                          (fun _ _ _ => 0)))
    as [model [Hm [He [Hd [Hattn _]]]]]; try lia; try reflexivity; try lra.
  exists model. split; [exact Hm|]. split; [exact He|]. split; [exact Hd|].
  eapply Forall_impl; [|exact Hattn]. intros l [_ [_ [_ [H1 H2]]]]. now split.
Defined.

(** X20.  [make_model] raises before it builds anything when the number of
    heads is zero ([ZeroDivisionError]) or does not divide the model size
    ([AssertionError]); with a number of heads that divides it, an odd model
    size of at least three is refused by the positional encoding
    ([RuntimeError]). *)
Theorem make_model_rejects :
  forall (src_vocab tgt_vocab : Z) (N d_model d_ff : option Z) (dropout : option R)
         (o : make_model_oracles),
    let d := match d_model with Some d => d | None => 512%Z end in
    make_model src_vocab tgt_vocab N d_model d_ff (Some 0%Z) dropout o
    = Err ZeroDivisionError
    /\ (forall h : Z, h <> 0%Z -> (d mod h <> 0)%Z ->
          make_model src_vocab tgt_vocab N d_model d_ff (Some h) dropout o
          = Err AssertionError)
    /\ (forall h k f : Z, forall p : R,
          d_model = Some (2 * k + 1)%Z -> d_ff = Some f -> dropout = Some p ->
          h <> 0%Z -> ((2 * k + 1) mod h = 0)%Z -> (1 <= k)%Z -> (0 <= f)%Z ->
          0 <= p <= 1 ->
          make_model src_vocab tgt_vocab N d_model d_ff (Some h) dropout o
          = Err RuntimeError).
Proof.
  intros src_vocab tgt_vocab N d_model d_ff dropout o d. split; [|split].
  - unfold make_model.
    now rewrite (proj1 (MultiHeadedAttention_init_indivisible 0 _ None _ _ _) eq_refl).
  - intros h Hh Hmod. unfold make_model. fold d.
    now rewrite (proj2 (MultiHeadedAttention_init_indivisible h d None _ _ _) Hh Hmod).
  - intros h k f p -> -> -> Hh Hmod Hk Hf Hp. unfold make_model.
    assert (Hd : (0 <= 2 * k + 1)%Z) by lia.
    destruct (MultiHeadedAttention_init_Ok h (2 * k + 1) (attn_w o) (attn_b o)
                (attn_keep o) Hh Hmod Hd) as [lin ->].
    cbn [bind].
    destruct (PositionwiseFeedForward_init_Ok (2 * k + 1) f p (ff_w o) (ff_b o)
                (ff_keep o) Hd Hf Hp) as [w_1 [w_2 ->]].
    cbn [bind].
    rewrite (PositionalEncoding_init_odd k p None (position_keep o) Hk Hp)
      by (unfold default_max_len; lia).
    reflexivity.
Qed.

Lemma make_model_rejects_witness :
  make_model 5 7 None None None (Some 3%Z) None
    (mk_oracles (fun _ _ => 0) (fun _ => 0) (fun _ => true)
                (fun _ _ => 0) (fun _ => 0) (fun _ => true)
                (fun _ => true) (fun _ => true) (fun _ => true)
                (fun _ _ => 0) (fun _ _ => 0) (fun _ _ => 0) (fun _ => 0)
                (fun _ _ _ => 0))
  = Err AssertionError
  /\ make_model 5 7 None (Some 9%Z) (Some 8%Z) (Some 3%Z) (Some 0.1)
       (mk_oracles (fun _ _ => 0) (fun _ => 0) (fun _ => true)
                   (fun _ _ => 0) (fun _ => 0) (fun _ => true)
                   (fun _ => true) (fun _ => true) (fun _ => true)
                   (fun _ _ => 0) (fun _ _ => 0) (fun _ _ => 0) (fun _ => 0)
                   (fun _ _ _ => 0))
     = Err RuntimeError.
Proof.
  split.
  - apply (proj1 (proj2 (make_model_rejects 5 7 None None None None _)) 3%Z);
      [lia | discriminate].
  - apply (proj2 (proj2 (make_model_rejects 5 7 None (Some 9%Z) (Some 8%Z) (Some 0.1) _))
             3%Z 4%Z 8%Z 0.1); try reflexivity; try lia; try lra.
Defined.

(** ** The top-level model *)



